(** * Pentagon Protocol: recovery ladder and re-run planner

    A shallow embedding of [src/schemas.py] (JSON recovery, pydantic
    validators) and of the planner and context manager of [src/crew.py],
    with the properties of the orchestrator stated over it.

    Conventions.
    - A Python [str] is a [string]; the model covers code points below 256,
      and the character classes ([str.isspace], [str.lower], the regular
      expression escapes) are the ones Python applies to those code points.
    - A Python [int] is a [Z]; a [set] of strings is a [gset string]; a
      [dict] with string keys whose order is irrelevant is a [gmap]; a JSON
      object keeps its keys in insertion order in an association list.
    - A function that can raise returns [res]; [Raise] carries the exception
      class.  A function that cannot raise is a plain function. *)

From Stdlib Require Import ZArith Lia Ascii String List Bool DecimalString.
From stdpp Require Import gmap strings list.

Local Open Scope string_scope.
Local Open Scope list_scope.
Local Open Scope stdpp_scope.

(* ================================================================== *)
(** * Python strings *)
(* ================================================================== *)

Module Py.

Definition chars (s : string) : list ascii := list_ascii_of_string s.
Definition of_chars (l : list ascii) : string := string_of_list_ascii l.

Definition code (c : ascii) : N := N_of_ascii c.

Definition in_range (lo hi : N) (c : ascii) : bool :=
  (N.leb lo (code c) && N.leb (code c) hi)%bool.

(** [str.isspace] on one code point: TAB..CR, FS..US and SPACE, NEL, NBSP. *)
Definition isspace (c : ascii) : bool :=
  in_range 9 13 c || in_range 28 32 c || N.eqb (code c) 133 || N.eqb (code c) 160.

(** [str.lower] on one code point: A..Z and the Latin-1 capitals. *)
Definition lower_char (c : ascii) : ascii :=
  if in_range 65 90 c || (in_range 192 222 c && negb (N.eqb (code c) 215))
  then ascii_of_N (code c + 32) else c.

(** [str.upper] on one code point (sharp s and y-diaeresis leave the range
    and are kept as they are; micro sign likewise). *)
Definition upper_char (c : ascii) : ascii :=
  if in_range 97 122 c || (in_range 224 254 c && negb (N.eqb (code c) 247))
  then ascii_of_N (code c - 32) else c.

Definition lower (s : string) : string := of_chars (map lower_char (chars s)).
Definition upper (s : string) : string := of_chars (map upper_char (chars s)).

Fixpoint lstrip_l (l : list ascii) : list ascii :=
  match l with
  | c :: l' => if isspace c then lstrip_l l' else l
  | [] => []
  end.

Definition rstrip_l (l : list ascii) : list ascii := rev (lstrip_l (rev l)).
Definition strip_l (l : list ascii) : list ascii := rstrip_l (lstrip_l l).

Definition strip (s : string) : string := of_chars (strip_l (chars s)).

Fixpoint is_prefix (p l : list ascii) : bool :=
  match p, l with
  | [], _ => true
  | a :: p', b :: l' => Ascii.eqb a b && is_prefix p' l'
  | _ :: _, [] => false
  end.

Definition startswith (s p : string) : bool := is_prefix (chars p) (chars s).
Definition endswith (s p : string) : bool :=
  is_prefix (rev (chars p)) (rev (chars s)).

(** [sub in s] *)
Fixpoint contains_l (p l : list ascii) : bool :=
  is_prefix p l || match l with [] => false | _ :: l' => contains_l p l' end.

Definition contains (p s : string) : bool := contains_l (chars p) (chars s).

(** [s.find(c)] for a one-character [c]: the first index, or -1. *)
Fixpoint find_l (c : ascii) (l : list ascii) : Z :=
  match l with
  | [] => -1
  | a :: l' => if Ascii.eqb a c then 0
               else let r := find_l c l' in if (r <? 0)%Z then -1 else (r + 1)%Z
  end.

(** [s.rfind(c)] for a one-character [c]: the last index, or -1. *)
Fixpoint rfind_l (c : ascii) (l : list ascii) : Z :=
  match l with
  | [] => -1
  | a :: l' => let r := rfind_l c l' in
               if (0 <=? r)%Z then (r + 1)%Z
               else if Ascii.eqb a c then 0 else -1
  end.

(** [l[a:b]] for [0 <= a]. *)
Definition slice_l (a b : Z) (l : list ascii) : list ascii :=
  firstn (Z.to_nat (b - a)) (skipn (Z.to_nat a) l).

(** [s.count(c)] for a one-character [c]. *)
Definition count_l (c : ascii) (l : list ascii) : Z :=
  Z.of_nat (length (filter (λ a, Ascii.eqb a c = true) l)).

Definition count (s : string) (c : ascii) : Z := count_l c (chars s).

(** [c * n]: the empty string when [n <= 0]. *)
Definition times (c : ascii) (n : Z) : list ascii := repeat c (Z.to_nat n).

(** [s.replace(old, new)] for a non-empty [old]: occurrences are replaced
    from the left and do not overlap.  [skip] counts the characters of an
    occurrence that remain to be dropped. *)
Fixpoint replace_l (old new : list ascii) (skip : nat) (l : list ascii)
  : list ascii :=
  match l with
  | [] => []
  | c :: l' =>
      match skip with
      | S k => replace_l old new k l'
      | O => if is_prefix old l
             then new ++ replace_l old new (length old - 1) l'
             else c :: replace_l old new 0 l'
      end
  end.

Definition replace (s old new : string) : string :=
  of_chars (replace_l (chars old) (chars new) 0 (chars s)).

(** [sep.join(parts)] *)
Fixpoint join (sep : string) (parts : list string) : string :=
  match parts with
  | [] => ""
  | [p] => p
  | p :: ps => p +:+ sep +:+ join sep ps
  end.

(** [s.split(c)] for a one-character separator. *)
Fixpoint split_l (c : ascii) (cur : list ascii) (l : list ascii)
  : list (list ascii) :=
  match l with
  | [] => [rev cur]
  | a :: l' => if Ascii.eqb a c then rev cur :: split_l c [] l'
               else split_l c (a :: cur) l'
  end.

Definition split (s : string) (c : ascii) : list string :=
  map of_chars (split_l c [] (chars s)).

(** Truth value of a [str]. *)
Definition nonempty (s : string) : bool :=
  match s with EmptyString => false | _ => true end.

(** [x in xs] for a list of strings. *)
Definition mem (x : string) (xs : list string) : bool :=
  existsb (String.eqb x) xs.

(** [str(n)] for an [int]. *)
Definition str_of_Z (n : Z) : string :=
  NilZero.string_of_int (Z.to_int n).

End Py.

(* ================================================================== *)
(** * Python regular expressions ([re])

    The fragment of [re] the source uses, as a backtracking matcher in
    continuation-passing style: alternatives are tried from the left, a
    greedy repetition tries one more iteration before it tries to stop, a
    lazy one tries to stop first.  The bodies of all repetitions in the
    source's patterns consume at least one character, and none of the
    patterns matches the empty string; an iteration that consumes nothing is
    cut, and a scan moves on by one character after an empty match. *)
(* ================================================================== *)

Module Re.

Inductive citem :=
| CChar (c : ascii)            (** a literal character *)
| CRange (lo hi : ascii)       (** [lo-hi] *)
| CSpace                       (** [\s] *)
| CNotSpace                    (** [\S] *)
| CWord.                       (** [\w] *)

(** [\w]: [str.isalnum] or the underscore. *)
Definition isword (c : ascii) : bool :=
  Py.in_range 48 57 c || Py.in_range 65 90 c || Py.in_range 97 122 c ||
  N.eqb (Py.code c) 95 || N.eqb (Py.code c) 170 || Py.in_range 178 179 c ||
  N.eqb (Py.code c) 181 || Py.in_range 185 186 c || Py.in_range 188 190 c ||
  Py.in_range 192 214 c || Py.in_range 216 246 c || Py.in_range 248 255 c.

Definition in_item (a : ascii) (it : citem) : bool :=
  match it with
  | CChar c => Ascii.eqb a c
  | CRange lo hi => Py.in_range (Py.code lo) (Py.code hi) a
  | CSpace => Py.isspace a
  | CNotSpace => negb (Py.isspace a)
  | CWord => isword a
  end.

Definition in_class (neg : bool) (items : list citem) (a : ascii) : bool :=
  xorb neg (existsb (in_item a) items).

Inductive regex :=
| Eps
| Chr (c : ascii)
| Cls (neg : bool) (items : list citem)   (** [[...]], [[^...]], [\s], [\w] *)
| Dot (dotall : bool)                     (** [.] *)
| Eos                                     (** [$] *)
| Cat (r1 r2 : regex)
| Alt (r1 r2 : regex)
| Star (greedy : bool) (r : regex)        (** [r*] and [r*?] *)
| Group (i : nat) (r : regex).            (** the [i]-th capturing group *)

Definition Plus (r : regex) : regex := Cat r (Star true r).

Fixpoint seq (rs : list regex) : regex :=
  match rs with
  | [] => Eps
  | [r] => r
  | r :: rs' => Cat r (seq rs')
  end.

Definition lit (s : string) : regex := seq (map Chr (Py.chars s)).

(** Captured groups, the most recent binding first. *)
Definition caps := list (nat * list ascii).

Definition set_group (i : nat) (w : list ascii) (cs : caps) : caps :=
  (i, w) :: cs.

Fixpoint group_l (i : nat) (cs : caps) : list ascii :=
  match cs with
  | [] => []
  | (j, w) :: cs' => if Nat.eqb i j then w else group_l i cs'
  end.

Definition newline : ascii := ascii_of_N 10.

Definition K := list ascii → caps → option (list ascii * caps).

(** The loop of a repetition whose body is matched by [body]: at most [n]
    more iterations, each of which has to consume something. *)
Fixpoint star_loop (body : list ascii → caps → K → option (list ascii * caps))
    (greedy : bool) (k : K) (n : nat) (s : list ascii) (cs : caps)
  : option (list ascii * caps) :=
  match n with
  | O => k s cs
  | S n' =>
      if greedy then
        match body s cs (λ s' cs',
                if Nat.ltb (length s') (length s)
                then star_loop body greedy k n' s' cs' else None) with
        | Some x => Some x
        | None => k s cs
        end
      else
        match k s cs with
        | Some x => Some x
        | None => body s cs (λ s' cs',
                    if Nat.ltb (length s') (length s)
                    then star_loop body greedy k n' s' cs' else None)
        end
  end.

(** [run r s cs k]: match [r] at the head of [s], then continue with [k] on
    what is left. *)
Fixpoint run (r : regex) (s : list ascii) (cs : caps) (k : K) {struct r}
  : option (list ascii * caps) :=
  match r with
  | Eps => k s cs
  | Chr c =>
      match s with
      | a :: s' => if Ascii.eqb a c then k s' cs else None
      | [] => None
      end
  | Cls neg items =>
      match s with
      | a :: s' => if in_class neg items a then k s' cs else None
      | [] => None
      end
  | Dot dotall =>
      match s with
      | a :: s' => if dotall || negb (Ascii.eqb a newline) then k s' cs else None
      | [] => None
      end
  | Eos =>
      match s with
      | [] => k s cs
      | [a] => if Ascii.eqb a newline then k s cs else None
      | _ => None
      end
  | Cat r1 r2 => run r1 s cs (λ s' cs', run r2 s' cs' k)
  | Alt r1 r2 =>
      match run r1 s cs k with
      | Some x => Some x
      | None => run r2 s cs k
      end
  | Star greedy r1 => star_loop (run r1) greedy k (length s) s cs
  | Group i r1 =>
      run r1 s cs (λ s' cs',
        k s' (set_group i (firstn (length s - length s') s) cs'))
  end.

(** [lang r w rest cs cs']: the pattern [r] matches the word [w] when
    [rest] follows it, and takes the captures [cs] to [cs']. *)
Inductive lang : regex → list ascii → list ascii → caps → caps → Prop :=
| L_Eps rest cs : lang Eps [] rest cs cs
| L_Chr c rest cs : lang (Chr c) [c] rest cs cs
| L_Cls neg items a rest cs :
    in_class neg items a = true → lang (Cls neg items) [a] rest cs cs
| L_Dot dotall a rest cs :
    dotall || negb (Ascii.eqb a newline) = true → lang (Dot dotall) [a] rest cs cs
| L_Eos rest cs : rest = [] ∨ rest = [newline] → lang Eos [] rest cs cs
| L_Cat r1 r2 w1 w2 rest cs cs1 cs2 :
    lang r1 w1 (w2 ++ rest) cs cs1 → lang r2 w2 rest cs1 cs2 →
    lang (Cat r1 r2) (w1 ++ w2) rest cs cs2
| L_AltL r1 r2 w rest cs cs' : lang r1 w rest cs cs' → lang (Alt r1 r2) w rest cs cs'
| L_AltR r1 r2 w rest cs cs' : lang r2 w rest cs cs' → lang (Alt r1 r2) w rest cs cs'
| L_StarNil g r rest cs : lang (Star g r) [] rest cs cs
| L_StarCons g r w1 w2 rest cs cs1 cs2 :
    lang r w1 (w2 ++ rest) cs cs1 → w1 ≠ [] → lang (Star g r) w2 rest cs1 cs2 →
    lang (Star g r) (w1 ++ w2) rest cs cs2
| L_Group i r w rest cs cs' :
    lang r w rest cs cs' → lang (Group i r) w rest cs (set_group i w cs').

(** A match object: [m.group(0)] and the captured groups. *)
Record mobj := { m_text : list ascii; m_caps : caps }.

Definition group (m : mobj) (i : nat) : string := Py.of_chars (group_l i (m_caps m)).

Definition ret : K := λ s cs, Some (s, cs).

(** [pattern.match] at the head of [s]. *)
Definition match_at (r : regex) (s : list ascii) : option mobj :=
  match run r s [] ret with
  | Some (rest, cs) =>
      Some {| m_text := firstn (length s - length rest) s; m_caps := cs |}
  | None => None
  end.

(** [re.finditer]: the matches from the left, without overlap.  [skip]
    counts the characters of the last match still to be passed. *)
Fixpoint finditer_l (r : regex) (skip : nat) (s : list ascii) : list mobj :=
  match s with
  | [] => match skip, match_at r [] with
          | O, Some m => [m]
          | _, _ => []
          end
  | _ :: s' =>
      match skip with
      | S n => finditer_l r n s'
      | O => match match_at r s with
             | Some m => m :: finditer_l r (length (m_text m) - 1) s'
             | None => finditer_l r 0 s'
             end
      end
  end.

Definition finditer (r : regex) (s : string) : list mobj :=
  finditer_l r 0 (Py.chars s).

(** [re.search] *)
Definition search (r : regex) (s : string) : option mobj :=
  head (finditer r s).

(** [re.findall] for a pattern with exactly one group. *)
Definition findall1 (r : regex) (s : string) : list string :=
  map (λ m, group m 1) (finditer r s).

(** A replacement template: text and group references. *)
Inductive ritem :=
| RText (t : string)
| RRef (i : nat).

Definition expand (repl : list ritem) (cs : caps) : list ascii :=
  concat (map (λ it, match it with
                     | RText t => Py.chars t
                     | RRef i => group_l i cs
                     end) repl).

(** [re.sub] *)
Fixpoint sub_l (r : regex) (repl : list ritem) (skip : nat) (s : list ascii)
  : list ascii :=
  match s with
  | [] => match skip, match_at r [] with
          | O, Some m => expand repl (m_caps m)
          | _, _ => []
          end
  | c :: s' =>
      match skip with
      | S n => sub_l r repl n s'
      | O => match match_at r s with
             | Some m =>
                 expand repl (m_caps m) ++
                 match length (m_text m) with
                 | O => c :: sub_l r repl 0 s'
                 | S n => sub_l r repl n s'
                 end
             | None => c :: sub_l r repl 0 s'
             end
      end
  end.

Definition sub (r : regex) (repl : list ritem) (s : string) : string :=
  Py.of_chars (sub_l r repl 0 (Py.chars s)).

(** Abbreviations for the pieces the source's patterns are made of. *)
Definition dquote : ascii := ascii_of_N 34.
Definition squote : ascii := ascii_of_N 39.
Definition backslash : ascii := ascii_of_N 92.
Definition backtick : ascii := ascii_of_N 96.

(** [\s*] *)
Definition ws : regex := Star true (Cls false [CSpace]).
(** a key between double quotes *)
Definition quoted (name : string) : regex :=
  seq [Chr dquote; lit name; Chr dquote].
(** one or more characters other than the double quote *)
Definition not_quote_plus : regex := Plus (Cls true [CChar dquote]).
(** a string body: characters other than quote and backslash, or escapes *)
Definition escaped_body (dotall : bool) : regex :=
  Star true (Alt (Cls true [CChar dquote; CChar backslash])
                 (Cat (Chr backslash) (Dot dotall))).
(** a quoted key, a colon, and the quoted group [g], with optional spaces *)
Definition field (name : string) (i : nat) (g : regex) : regex :=
  seq [quoted name; ws; Chr ":"; ws; Chr dquote; Group i g; Chr dquote].

End Re.

(* ================================================================== *)
(** * JSON values and a reference reader *)
(* ================================================================== *)

Module Json.

(** What [json.loads] returns: [None], [bool], [int], [float] (kept as its
    literal), [str], [list], and [dict] in insertion order. *)
#[warnings="-register-all"]
Inductive json :=
| JNull
| JBool (b : bool)
| JInt (n : Z)
| JFloat (literal : string)
| JStr (s : string)
| JArr (items : list json)
| JObj (members : list (string * json)).

(** [d.get(key)] *)
Fixpoint dict_get (key : string) (d : list (string * json)) : option json :=
  match d with
  | [] => None
  | (k, v) :: d' => if String.eqb k key then Some v else dict_get key d'
  end.

(** [d[key] = v]: an existing key keeps its place. *)
Fixpoint dict_set (key : string) (v : json) (d : list (string * json))
  : list (string * json) :=
  match d with
  | [] => [(key, v)]
  | (k, w) :: d' => if String.eqb k key then (k, v) :: d'
                    else (k, w) :: dict_set key v d'
  end.

(** Truth value of a Python value. *)
Definition truthy (j : json) : bool :=
  match j with
  | JNull => false
  | JBool b => b
  | JInt n => negb (Z.eqb n 0)
  | JFloat _ => true
  | JStr s => Py.nonempty s
  | JArr l => match l with [] => false | _ => true end
  | JObj d => match d with [] => false | _ => true end
  end.

Definition is_json_ws (c : ascii) : bool :=
  N.eqb (Py.code c) 32 || N.eqb (Py.code c) 9 || N.eqb (Py.code c) 10 ||
  N.eqb (Py.code c) 13.

Fixpoint skip_ws (l : list ascii) : list ascii :=
  match l with
  | c :: l' => if is_json_ws c then skip_ws l' else l
  | [] => []
  end.

Definition is_digit (c : ascii) : bool := Py.in_range 48 57 c.

Definition hex_val (c : ascii) : option N :=
  if Py.in_range 48 57 c then Some (Py.code c - 48)%N
  else if Py.in_range 97 102 c then Some (Py.code c - 87)%N
  else if Py.in_range 65 70 c then Some (Py.code c - 55)%N
  else None.

(** The body of a string literal after its opening quote.  An escape
    [\uXXXX] of a code point outside the modelled range is not read. *)
Fixpoint read_string (l : list ascii) (acc : list ascii)
  : option (string * list ascii) :=
  match l with
  | [] => None
  | c :: l' =>
      if Ascii.eqb c Re.dquote then Some (Py.of_chars (rev acc), l')
      else if Ascii.eqb c Re.backslash then
        match l' with
        | e :: l'' =>
            if Ascii.eqb e Re.dquote then read_string l'' (Re.dquote :: acc)
            else if Ascii.eqb e Re.backslash then read_string l'' (Re.backslash :: acc)
            else if Ascii.eqb e "/" then read_string l'' ("/"%char :: acc)
            else if Ascii.eqb e "b" then read_string l'' (ascii_of_N 8 :: acc)
            else if Ascii.eqb e "f" then read_string l'' (ascii_of_N 12 :: acc)
            else if Ascii.eqb e "n" then read_string l'' (ascii_of_N 10 :: acc)
            else if Ascii.eqb e "r" then read_string l'' (ascii_of_N 13 :: acc)
            else if Ascii.eqb e "t" then read_string l'' (ascii_of_N 9 :: acc)
            else if Ascii.eqb e "u" then
              match l'' with
              | h1 :: h2 :: h3 :: h4 :: l3 =>
                  match hex_val h1, hex_val h2, hex_val h3, hex_val h4 with
                  | Some 0%N, Some 0%N, Some a, Some b =>
                      read_string l3 (ascii_of_N (16 * a + b) :: acc)
                  | _, _, _, _ => None
                  end
              | _ => None
              end
            else None
        | [] => None
        end
      else if N.ltb (Py.code c) 32 then None
      else read_string l' (c :: acc)
  end.

Fixpoint span_digits (l : list ascii) : list ascii * list ascii :=
  match l with
  | c :: l' => if is_digit c then let (d, r) := span_digits l' in (c :: d, r)
               else ([], l)
  | [] => ([], [])
  end.

Definition Z_of_digits (d : list ascii) : Z :=
  fold_left (λ acc c, (10 * acc + Z.of_N (Py.code c - 48))%Z) d 0%Z.

(** An optional sign, an integer part without leading zeros, an optional
    fraction and an optional exponent. *)
Definition read_number (l : list ascii) : option (json * list ascii) :=
  let (neg, l1) := match l with
                   | c :: l' => if Ascii.eqb c "-" then (true, l') else (false, l)
                   | [] => (false, l)
                   end in
  let (ds, l2) := span_digits l1 in
  let (ds, l2) := match ds with
                  | z :: _ :: _ => if Ascii.eqb z "0" then ([z], skipn 1 l1)
                                   else (ds, l2)
                  | _ => (ds, l2)
                  end in
  match ds with
  | [] => None
  | _ =>
      let (frac, l3) :=
        match l2 with
        | c :: l' => if Ascii.eqb c "."
                     then let (fd, r) := span_digits l' in
                          match fd with [] => ([], l2) | _ => (c :: fd, r) end
                     else ([], l2)
        | [] => ([], l2)
        end in
      let (ex, l4) :=
        match l3 with
        | c :: l' =>
            if Ascii.eqb c "e" || Ascii.eqb c "E" then
              let (sg, l'') := match l' with
                               | g :: r => if Ascii.eqb g "+" || Ascii.eqb g "-"
                                           then ([g], r) else ([], l')
                               | [] => ([], l')
                               end in
              let (ed, r) := span_digits l'' in
              match ed with [] => ([], l3) | _ => (c :: sg ++ ed, r) end
            else ([], l3)
        | [] => ([], l3)
        end in
      match frac, ex with
      | [], [] => Some (JInt (if neg then - Z_of_digits ds else Z_of_digits ds), l4)
      | _, _ => Some (JFloat (Py.of_chars ((if neg then ["-"%char] else []) ++ ds ++ frac ++ ex)), l4)
      end
  end.

Definition literals : list (string * json) :=
  [("true", JBool true); ("false", JBool false); ("null", JNull);
   ("NaN", JFloat "nan"); ("Infinity", JFloat "inf"); ("-Infinity", JFloat "-inf")].

Fixpoint read_literal (ls : list (string * json)) (l : list ascii)
  : option (json * list ascii) :=
  match ls with
  | [] => None
  | (name, v) :: ls' =>
      if Py.is_prefix (Py.chars name) l
      then Some (v, skipn (String.length name) l)
      else read_literal ls' l
  end.

(** One value at the head of [l] (no leading white space, as in the
    decoder's scanner); [fuel] bounds the nesting. *)
Fixpoint read_value (fuel : nat) (l : list ascii) {struct fuel}
  : option (json * list ascii) :=
  match fuel with
  | O => None
  | S f =>
      match l with
      | [] => None
      | c :: l' =>
          if Ascii.eqb c Re.dquote then
            match read_string l' [] with
            | Some (s, r) => Some (JStr s, r)
            | None => None
            end
          else if Ascii.eqb c "[" then
            match skip_ws l' with
            | d :: r0 =>
                if Ascii.eqb d "]" then Some (JArr [], r0)
                else
                  (fix items (n : nat) (l : list ascii) (acc : list json) :=
                     match n with
                     | O => None
                     | S n' =>
                         match read_value f l with
                         | Some (v, r) =>
                             match skip_ws r with
                             | e :: r' =>
                                 if Ascii.eqb e "," then items n' (skip_ws r') (v :: acc)
                                 else if Ascii.eqb e "]" then Some (JArr (rev (v :: acc)), r')
                                 else None
                             | [] => None
                             end
                         | None => None
                         end
                     end) (length l) (skip_ws l') []
            | [] => None
            end
          else if Ascii.eqb c "{" then
            match skip_ws l' with
            | d :: r0 =>
                if Ascii.eqb d "}" then Some (JObj [], r0)
                else
                  (fix members (n : nat) (l : list ascii) (acc : list (string * json)) :=
                     match n with
                     | O => None
                     | S n' =>
                         match l with
                         | q :: l1 =>
                             if Ascii.eqb q Re.dquote then
                               match read_string l1 [] with
                               | Some (key, r) =>
                                   match skip_ws r with
                                   | col :: r1 =>
                                       if Ascii.eqb col ":" then
                                         match read_value f (skip_ws r1) with
                                         | Some (v, r2) =>
                                             match skip_ws r2 with
                                             | e :: r' =>
                                                 if Ascii.eqb e ","
                                                 then members n' (skip_ws r') (dict_set key v acc)
                                                 else if Ascii.eqb e "}"
                                                 then Some (JObj (dict_set key v acc), r')
                                                 else None
                                             | [] => None
                                             end
                                         | None => None
                                         end
                                       else None
                                   | [] => None
                                   end
                               | None => None
                               end
                             else None
                         | [] => None
                         end
                     end) (length l) (skip_ws l') []
            | [] => None
            end
          else if Ascii.eqb c "-" || is_digit c then
            match read_number l with
            | Some x => Some x
            | None => read_literal literals l
            end
          else read_literal literals l
      end
  end.

(** A reader for JSON documents in the manner of [json.loads]: [None]
    stands for [JSONDecodeError]. *)
Definition loads (s : string) : option json :=
  let l := Py.chars s in
  match read_value (S (length l)) (skip_ws l) with
  | Some (v, r) => match skip_ws r with [] => Some v | _ => None end
  | None => None
  end.

End Json.
Export Json.

(* ================================================================== *)
(** * [schemas.py]: the pydantic models *)
(* ================================================================== *)

Module Schemas.

(** Reading the fields of a JSON object the way pydantic validates them:
    a [str] field takes a JSON string only, a [List[str]] field a JSON array
    of strings; a missing field takes its default when it has one. *)
Definition as_str (j : json) : option string :=
  match j with JStr s => Some s | _ => None end.

Definition as_list {A} (f : json → option A) (j : json) : option (list A) :=
  match j with JArr l => mapM f l | _ => None end.

Definition required {A} (f : json → option A) (key : string)
    (d : list (string * json)) : option A :=
  match dict_get key d with Some j => f j | None => None end.

Definition optional {A} (f : json → option A) (key : string) (dflt : A)
    (d : list (string * json)) : option A :=
  match dict_get key d with Some j => f j | None => Some dflt end.

Definition as_object {A} (f : list (string * json) → option A) (j : json)
  : option A :=
  match j with JObj d => f d | _ => None end.

Module UserStory.
Record t := mk
  { id : string; title : string; description : string; priority : string }.

Definition validate_priority (v : string) : string :=
  let v := Py.strip (Py.lower v) in
  if negb (Py.mem v ["high"; "medium"; "low"]) then "medium" else v.

(** [UserStory(id=.., title=.., description=.., priority=..)] *)
Definition new (id title description priority : string) : t :=
  mk id title description (validate_priority priority).

Definition model_validate : json → option t :=
  as_object (λ d,
    i ← required as_str "id" d;
    ti ← required as_str "title" d;
    de ← required as_str "description" d;
    pr ← optional (λ j, validate_priority <$> as_str j) "priority" "medium" d;
    Some (mk i ti de pr)).
End UserStory.

Module UserStoriesOutput.
Record t := mk { stories : list UserStory.t; summary : string }.

Definition model_validate : json → option t :=
  as_object (λ d,
    st ← required (as_list UserStory.model_validate) "stories" d;
    su ← optional as_str "summary" "" d;
    Some (mk st su)).
End UserStoriesOutput.

Module APIEndpoint.
Record t := mk { method : string; path : string; description : string }.

Definition validate_method (v : string) : string :=
  let v := Py.strip (Py.upper v) in
  if negb (Py.mem v ["GET"; "POST"; "PUT"; "DELETE"; "PATCH"]) then "GET" else v.

Definition new (method path description : string) : t :=
  mk (validate_method method) path description.

Definition model_validate : json → option t :=
  as_object (λ d,
    m ← required (λ j, validate_method <$> as_str j) "method" d;
    p ← required as_str "path" d;
    de ← required as_str "description" d;
    Some (mk m p de)).
End APIEndpoint.

Module DataModel.
Record t := mk { name : string; fields : list string }.

Definition model_validate : json → option t :=
  as_object (λ d,
    n ← required as_str "name" d;
    f ← required (as_list as_str) "fields" d;
    Some (mk n f)).
End DataModel.

Module SystemDesign.
Record t := mk
  { models : list DataModel.t; endpoints : list APIEndpoint.t;
    architecture_notes : string }.

Definition model_validate : json → option t :=
  as_object (λ d,
    m ← required (as_list DataModel.model_validate) "models" d;
    e ← required (as_list APIEndpoint.model_validate) "endpoints" d;
    n ← optional as_str "architecture_notes" "" d;
    Some (mk m e n)).
End SystemDesign.

Module CodeFile.
Record t := mk { filename : string; content : string; description : string }.

Definition model_validate : json → option t :=
  as_object (λ d,
    f ← required as_str "filename" d;
    c ← required as_str "content" d;
    de ← optional as_str "description" "" d;
    Some (mk f c de)).
End CodeFile.

Module BackendCode.
Record t := mk { files : list CodeFile.t; setup_instructions : string }.

Definition model_validate : json → option t :=
  as_object (λ d,
    f ← required (as_list CodeFile.model_validate) "files" d;
    s ← optional as_str "setup_instructions" "pip install fastapi uvicorn" d;
    Some (mk f s)).
End BackendCode.

Module FrontendCode.
Record t := mk { files : list CodeFile.t; setup_instructions : string }.

Definition model_validate : json → option t :=
  as_object (λ d,
    f ← required (as_list CodeFile.model_validate) "files" d;
    s ← optional as_str "setup_instructions" "Open index.html in browser" d;
    Some (mk f s)).
End FrontendCode.

Module TestCase.
Record t := mk
  { id : string; description : string; status : string; notes : string;
    responsible_agent : string }.

Definition validate_status (v : string) : string :=
  let v := Py.strip (Py.lower v) in
  if negb (Py.mem v ["pass"; "fail"; "skip"; "passed"; "failed"; "skipped"])
  then "skip"
  else if String.eqb v "passed" then "pass"
  else if Py.mem v ["failed"; "skipped"] then Py.replace v "ed" ""
  else v.

Definition validate_responsible_agent (v : string) : string :=
  let v := Py.strip (Py.lower v) in
  let valid_agents :=
    ["product_owner"; "architect"; "backend_engineer"; "frontend_engineer"; ""] in
  if negb (Py.mem v valid_agents) then "" else v.

Definition new (id description status notes responsible_agent : string) : t :=
  mk id description (validate_status status) notes
     (validate_responsible_agent responsible_agent).

Definition model_validate : json → option t :=
  as_object (λ d,
    i ← required as_str "id" d;
    de ← required as_str "description" d;
    st ← required (λ j, validate_status <$> as_str j) "status" d;
    n ← optional as_str "notes" "" d;
    r ← optional (λ j, validate_responsible_agent <$> as_str j)
          "responsible_agent" "" d;
    Some (mk i de st n r)).
End TestCase.

Module TestReport.
(** [issues_by_agent] is a [Dict[str, List[str]]], kept in insertion order. *)
Record t := mk
  { overall_status : string; test_cases : list TestCase.t; summary : string;
    recommendations : list string;
    issues_by_agent : list (string * list string) }.

Definition validate_overall_status (v : string) : string :=
  let v := Py.strip (Py.lower v) in
  if negb (Py.mem v ["pass"; "fail"; "needs_review"; "passed"; "failed"])
  then "needs_review"
  else if String.eqb v "passed" then "pass"
  else if String.eqb v "failed" then "fail"
  else v.

Definition default_issues_by_agent : list (string * list string) :=
  [("product_owner", []); ("architect", []); ("backend_engineer", []);
   ("frontend_engineer", [])].

Definition new (overall_status : string) (test_cases : list TestCase.t)
    (summary : string) (recommendations : list string)
    (issues_by_agent : list (string * list string)) : t :=
  mk (validate_overall_status overall_status) test_cases summary
     recommendations issues_by_agent.

Definition as_issues (j : json) : option (list (string * list string)) :=
  match j with
  | JObj d => mapM (λ kv, v ← as_list as_str (snd kv); Some (fst kv, v)) d
  | _ => None
  end.

Definition model_validate : json → option t :=
  as_object (λ d,
    o ← required (λ j, validate_overall_status <$> as_str j) "overall_status" d;
    tc ← required (as_list TestCase.model_validate) "test_cases" d;
    su ← optional as_str "summary" "" d;
    re ← optional (as_list as_str) "recommendations" [] d;
    ia ← optional as_issues "issues_by_agent" default_issues_by_agent d;
    Some (mk o tc su re ia)).
End TestReport.

(** The classes [safe_parse_json] is called with. *)
Inductive model_class :=
| ClsUserStoriesOutput
| ClsSystemDesign
| ClsBackendCode
| ClsFrontendCode
| ClsTestReport.

(** An instance of one of them. *)
Inductive model :=
| MUserStoriesOutput (x : UserStoriesOutput.t)
| MSystemDesign (x : SystemDesign.t)
| MBackendCode (x : BackendCode.t)
| MFrontendCode (x : FrontendCode.t)
| MTestReport (x : TestReport.t).

(** [model_class.model_validate(data)]; [None] stands for [ValidationError]. *)
Definition model_validate (c : model_class) (data : json) : option model :=
  match c with
  | ClsUserStoriesOutput => MUserStoriesOutput <$> UserStoriesOutput.model_validate data
  | ClsSystemDesign => MSystemDesign <$> SystemDesign.model_validate data
  | ClsBackendCode => MBackendCode <$> BackendCode.model_validate data
  | ClsFrontendCode => MFrontendCode <$> FrontendCode.model_validate data
  | ClsTestReport => MTestReport <$> TestReport.model_validate data
  end.

(** ** The recovery ladder *)

Definition first_char_is (s : string) (cs : list ascii) : bool :=
  match s with
  | String a _ => existsb (Ascii.eqb a) cs
  | EmptyString => false
  end.

(** [[\s\S]*?] *)
Definition anything_lazy : Re.regex :=
  Re.Star false (Re.Cls false [Re.CSpace; Re.CNotSpace]).

Definition fence_json : Re.regex :=
  Re.seq [Re.lit "```json"; Re.ws; Re.Group 1 anything_lazy; Re.ws; Re.lit "```"].
Definition fence_plain : Re.regex :=
  Re.seq [Re.lit "```"; Re.ws; Re.Group 1 anything_lazy; Re.ws; Re.lit "```"].
Definition inline_code : Re.regex :=
  Re.seq [Re.Chr Re.backtick; Re.Group 1 anything_lazy; Re.Chr Re.backtick].

(** The two nested loops of strategy 2: the first match, over the patterns
    in order, whose stripped text opens an object or an array. *)
Fixpoint first_json_like (ms : list string) : option string :=
  match ms with
  | [] => None
  | m :: ms' =>
      let m := Py.strip m in
      if Py.startswith m "{" || Py.startswith m "[" then Some m
      else first_json_like ms'
  end.

Fixpoint first_in_patterns (patterns : list Re.regex) (text : string)
  : option string :=
  match patterns with
  | [] => None
  | p :: ps =>
      match first_json_like (Re.findall1 p text) with
      | Some m => Some m
      | None => first_in_patterns ps text
      end
  end.

(** [text[a:b+1]] between the first [open] and the last [close]. *)
Definition between (open close : ascii) (text : string) : option string :=
  let l := Py.chars text in
  let a := Py.find_l open l in
  let b := Py.rfind_l close l in
  if negb (a =? -1)%Z && (a <? b)%Z
  then Some (Py.of_chars (Py.slice_l a (b + 1) l))
  else None.

Definition extract_json_from_text (text : string) : option string :=
  if negb (Py.nonempty text) then None
  else
    let text := Py.strip text in
    if Py.startswith text "{" && Py.endswith text "}" then Some text
    else if Py.startswith text "[" && Py.endswith text "]" then Some text
    else
      match first_in_patterns [fence_json; fence_plain; inline_code] text with
      | Some m => Some m
      | None =>
          match between "{" "}" text with
          | Some t => Some t
          | None => between "[" "]" text
          end
      end.

Definition control_chars : Re.regex :=
  Re.Cls false [Re.CRange (ascii_of_N 0) (ascii_of_N 31);
                Re.CRange (ascii_of_N 127) (ascii_of_N 159)].
Definition comma_before (close : ascii) : Re.regex :=
  Re.seq [Re.Chr ","; Re.ws; Re.Chr close].
Definition bare_key : Re.regex :=
  Re.seq [Re.Group 1 (Re.Alt (Re.Chr "{") (Re.Chr ","));
          Re.ws;
          Re.Group 2
            (Re.Cat (Re.Cls false [Re.CRange "a" "z"; Re.CRange "A" "Z"; Re.CChar "_"])
                    (Re.Star true
                       (Re.Cls false [Re.CRange "a" "z"; Re.CRange "A" "Z";
                                      Re.CRange "0" "9"; Re.CChar "_"])));
          Re.ws; Re.Chr ":"].
Definition single_quoted_word_key : Re.regex :=
  Re.seq [Re.Chr Re.squote; Re.Plus (Re.Cls false [Re.CWord]); Re.Chr Re.squote;
          Re.Chr ":"].
Definition single_quoted_key : Re.regex :=
  Re.seq [Re.Chr Re.squote; Re.Group 1 (Re.Plus (Re.Cls true [Re.CChar Re.squote]));
          Re.Chr Re.squote; Re.Chr ":"].

Definition dq : string := String Re.dquote "".

Definition fix_common_json_errors (json_str : string) : string :=
  if negb (Py.nonempty json_str) then json_str
  else
    let json_str := Re.sub control_chars [Re.RText " "] json_str in
    let json_str := Re.sub (comma_before "}") [Re.RText "}"] json_str in
    let json_str := Re.sub (comma_before "]") [Re.RText "]"] json_str in
    let json_str :=
      Re.sub bare_key [Re.RRef 1; Re.RText dq; Re.RRef 2; Re.RText (dq +:+ ":")]
        json_str in
    if bool_decide (is_Some (Re.search single_quoted_word_key json_str))
    then Re.sub single_quoted_key [Re.RText dq; Re.RRef 1; Re.RText (dq +:+ ":")]
           json_str
    else json_str.

(** The scan of [repair_truncated_json]: the pair [(in_string, escaped)]
    after one more character. *)
Definition scan_step (st : bool * bool) (c : ascii) : bool * bool :=
  let (in_string, escaped) := st in
  if escaped then (in_string, false)
  else if Ascii.eqb c Re.backslash then (in_string, true)
  else if Ascii.eqb c Re.dquote then (negb in_string, escaped)
  else (in_string, escaped).

Definition in_string_at_end (json_str : string) : bool :=
  fst (fold_left scan_step (Py.chars json_str) (false, false)).

Definition trailing_comma : Re.regex := Re.seq [Re.Chr ","; Re.ws; Re.Eos].

Definition repair_truncated_json (json_str : string) : string :=
  if negb (Py.nonempty json_str) then json_str
  else
    let open_braces := (Py.count json_str "{" - Py.count json_str "}")%Z in
    let open_brackets := (Py.count json_str "[" - Py.count json_str "]")%Z in
    let json_str := if in_string_at_end json_str then json_str +:+ dq else json_str in
    let json_str := Re.sub trailing_comma [] json_str in
    let json_str := json_str +:+ Py.of_chars (Py.times "]" open_brackets) in
    let json_str := json_str +:+ Py.of_chars (Py.times "}" open_braces) in
    json_str.

(** *** Rung 5: the patterns of the complete records *)

Definition comma : Re.regex := Re.seq [Re.ws; Re.Chr ","; Re.ws].

Definition story_pattern : Re.regex :=
  Re.seq [Re.Chr "{"; Re.ws; Re.field "id" 1 Re.not_quote_plus; comma;
          Re.field "title" 2 Re.not_quote_plus; comma;
          Re.field "description" 3 (Re.escaped_body false); comma;
          Re.field "priority" 4 Re.not_quote_plus; Re.ws; Re.Chr "}"].

Definition summary_pattern : Re.regex :=
  Re.field "summary" 1 (Re.escaped_body false).

Definition unescape (pairs : list (string * string)) (s : string) : string :=
  fold_left (λ acc p, Py.replace acc (fst p) (snd p)) pairs s.

Definition esc_quote : string * string := (String Re.backslash dq, dq).
Definition esc_n : string * string :=
  (String Re.backslash "n", String Re.newline "").
Definition esc_t : string * string :=
  (String Re.backslash "t", String (ascii_of_N 9) "").
Definition esc_backslash : string * string :=
  (String Re.backslash (String Re.backslash ""), String Re.backslash "").

Definition group_or (m : option Re.mobj) (i : nat) (dflt : string) : string :=
  match m with Some m => Re.group m i | None => dflt end.

Definition story_of_match (m : Re.mobj) : UserStory.t :=
  UserStory.new (Re.group m 1) (Re.group m 2)
    (unescape [esc_quote; esc_n] (Re.group m 3)) (Re.group m 4).

Definition _recover_user_stories (text : string) : option UserStoriesOutput.t :=
  let stories := map story_of_match (Re.finditer story_pattern text) in
  match stories with
  | [] => None
  | _ =>
      let summary := group_or (Re.search summary_pattern text) 1 "" in
      Some (UserStoriesOutput.mk stories summary)
  end.

(** an optional run of characters other than the closing bracket *)
Definition upto_bracket : Re.regex :=
  Re.Alt (Re.Star true (Re.Cls true [Re.CChar "]"])) Re.Eps.

Definition quoted_item : Re.regex :=
  Re.seq [Re.Chr Re.dquote; Re.Group 1 Re.not_quote_plus; Re.Chr Re.dquote].

Definition model_pattern : Re.regex :=
  Re.seq [Re.Chr "{"; Re.ws; Re.field "name" 1 Re.not_quote_plus; comma;
          Re.quoted "fields"; Re.ws; Re.Chr ":"; Re.ws; Re.Chr "[";
          Re.Group 2 upto_bracket; Re.Chr "]"; Re.ws; Re.Chr "}"].

Definition endpoint_pattern : Re.regex :=
  Re.seq [Re.Chr "{"; Re.ws; Re.field "method" 1 Re.not_quote_plus; comma;
          Re.field "path" 2 Re.not_quote_plus; comma;
          Re.field "description" 3 (Re.escaped_body false); Re.ws; Re.Chr "}"].

Definition notes_pattern : Re.regex :=
  Re.field "architecture_notes" 1 (Re.escaped_body false).

Definition model_of_match (m : Re.mobj) : DataModel.t :=
  DataModel.mk (Re.group m 1) (Re.findall1 quoted_item (Re.group m 2)).

Definition endpoint_of_match (m : Re.mobj) : APIEndpoint.t :=
  APIEndpoint.new (Re.group m 1) (Re.group m 2)
    (unescape [esc_quote] (Re.group m 3)).

Definition default_model : DataModel.t :=
  DataModel.mk "Item" ["id: int"; "name: str"].
Definition default_endpoint : APIEndpoint.t :=
  APIEndpoint.new "GET" "/api/items" "Get all items".

Definition _recover_system_design (text : string) : option SystemDesign.t :=
  let models := map model_of_match (Re.finditer model_pattern text) in
  let endpoints := map endpoint_of_match (Re.finditer endpoint_pattern text) in
  match models, endpoints with
  | [], [] => None
  | _, _ =>
      let notes := group_or (Re.search notes_pattern text) 1 "" in
      Some (SystemDesign.mk
              (match models with [] => [default_model] | _ => models end)
              (match endpoints with [] => [default_endpoint] | _ => endpoints end)
              notes)
  end.

(** The file patterns are compiled with [re.DOTALL]. *)
Definition file_pattern : Re.regex :=
  Re.seq [Re.Chr "{"; Re.ws; Re.field "filename" 1 Re.not_quote_plus; comma;
          Re.field "content" 2 (Re.escaped_body true); comma;
          Re.field "description" 3 (Re.escaped_body true); Re.ws; Re.Chr "}"].

Definition file_pattern_simple : Re.regex :=
  Re.seq [Re.Chr "{"; Re.ws; Re.field "filename" 1 Re.not_quote_plus; comma;
          Re.field "content" 2 (Re.escaped_body true)].

Definition setup_pattern : Re.regex :=
  Re.field "setup_instructions" 1 (Re.escaped_body false).

Definition unescape_code : string → string :=
  unescape [esc_n; esc_t; esc_quote; esc_backslash].

Definition file_of_match (m : Re.mobj) : CodeFile.t :=
  CodeFile.mk (Re.group m 1) (unescape_code (Re.group m 2)) (Re.group m 3).

Definition file_of_match_simple (m : Re.mobj) : CodeFile.t :=
  CodeFile.mk (Re.group m 1) (unescape_code (Re.group m 2)) "".

Definition recovered_files (text : string) : list CodeFile.t :=
  match map file_of_match (Re.finditer file_pattern text) with
  | [] => map file_of_match_simple (Re.finditer file_pattern_simple text)
  | files => files
  end.

Definition has_file (word : string) (files : list CodeFile.t) : bool :=
  existsb (λ f, Py.contains word (Py.lower (CodeFile.filename f))) files.

Definition _recover_backend_code (text : string) : option BackendCode.t :=
  let files := recovered_files text in
  match files with
  | [] => None
  | _ =>
      if has_file "main" files then
        let setup := group_or (Re.search setup_pattern text) 1
                       "pip install fastapi uvicorn && uvicorn main:app --reload" in
        Some (BackendCode.mk files setup)
      else None
  end.

Definition _recover_frontend_code (text : string) : option FrontendCode.t :=
  let files := recovered_files text in
  match files with
  | [] => None
  | _ =>
      if has_file "index" files then
        let setup := group_or (Re.search setup_pattern text) 1
                       "Open index.html in browser" in
        Some (FrontendCode.mk files setup)
      else None
  end.

Definition tc_pattern_simple : Re.regex :=
  Re.seq [Re.Chr "{"; Re.ws; Re.field "id" 1 Re.not_quote_plus; comma;
          Re.field "description" 2 (Re.escaped_body false); comma;
          Re.field "status" 3 Re.not_quote_plus].

Definition tc_pattern : Re.regex :=
  Re.seq [tc_pattern_simple; comma;
          Re.field "notes" 4 (Re.escaped_body false); comma;
          Re.field "responsible_agent" 5 (Re.Star true (Re.Cls true [Re.CChar Re.dquote]));
          Re.ws; Re.Chr "}"].

Definition overall_status_pattern : Re.regex :=
  Re.field "overall_status" 1 Re.not_quote_plus.

Definition recommendations_pattern : Re.regex :=
  Re.seq [Re.quoted "recommendations"; Re.ws; Re.Chr ":"; Re.ws; Re.Chr "[";
          Re.Group 1 upto_bracket; Re.Chr "]"].

Definition test_case_of_match (m : Re.mobj) : TestCase.t :=
  TestCase.new (Re.group m 1) (unescape [esc_quote] (Re.group m 2))
    (Re.group m 3) (unescape [esc_quote] (Re.group m 4)) (Re.group m 5).

Definition test_case_of_match_simple (m : Re.mobj) : TestCase.t :=
  TestCase.new (Re.group m 1) (unescape [esc_quote] (Re.group m 2))
    (Re.group m 3) "" "".

Definition _recover_test_report (text : string) : option TestReport.t :=
  let test_cases :=
    match map test_case_of_match (Re.finditer tc_pattern text) with
    | [] => map test_case_of_match_simple (Re.finditer tc_pattern_simple text)
    | tcs => tcs
    end in
  match test_cases with
  | [] => None
  | _ =>
      let overall_status :=
        group_or (Re.search overall_status_pattern text) 1 "needs_review" in
      let summary := group_or (Re.search summary_pattern text) 1 "" in
      let recommendations :=
        match Re.search recommendations_pattern text with
        | Some m => Re.findall1 quoted_item (Re.group m 1)
        | None => []
        end in
      Some (TestReport.new overall_status test_cases summary recommendations
              TestReport.default_issues_by_agent)
  end.

Definition recover_truncated_output (text : string) (c : model_class)
  : option model :=
  match c with
  | ClsUserStoriesOutput => MUserStoriesOutput <$> _recover_user_stories text
  | ClsSystemDesign => MSystemDesign <$> _recover_system_design text
  | ClsBackendCode => MBackendCode <$> _recover_backend_code text
  | ClsFrontendCode => MFrontendCode <$> _recover_frontend_code text
  | ClsTestReport => MTestReport <$> _recover_test_report text
  end.

(** The second component of what [safe_parse_json] returns: a validated
    model, the decoded document, or the error message. *)
Inductive parsed :=
| PModel (m : model)
| PData (data : json)
| PError (msg : string).

Section Ladder.
(** [json.loads]; [None] stands for any exception it raises. *)
Variable json_loads : string → option json.

(** The body of the [try] blocks of steps 2 to 4: decode, then validate
    against the model class when there is one. *)
Definition try_load (json_str : string) (model_class : option model_class)
  : option parsed :=
  match json_loads json_str with
  | Some data =>
      match model_class with
      | Some c => PModel <$> model_validate c data
      | None => Some (PData data)
      end
  | None => None
  end.

Definition safe_parse_json (text : string) (model_class : option model_class)
  : bool * parsed :=
  if negb (Py.nonempty text) then (false, PError "Empty input")
  else
    match extract_json_from_text text with
    | None => (false, PError "No JSON found in text")
    | Some json_str =>
        if negb (Py.nonempty json_str) then (false, PError "No JSON found in text")
        else
          match try_load json_str model_class with
          | Some r => (true, r)
          | None =>
              let fixed_json := fix_common_json_errors json_str in
              match try_load fixed_json model_class with
              | Some r => (true, r)
              | None =>
                  let repaired_json := repair_truncated_json fixed_json in
                  match try_load repaired_json model_class with
                  | Some r => (true, r)
                  | None =>
                      match model_class with
                      | Some c =>
                          match recover_truncated_output text c with
                          | Some recovered => (true, PModel recovered)
                          | None => (false, PError "Failed to parse JSON after all attempts")
                          end
                      | None => (false, PError "Failed to parse JSON after all attempts")
                      end
                  end
              end
          end
    end.
End Ladder.

(** Every rung of the ladder fails on [text]: a candidate document is
    found, it does not decode as it is, nor after the common fixes, nor
    after the truncation repair, and the salvage for the model class, when
    there is a class, finds nothing. *)
Definition ladder_exhausted (json_loads : string → option json) (text : string)
    (model_class : option model_class) : Prop :=
  ∃ json_str,
    Py.nonempty text = true ∧
    extract_json_from_text text = Some json_str ∧
    try_load json_loads json_str model_class = None ∧
    try_load json_loads (fix_common_json_errors json_str) model_class = None ∧
    try_load json_loads
      (repair_truncated_json (fix_common_json_errors json_str)) model_class = None ∧
    match model_class with
    | Some c => recover_truncated_output text c = None
    | None => True
    end.

(** ** [model_dump]

    The dict a model dumps to: its fields, in the order of declaration. *)

Module Dump.
Definition strs (l : list string) : json := JArr (map JStr l).

Definition user_story (x : UserStory.t) : json :=
  JObj [("id", JStr (UserStory.id x)); ("title", JStr (UserStory.title x));
        ("description", JStr (UserStory.description x));
        ("priority", JStr (UserStory.priority x))].

Definition user_stories_output (x : UserStoriesOutput.t) : json :=
  JObj [("stories", JArr (map user_story (UserStoriesOutput.stories x)));
        ("summary", JStr (UserStoriesOutput.summary x))].

Definition api_endpoint (x : APIEndpoint.t) : json :=
  JObj [("method", JStr (APIEndpoint.method x)); ("path", JStr (APIEndpoint.path x));
        ("description", JStr (APIEndpoint.description x))].

Definition data_model (x : DataModel.t) : json :=
  JObj [("name", JStr (DataModel.name x)); ("fields", strs (DataModel.fields x))].

Definition system_design (x : SystemDesign.t) : json :=
  JObj [("models", JArr (map data_model (SystemDesign.models x)));
        ("endpoints", JArr (map api_endpoint (SystemDesign.endpoints x)));
        ("architecture_notes", JStr (SystemDesign.architecture_notes x))].

Definition code_file (x : CodeFile.t) : json :=
  JObj [("filename", JStr (CodeFile.filename x)); ("content", JStr (CodeFile.content x));
        ("description", JStr (CodeFile.description x))].

Definition backend_code (x : BackendCode.t) : json :=
  JObj [("files", JArr (map code_file (BackendCode.files x)));
        ("setup_instructions", JStr (BackendCode.setup_instructions x))].

Definition frontend_code (x : FrontendCode.t) : json :=
  JObj [("files", JArr (map code_file (FrontendCode.files x)));
        ("setup_instructions", JStr (FrontendCode.setup_instructions x))].

Definition test_case (x : TestCase.t) : json :=
  JObj [("id", JStr (TestCase.id x)); ("description", JStr (TestCase.description x));
        ("status", JStr (TestCase.status x)); ("notes", JStr (TestCase.notes x));
        ("responsible_agent", JStr (TestCase.responsible_agent x))].

Definition test_report (x : TestReport.t) : json :=
  JObj [("overall_status", JStr (TestReport.overall_status x));
        ("test_cases", JArr (map test_case (TestReport.test_cases x)));
        ("summary", JStr (TestReport.summary x));
        ("recommendations", strs (TestReport.recommendations x));
        ("issues_by_agent",
         JObj (map (λ kv, (fst kv, strs (snd kv))) (TestReport.issues_by_agent x)))].
End Dump.

(** [m.model_dump()] *)
Definition model_dump (m : model) : json :=
  match m with
  | MUserStoriesOutput x => Dump.user_stories_output x
  | MSystemDesign x => Dump.system_design x
  | MBackendCode x => Dump.backend_code x
  | MFrontendCode x => Dump.frontend_code x
  | MTestReport x => Dump.test_report x
  end.

(** ** Guardrail functions *)

(** What a guardrail is called with: a result that has the attribute [raw],
    or any other value, read through [str]. *)
Inductive guard_result :=
| WithRaw (raw : string)
| Other (str : string).

(** [result.raw if hasattr(result, 'raw') else str(result)] *)
Definition raw_of (result : guard_result) : string :=
  match result with WithRaw raw => raw | Other str => str end.

(** [x or 'unknown'] *)
Definition or_unknown (x : string) : string :=
  if Py.nonempty x then x else "unknown".

(** [f"{parsed}"] for what [safe_parse_json] pairs with [False]. *)
Definition error_text (p : parsed) : string :=
  match p with PError msg => msg | _ => "" end.

(** [type(x).__name__] *)
Definition type_name (p : parsed) : string :=
  match p with
  | PModel (MUserStoriesOutput _) => "UserStoriesOutput"
  | PModel (MSystemDesign _) => "SystemDesign"
  | PModel (MBackendCode _) => "BackendCode"
  | PModel (MFrontendCode _) => "FrontendCode"
  | PModel (MTestReport _) => "TestReport"
  | PData JNull => "NoneType"
  | PData (JBool _) => "bool"
  | PData (JInt _) => "int"
  | PData (JFloat _) => "float"
  | PData (JStr _) => "str"
  | PData (JArr _) => "list"
  | PData (JObj _) => "dict"
  | PError _ => "str"
  end.

(** The [except] branch of a guardrail, entered with the [AttributeError]
    of reading the field [attr] of a value that has none. *)
Definition validation_error (p : parsed) (attr tail : string) : bool * string :=
  (false, "Validation error: '" +:+ type_name p +:+ "' object has no attribute '"
          +:+ attr +:+ "'. " +:+ tail).

Definition story_incomplete (story : UserStory.t) : bool :=
  negb (Py.nonempty (UserStory.id story)) || negb (Py.nonempty (UserStory.title story))
  || negb (Py.nonempty (UserStory.description story)).

Definition model_incomplete (model : DataModel.t) : bool :=
  negb (Py.nonempty (DataModel.name model))
  || match DataModel.fields model with [] => true | _ => false end.

Definition endpoint_incomplete (endpoint : APIEndpoint.t) : bool :=
  negb (Py.nonempty (APIEndpoint.method endpoint))
  || negb (Py.nonempty (APIEndpoint.path endpoint))
  || negb (Py.nonempty (APIEndpoint.description endpoint)).

Definition file_incomplete (file : CodeFile.t) : bool :=
  negb (Py.nonempty (CodeFile.filename file)) || negb (Py.nonempty (CodeFile.content file)).

Definition case_incomplete (tc : TestCase.t) : bool :=
  negb (Py.nonempty (TestCase.id tc)) || negb (Py.nonempty (TestCase.description tc))
  || negb (Py.nonempty (TestCase.status tc)).

(** [tc.status == 'fail'] *)
Definition status_is_fail (tc : TestCase.t) : bool :=
  String.eqb (TestCase.status tc) "fail".

Definition failed_without_agent (tc : TestCase.t) : bool :=
  status_is_fail tc && negb (Py.nonempty (TestCase.responsible_agent tc)).

Definition agent_invalid (tc : TestCase.t) : bool :=
  Py.nonempty (TestCase.responsible_agent tc)
  && negb (Py.mem (TestCase.responsible_agent tc)
             ["product_owner"; "architect"; "backend_engineer"; "frontend_engineer"; ""]).

Definition invalid_agent_message (tc : TestCase.t) : string :=
  "Test case " +:+ TestCase.id tc +:+ " has invalid responsible_agent: "
  +:+ TestCase.responsible_agent tc
  +:+ ". Must be one of: product_owner, architect, backend_engineer, frontend_engineer.".

Section Guardrails.
Variable json_loads : string → option json.
(** [parsed.model_dump_json()] *)
Variable model_dump_json : model → string.

Definition validate_user_stories (result : guard_result) : bool * string :=
  let raw := raw_of result in
  match safe_parse_json json_loads raw (Some ClsUserStoriesOutput) with
  | (false, parsed) =>
      (false, "Invalid JSON format: " +:+ error_text parsed
              +:+ ". Please return valid JSON matching the schema.")
  | (true, PModel (MUserStoriesOutput parsed)) =>
      match UserStoriesOutput.stories parsed with
      | [] => (false, "No user stories found. Please include at least 1 user story.")
      | stories =>
          match find story_incomplete stories with
          | Some story =>
              (false, "User story " +:+ or_unknown (UserStory.id story)
                      +:+ " is missing required fields (id, title, description).")
          | None => (true, model_dump_json (MUserStoriesOutput parsed))
          end
      end
  | (true, parsed) => validation_error parsed "stories" "Please return valid JSON."
  end.

Definition validate_system_design (result : guard_result) : bool * string :=
  let raw := raw_of result in
  match safe_parse_json json_loads raw (Some ClsSystemDesign) with
  | (false, parsed) =>
      (false, "Invalid JSON format: " +:+ error_text parsed
              +:+ ". Please return valid JSON matching the schema.")
  | (true, PModel (MSystemDesign parsed)) =>
      match SystemDesign.models parsed, SystemDesign.endpoints parsed with
      | [], _ => (false, "No data models defined. Please include at least 1 data model.")
      | _, [] => (false, "No API endpoints defined. Please include at least 1 endpoint.")
      | models, endpoints =>
          match find model_incomplete models with
          | Some model =>
              (false, "Data model " +:+ or_unknown (DataModel.name model)
                      +:+ " is missing required fields (name, fields).")
          | None =>
              match find endpoint_incomplete endpoints with
              | Some endpoint =>
                  (false, "Endpoint " +:+ or_unknown (APIEndpoint.path endpoint)
                          +:+ " is missing required fields (method, path, description).")
              | None => (true, model_dump_json (MSystemDesign parsed))
              end
          end
      end
  | (true, parsed) => validation_error parsed "models" "Please return valid JSON."
  end.

Definition validate_backend_code (result : guard_result) : bool * string :=
  let raw := raw_of result in
  match safe_parse_json json_loads raw (Some ClsBackendCode) with
  | (false, parsed) =>
      (false, "Invalid JSON format: " +:+ error_text parsed
              +:+ ". Please return valid JSON with smaller files (under 50 lines each).")
  | (true, PModel (MBackendCode parsed)) =>
      match BackendCode.files parsed with
      | [] => (false, "No code files provided. Please include at least main.py.")
      | files =>
          if negb (has_file "main" files)
          then (false, "Missing main.py file. Please include a main.py file.")
          else
            match find file_incomplete files with
            | Some file =>
                (false, "Code file " +:+ or_unknown (CodeFile.filename file)
                        +:+ " is missing required fields (filename, content).")
            | None => (true, model_dump_json (MBackendCode parsed))
            end
      end
  | (true, parsed) =>
      validation_error parsed "files" "Please return valid JSON with smaller code files."
  end.

Definition validate_frontend_code (result : guard_result) : bool * string :=
  let raw := raw_of result in
  match safe_parse_json json_loads raw (Some ClsFrontendCode) with
  | (false, parsed) =>
      (false, "Invalid JSON format: " +:+ error_text parsed
              +:+ ". Please return valid JSON with smaller files.")
  | (true, PModel (MFrontendCode parsed)) =>
      match FrontendCode.files parsed with
      | [] => (false, "No frontend files provided. Please include at least index.html.")
      | files =>
          if negb (has_file "index" files)
          then (false, "Missing index.html file. Please include an index.html file.")
          else
            match find file_incomplete files with
            | Some file =>
                (false, "Frontend file " +:+ or_unknown (CodeFile.filename file)
                        +:+ " is missing required fields (filename, content).")
            | None => (true, model_dump_json (MFrontendCode parsed))
            end
      end
  | (true, parsed) =>
      validation_error parsed "files" "Please return valid JSON with smaller files."
  end.

Definition validate_test_report (result : guard_result) : bool * string :=
  let raw := raw_of result in
  match safe_parse_json json_loads raw (Some ClsTestReport) with
  | (false, parsed) =>
      (false, "Invalid JSON format: " +:+ error_text parsed
              +:+ ". Please return valid JSON matching the schema.")
  | (true, PModel (MTestReport parsed)) =>
      let test_cases := TestReport.test_cases parsed in
      match test_cases with
      | [] => (false, "No test cases provided. Please include at least 1 test case.")
      | _ =>
          match find case_incomplete test_cases with
          | Some tc =>
              (false, "Test case " +:+ or_unknown (TestCase.id tc)
                      +:+ " is missing required fields (id, description, status).")
          | None =>
              match List.filter failed_without_agent test_cases with
              | _ :: _ as failed =>
                  (false, "Failed test cases missing responsible_agent: "
                          +:+ Py.join ", " (map TestCase.id failed)
                          +:+ ". Please specify which agent (product_owner, architect, backend_engineer, frontend_engineer) is responsible for each failed test.")
              | [] =>
                  match find agent_invalid test_cases with
                  | Some tc => (false, invalid_agent_message tc)
                  | None =>
                      let failed_tests := List.filter status_is_fail test_cases in
                      if String.eqb (TestReport.overall_status parsed) "pass"
                         && match failed_tests with [] => false | _ => true end
                      then
                        (false, "overall_status is 'pass' but there are "
                                +:+ Py.str_of_Z (Z.of_nat (length failed_tests))
                                +:+ " failed test cases. Please set overall_status to 'fail' or fix the test case statuses.")
                      else (true, model_dump_json (MTestReport parsed))
                  end
              end
          end
      end
  | (true, parsed) => validation_error parsed "test_cases" "Please return valid JSON."
  end.
End Guardrails.

End Schemas.
Export Schemas.

(* ================================================================== *)
(** * [crew.py]: the planner and the context manager *)
(* ================================================================== *)

Module Crew.

Definition AGENT_PRODUCT_OWNER : string := "product_owner".
Definition AGENT_ARCHITECT : string := "architect".
Definition AGENT_BACKEND_ENGINEER : string := "backend_engineer".
Definition AGENT_FRONTEND_ENGINEER : string := "frontend_engineer".
Definition AGENT_QA_ENGINEER : string := "qa_engineer".
Definition AGENT_MANAGER : string := "manager".

(** If an agent re-runs, the agents downstream must re-run too. *)
Definition AGENT_DEPENDENCIES : gmap string (list string) :=
  {[ AGENT_PRODUCT_OWNER :=
       [AGENT_ARCHITECT; AGENT_BACKEND_ENGINEER; AGENT_FRONTEND_ENGINEER];
     AGENT_ARCHITECT := [AGENT_BACKEND_ENGINEER; AGENT_FRONTEND_ENGINEER];
     AGENT_BACKEND_ENGINEER := [AGENT_FRONTEND_ENGINEER];
     AGENT_FRONTEND_ENGINEER := [] ]}.

Definition execution_order : list string :=
  [AGENT_PRODUCT_OWNER; AGENT_ARCHITECT; AGENT_BACKEND_ENGINEER;
   AGENT_FRONTEND_ENGINEER].

(** The set built by the first half of [_add_agent_dependencies]. *)
Definition with_downstream (agents : list string) : gset string :=
  foldl (λ agents_to_rerun agent,
           match AGENT_DEPENDENCIES !! agent with
           | Some deps => agents_to_rerun ∪ list_to_set deps
           | None => agents_to_rerun
           end)
        (list_to_set agents) agents.

Definition _add_agent_dependencies (agents : list string) : list string :=
  let agents_to_rerun := with_downstream agents in
  filter (λ agent, agent ∈ agents_to_rerun) execution_order.

(** Exceptions, by class. *)
Inductive exn :=
| AttributeError
| TypeError
| CrewError.        (** whatever the generator call raises *)

Inductive res (A : Type) :=
| Ret (a : A)
| Raise (e : exn).
Arguments Ret {A} a.
Arguments Raise {A} e.

(** [should_continue], [reasoning] and [iteration_goal] hold whatever the
    decoded proposal holds on the primary path. *)
Record ManagerDecision := mkDecision
  { should_continue : json;
    agents_to_rerun : list string;
    reasoning : json;
    iteration_goal : json }.

(** [ManagerDecision()] *)
Definition new_decision : ManagerDecision :=
  mkDecision (JBool false) [] (JStr "") (JStr "").

(** The dict a stage hands on: [success], [data], [raw], [error].  The data
    of a stage is the dump of the model of its schema, kept as the record. *)
Record StageResult (D : Type) := mkResult
  { success : bool; data : option D; raw : string; error : option string }.
Arguments mkResult {D} _ _ _ _.
Arguments success {D} _.
Arguments data {D} _.
Arguments raw {D} _.
Arguments error {D} _.

Record ContextManager := mkContext
  { vibe_prompt : string;
    user_stories : option UserStoriesOutput.t;
    system_design : option SystemDesign.t;
    backend_code : option BackendCode.t;
    frontend_code : option FrontendCode.t;
    test_report : option TestReport.t }.

(** [ContextManager()] *)
Definition new_context : ContextManager :=
  mkContext "" None None None None None.

Definition update_user_stories (self : ContextManager)
    (data : StageResult UserStoriesOutput.t) : ContextManager :=
  if success data then
    mkContext (vibe_prompt self) (Crew.data data) (system_design self)
      (backend_code self) (frontend_code self) (test_report self)
  else self.

Definition update_system_design (self : ContextManager)
    (data : StageResult SystemDesign.t) : ContextManager :=
  if success data then
    mkContext (vibe_prompt self) (user_stories self) (Crew.data data)
      (backend_code self) (frontend_code self) (test_report self)
  else self.

Definition update_backend_code (self : ContextManager)
    (data : StageResult BackendCode.t) : ContextManager :=
  if success data then
    mkContext (vibe_prompt self) (user_stories self) (system_design self)
      (Crew.data data) (frontend_code self) (test_report self)
  else self.

Definition update_frontend_code (self : ContextManager)
    (data : StageResult FrontendCode.t) : ContextManager :=
  if success data then
    mkContext (vibe_prompt self) (user_stories self) (system_design self)
      (backend_code self) (Crew.data data) (test_report self)
  else self.

Definition update_test_report (self : ContextManager)
    (data : StageResult TestReport.t) : ContextManager :=
  if success data then
    mkContext (vibe_prompt self) (user_stories self) (system_design self)
      (backend_code self) (frontend_code self) (Crew.data data)
  else self.

(** One call of an update method of the context manager, with its
    argument; a run calls them in any order, stage after stage and
    iteration after iteration. *)
Inductive update :=
| UserStoriesUpdate (data : StageResult UserStoriesOutput.t)
| SystemDesignUpdate (data : StageResult SystemDesign.t)
| BackendCodeUpdate (data : StageResult BackendCode.t)
| FrontendCodeUpdate (data : StageResult FrontendCode.t)
| TestReportUpdate (data : StageResult TestReport.t).

Definition apply_update (self : ContextManager) (u : update) : ContextManager :=
  match u with
  | UserStoriesUpdate data => update_user_stories self data
  | SystemDesignUpdate data => update_system_design self data
  | BackendCodeUpdate data => update_backend_code self data
  | FrontendCodeUpdate data => update_frontend_code self data
  | TestReportUpdate data => update_test_report self data
  end.

Definition nl : string := String Re.newline "".

(** [x if x else y] on strings. *)
Definition or_else (x y : string) : string := if Py.nonempty x then x else y.

Definition _format_user_stories_summary (self : ContextManager) : string :=
  match user_stories self with
  | None => "No user stories available."
  | Some us =>
      let summary_parts :=
        ["## User Stories:"] ++
        map (λ story,
               "- [" +:+ UserStory.id story +:+ "] (" +:+ UserStory.priority story
               +:+ ") " +:+ UserStory.title story +:+ ": "
               +:+ UserStory.description story)
            (UserStoriesOutput.stories us) ++
        (if Py.nonempty (UserStoriesOutput.summary us)
         then [nl +:+ "Summary: " +:+ UserStoriesOutput.summary us] else []) in
      Py.join nl summary_parts
  end.

Definition _format_system_design_summary (self : ContextManager) : string :=
  match system_design self with
  | None => "No system design available."
  | Some sd =>
      let models := SystemDesign.models sd in
      let endpoints := SystemDesign.endpoints sd in
      let summary_parts :=
        ["## System Design:"] ++
        (match models with
         | [] => []
         | _ =>
             [nl +:+ "### Data Models:"] ++
             map (λ model,
                    let fields := DataModel.fields model in
                    let fields_str :=
                      match fields with [] => "no fields" | _ => Py.join ", " fields end in
                    "- " +:+ DataModel.name model +:+ ": " +:+ fields_str)
                 models
         end) ++
        (match endpoints with
         | [] => []
         | _ =>
             [nl +:+ "### API Endpoints:"] ++
             map (λ endpoint,
                    "- " +:+ APIEndpoint.method endpoint +:+ " "
                    +:+ APIEndpoint.path endpoint +:+ ": "
                    +:+ APIEndpoint.description endpoint)
                 endpoints
         end) ++
        (if Py.nonempty (SystemDesign.architecture_notes sd)
         then [nl +:+ "Notes: " +:+ SystemDesign.architecture_notes sd] else []) in
      Py.join nl summary_parts
  end.

Definition decorator_lines (file_info : CodeFile.t) : list string :=
  let filename := CodeFile.filename file_info in
  if Py.contains "main" (Py.lower filename) || Py.contains "route" (Py.lower filename)
  then
    map (λ line, "- " +:+ line)
      (filter (λ line, Py.startswith line "@app." || Py.startswith line "@router." = true)
         (map Py.strip (Py.split (CodeFile.content file_info) Re.newline)))
  else [].

Definition _format_backend_endpoints_summary (self : ContextManager) : string :=
  match backend_code self with
  | None => "No backend endpoints available."
  | Some bc =>
      let files := BackendCode.files bc in
      let setup := BackendCode.setup_instructions bc in
      let summary_parts :=
        ["## Backend API Endpoints:"] ++ concat (map decorator_lines files) ++
        (if Py.nonempty setup then [nl +:+ "Setup: " +:+ setup] else []) in
      let summary_parts :=
        if Nat.eqb (length summary_parts) 1
        then summary_parts ++ [nl +:+ "Backend files:"] ++
             map (λ file_info, "- " +:+ CodeFile.filename file_info +:+ ": "
                               +:+ CodeFile.description file_info) files
        else summary_parts in
      Py.join nl summary_parts
  end.

Definition format_files (files : list CodeFile.t) : list string :=
  concat (map (λ file_info,
                 [nl +:+ "### " +:+ CodeFile.filename file_info] ++
                 (if Py.nonempty (CodeFile.description file_info)
                  then ["Description: " +:+ CodeFile.description file_info] else []) ++
                 ["```" +:+ nl +:+ CodeFile.content file_info +:+ nl +:+ "```"])
              files).

Definition _format_backend_code_full (self : ContextManager) : string :=
  match backend_code self with
  | None => "No backend code available."
  | Some bc =>
      let setup := BackendCode.setup_instructions bc in
      Py.join nl
        (["## Backend Code:"] ++ format_files (BackendCode.files bc) ++
         (if Py.nonempty setup then [nl +:+ "Setup: " +:+ setup] else []))
  end.

Definition _format_frontend_code_full (self : ContextManager) : string :=
  match frontend_code self with
  | None => "No frontend code available."
  | Some fc =>
      let setup := FrontendCode.setup_instructions fc in
      Py.join nl
        (["## Frontend Code:"] ++ format_files (FrontendCode.files fc) ++
         (if Py.nonempty setup then [nl +:+ "Setup: " +:+ setup] else []))
  end.

(** [d.get(key, [])] on [issues_by_agent]. *)
Fixpoint issues_of (agent_name : string) (d : list (string * list string))
  : list string :=
  match d with
  | [] => []
  | (k, v) :: d' => if String.eqb k agent_name then v else issues_of agent_name d'
  end.

Definition is_failed (tc : TestCase.t) : bool :=
  String.eqb (Py.lower (TestCase.status tc)) "fail".

Definition format_failed_case (tc : TestCase.t) : list string :=
  ["  - " +:+ TestCase.id tc +:+ ": " +:+ TestCase.description tc] ++
  (if Py.nonempty (TestCase.notes tc)
   then ["    Notes: " +:+ TestCase.notes tc] else []).

Definition format_recommendations (recommendations : list string) : list string :=
  match recommendations with
  | [] => []
  | _ => [nl +:+ "Recommendations:"] ++ map (λ rec, "  - " +:+ rec) recommendations
  end.

Definition _format_qa_feedback (self : ContextManager) (agent_name : string)
  : string :=
  match test_report self with
  | None => ""
  | Some tr =>
      let agent_issues := issues_of agent_name (TestReport.issues_by_agent tr) in
      let failed_tests :=
        List.filter (λ tc, is_failed tc &&
                           String.eqb (TestCase.responsible_agent tc) agent_name)
                    (TestReport.test_cases tr) in
      let feedback_parts :=
        (match agent_issues with
         | [] => []
         | _ => ["Issues found for your component:"] ++
                map (λ issue, "  - " +:+ issue) agent_issues
         end) ++
        (match failed_tests with
         | [] => []
         | _ => [nl +:+ "Failed test cases:"] ++
                concat (map format_failed_case failed_tests)
         end) ++
        format_recommendations (TestReport.recommendations tr) in
      Py.join nl feedback_parts
  end.

Definition _format_previous_output_summary (self : ContextManager)
    (agent_name : string) : string :=
  if String.eqb agent_name AGENT_PRODUCT_OWNER && bool_decide (is_Some (user_stories self))
  then nl +:+ "## Your Previous User Stories (to be updated):" +:+ nl
       +:+ _format_user_stories_summary self
  else if String.eqb agent_name AGENT_ARCHITECT && bool_decide (is_Some (system_design self))
  then nl +:+ "## Your Previous System Design (to be updated):" +:+ nl
       +:+ _format_system_design_summary self
  else
    match String.eqb agent_name AGENT_BACKEND_ENGINEER, backend_code self with
    | true, Some bc =>
        nl +:+ "## Your Previous Backend Files (to be updated): "
        +:+ Py.join ", " (map CodeFile.filename (BackendCode.files bc))
    | _, _ =>
        match String.eqb agent_name AGENT_FRONTEND_ENGINEER, frontend_code self with
        | true, Some fc =>
            nl +:+ "## Your Previous Frontend Files (to be updated): "
            +:+ Py.join ", " (map CodeFile.filename (FrontendCode.files fc))
        | _, _ => ""
        end
    end.

Definition count_status (st : string) (tcs : list TestCase.t) : Z :=
  Z.of_nat (length (List.filter (λ tc, String.eqb (Py.lower (TestCase.status tc)) st) tcs)).

Definition format_failed_for_manager (tc : TestCase.t) : list string :=
  ["  - [" +:+ TestCase.id tc +:+ "] " +:+ TestCase.description tc
   +:+ " (responsible: " +:+ TestCase.responsible_agent tc +:+ ")"] ++
  (if Py.nonempty (TestCase.notes tc)
   then ["    Notes: " +:+ TestCase.notes tc] else []).

Definition has_entries (issues : list string) : bool :=
  match issues with [] => false | _ => true end.

Definition _format_test_report_summary (self : ContextManager) : string :=
  match test_report self with
  | None => "No test report available."
  | Some tr =>
      let test_cases := TestReport.test_cases tr in
      let issues_by_agent := TestReport.issues_by_agent tr in
      let summary_parts :=
        ["## QA Test Report:"; "Overall Status: " +:+ TestReport.overall_status tr] ++
        (if Py.nonempty (TestReport.summary tr)
         then ["Summary: " +:+ TestReport.summary tr] else []) ++
        (match test_cases with
         | [] => []
         | _ =>
             [nl +:+ "Test Results: " +:+ Py.str_of_Z (count_status "pass" test_cases)
              +:+ " passed, " +:+ Py.str_of_Z (count_status "fail" test_cases)
              +:+ " failed, " +:+ Py.str_of_Z (Z.of_nat (length test_cases))
              +:+ " total"] ++
             match List.filter is_failed test_cases with
             | [] => []
             | failed_tests =>
                 [nl +:+ "Failed Tests:"] ++
                 concat (map format_failed_for_manager failed_tests)
             end
         end) ++
        (if existsb (λ kv, has_entries (snd kv)) issues_by_agent
         then [nl +:+ "Issues by Agent:"] ++
              concat (map (λ kv, if has_entries (snd kv)
                                 then ["  " +:+ fst kv +:+ ":"] ++
                                      map (λ issue, "    - " +:+ issue) (snd kv)
                                 else [])
                          issues_by_agent)
         else []) ++
        format_recommendations (TestReport.recommendations tr) in
      Py.join nl summary_parts
  end.

(** The part of a context every re-run adds: the previous output of the
    agent and the QA feedback for it. *)
Definition iteration_parts (self : ContextManager) (agent_name : string)
  : list string :=
  let prev_output := _format_previous_output_summary self agent_name in
  let qa_feedback := _format_qa_feedback self agent_name in
  (if Py.nonempty prev_output then [prev_output] else []) ++
  (if Py.nonempty qa_feedback
   then [nl +:+ "## QA Feedback (Please address these issues):" +:+ nl +:+ qa_feedback]
   else []).

Definition nlnl : string := nl +:+ nl.

Definition get_context_for_product_owner (self : ContextManager)
    (is_iteration : bool) : string :=
  Py.join nlnl
    (["## Project Requirements:" +:+ nl +:+ vibe_prompt self] ++
     (if is_iteration then iteration_parts self AGENT_PRODUCT_OWNER else [])).

Definition get_context_for_architect (self : ContextManager)
    (is_iteration : bool) : string :=
  Py.join nlnl
    ([_format_user_stories_summary self] ++
     (if is_iteration then iteration_parts self AGENT_ARCHITECT else [])).

Definition get_context_for_backend_engineer (self : ContextManager)
    (is_iteration : bool) : string :=
  Py.join nlnl
    ([_format_user_stories_summary self; _format_system_design_summary self] ++
     (if is_iteration then iteration_parts self AGENT_BACKEND_ENGINEER else [])).

Definition get_context_for_frontend_engineer (self : ContextManager)
    (is_iteration : bool) : string :=
  Py.join nlnl
    ([_format_user_stories_summary self; _format_system_design_summary self;
      _format_backend_endpoints_summary self] ++
     (if is_iteration then iteration_parts self AGENT_FRONTEND_ENGINEER else [])).

Definition get_context_for_qa_engineer (self : ContextManager) : string :=
  Py.join nlnl
    [_format_user_stories_summary self; _format_system_design_summary self;
     _format_backend_code_full self; _format_frontend_code_full self].

Definition get_context_for_manager (self : ContextManager)
    (iteration max_iterations : Z) : string :=
  Py.join nlnl
    ["## Iteration Status: " +:+ Py.str_of_Z iteration +:+ "/"
     +:+ Py.str_of_Z max_iterations;
     nl +:+ "## Original Requirements:" +:+ nl +:+ vibe_prompt self;
     nl +:+ _format_test_report_summary self].

(** ** Extraction of a stage output *)

(** What the generator hands back for a task: the raw text, and the
    structured output when the framework could build one. *)
Record TaskOutput := mkTaskOutput
  { to_raw : string; pydantic : option model; json_dict : option json }.

(** The [data] of an extracted output: the dump of a model, or a decoded
    document. *)
Inductive pydata :=
| DModel (m : model)
| DJson (j : json).

Definition data_of_parsed (p : parsed) : pydata :=
  match p with
  | PModel m => DModel m
  | PData j => DJson j
  | PError msg => DJson (JStr msg)
  end.

(** [safe_parse_json] pairs [False] with a message only. *)
Definition message_of (p : parsed) : string :=
  match p with PError msg => msg | _ => "" end.

Section Planner.
Variable json_loads : string → option json.

Definition _extract_output (task_output : TaskOutput)
    (schema_class : option model_class) : StageResult pydata :=
  let raw := to_raw task_output in
  match pydantic task_output with
  | Some m => mkResult true (Some (DModel m)) raw None
  | None =>
      match json_dict task_output with
      | Some j =>
          if truthy j then mkResult true (Some (DJson j)) raw None
          else
            let (success, parsed) := safe_parse_json json_loads raw schema_class in
            if success then mkResult true (Some (data_of_parsed parsed)) raw None
            else mkResult false None raw (Some (message_of parsed))
      | None =>
          let (success, parsed) := safe_parse_json json_loads raw schema_class in
          if success then mkResult true (Some (data_of_parsed parsed)) raw None
          else mkResult false None raw (Some (message_of parsed))
      end
  end.

(** ** The QA check and the planner *)

Definition _check_qa_passed (qa_output : StageResult TestReport.t) : res bool :=
  if negb (success qa_output) then Ret false
  else
    match data qa_output with
    | None => Raise AttributeError
    | Some data =>
        if negb (String.eqb (Py.lower (TestReport.overall_status data)) "pass")
        then Ret false
        else if existsb is_failed (TestReport.test_cases data) then Ret false
        else Ret true
    end.

Definition _get_agents_with_issues_from_report (self : ContextManager)
  : gset string :=
  match test_report self with
  | None => ∅
  | Some data =>
      let agents_with_issues : gset string :=
        foldl (λ acc kv, if has_entries (snd kv) then acc ∪ {[fst kv]} else acc)
              ∅ (TestReport.issues_by_agent data) in
      foldl (λ acc tc,
               if is_failed tc && Py.nonempty (TestCase.responsible_agent tc)
               then acc ∪ {[TestCase.responsible_agent tc]} else acc)
            agents_with_issues (TestReport.test_cases data)
  end.

Definition _get_fallback_decision (self : ContextManager) : res ManagerDecision :=
  let qa_output := mkResult true (test_report self) "" None in
  match _check_qa_passed qa_output with
  | Raise e => Raise e
  | Ret true =>
      Ret (mkDecision (JBool false) [] (JStr "QA passed, no issues found") (JStr ""))
  | Ret false =>
      let agents_with_issues := _get_agents_with_issues_from_report self in
      if bool_decide (agents_with_issues ≠ ∅) then
        Ret (mkDecision (JBool true)
               (_add_agent_dependencies (elements agents_with_issues))
               (JStr ("Issues found for: " +:+ Py.join ", " (elements agents_with_issues)))
               (JStr "Fix identified issues"))
      else
        Ret (mkDecision (JBool false) []
               (JStr "No specific agents identified with issues") (JStr ""))
  end.

(** [for a in value]: a list yields its items, a string its characters, a
    dict its keys; anything else is not iterable. *)
Definition py_iter (value : json) : res (list json) :=
  match value with
  | JArr items => Ret items
  | JStr s => Ret (map (λ c, JStr (String c "")) (Py.chars s))
  | JObj d => Ret (map (λ kv, JStr (fst kv)) d)
  | _ => Raise TypeError
  end.

Definition valid_agents : list string :=
  [AGENT_PRODUCT_OWNER; AGENT_ARCHITECT; AGENT_BACKEND_ENGINEER;
   AGENT_FRONTEND_ENGINEER].

(** [[a for a in items if a in valid_agents]]: a value that is not a
    string equals none of the names. *)
Fixpoint keep_valid (items : list json) : list string :=
  match items with
  | [] => []
  | JStr a :: items' =>
      if Py.mem a valid_agents then a :: keep_valid items' else keep_valid items'
  | _ :: items' => keep_valid items'
  end.

Definition get_or (key : string) (dflt : json) (d : list (string * json)) : json :=
  match dict_get key d with Some v => v | None => dflt end.

(** [crew_outcome] is what the generator call of the decision task ends in:
    the raw text of its output, or an exception. *)
Definition _get_manager_decision (self : ContextManager)
    (crew_outcome : res string) : res ManagerDecision :=
  match crew_outcome with
  | Raise _ => _get_fallback_decision self
  | Ret raw =>
      match safe_parse_json json_loads raw None with
      | (true, PData (JObj parsed)) =>
          match py_iter (get_or "agents_to_rerun" (JArr []) parsed) with
          | Ret items =>
              Ret (mkDecision
                     (get_or "should_continue" (JBool false) parsed)
                     (_add_agent_dependencies (keep_valid items))
                     (get_or "reasoning" (JStr "") parsed)
                     (get_or "iteration_goal" (JStr "") parsed))
          | Raise _ => _get_fallback_decision self
          end
      | _ =>
          match _get_fallback_decision self with
          | Ret decision => Ret decision
          | Raise _ => _get_fallback_decision self
          end
      end
  end.
End Planner.

(** [ContextManager.clear] *)
Definition clear (self : ContextManager) : ContextManager :=
  mkContext "" None None None None None.

(** [_get_agents_with_issues]: the agents with issues, read from the output
    of the QA stage. *)
Definition _get_agents_with_issues (qa_output : StageResult TestReport.t)
  : res (gset string) :=
  if negb (success qa_output) then Ret ∅
  else
    match data qa_output with
    | None => Raise AttributeError
    | Some data =>
        let agents_with_issues : gset string :=
          foldl (λ acc kv, if has_entries (snd kv) then acc ∪ {[fst kv]} else acc)
                ∅ (TestReport.issues_by_agent data) in
        Ret (foldl (λ acc tc,
                      if is_failed tc && Py.nonempty (TestCase.responsible_agent tc)
                      then acc ∪ {[TestCase.responsible_agent tc]} else acc)
                   agents_with_issues (TestReport.test_cases data))
    end.

(** ** The name of the project directory *)

(** The prompt is whatever the user typed, so a string is here the list of
    its code points, and [str.isalnum], [str.isspace] (the white space that
    [str.strip] removes) and [str.lower] are the interpreter's.  [str.lower]
    maps a string to a string: the lower case of one character can be two
    characters (U+0130) and can depend on its place (the final sigma). *)
Section SafeName.
Variable isalnum : N → bool.
Variable isspace : N → bool.
Variable lower : list N → list N.

(** [c if c.isalnum() or c in ' -_' else '_'] *)
Definition safe_char (c : N) : N :=
  if isalnum c || existsb (N.eqb c) [32; 45; 95]%N then c else 95%N.

Fixpoint lstrip (l : list N) : list N :=
  match l with
  | c :: l' => if isspace c then lstrip l' else l
  | [] => []
  end.

(** [s.strip()] *)
Definition strip (l : list N) : list N := rev (lstrip (rev (lstrip l))).

(** [s.replace(' ', '_')] *)
Definition replace_space (l : list N) : list N :=
  map (λ c, if N.eqb c 32 then 95%N else c) l.

(** The [safe_name] of [_create_project_dir] ([n] is 40) and of
    [BaselineCrew.run] ([n] is 30), from [vibe_prompt[:n]]. *)
Definition safe_name (n : nat) (vibe_prompt : list N) : list N :=
  let safe_name := map safe_char (firstn n vibe_prompt) in
  lower (replace_space (strip safe_name)).

(** The directory [_create_project_dir] makes under the output directory;
    [timestamp] is the clock as [%Y%m%d_%H%M%S]. *)
Definition project_name (vibe_prompt timestamp : list N) : list N :=
  safe_name 40 vibe_prompt ++ [95%N] ++ timestamp.

(** The directory of [BaselineCrew.run]. *)
Definition baseline_project_name (vibe_prompt timestamp : list N) : list N :=
  map Py.code (Py.chars "baseline_") ++ safe_name 30 vibe_prompt ++ [95%N] ++ timestamp.
End SafeName.

(** ** Running a task, with retries *)

(** What one attempt ends in.  The generator returns, and the task holds an
    output; or the construction of the crew or its kickoff raises, [msg] is
    [str(e)], and the task holds an output or none. *)
Inductive attempt :=
| Returned (task_output : TaskOutput)
| Raised (msg : string) (task_output : option TaskOutput).

Definition MAX_QA_ITERATIONS : Z := 5.
Definition MAX_RETRIES : Z := 2.

(** [f"{last_error}"] *)
Definition str_of_error (e : option string) : string :=
  match e with Some msg => msg | None => "None" end.

(** The local variables of [_execute_task_with_recovery] between two
    attempts, and the execution log. *)
Record attempt_state := mkAttemptState
  { last_error : option string; last_raw : string; entries : list string }.

Section Execution.
Variable json_loads : string → option json.
(** The wall clock as [%H:%M:%S], read when the log holds [n] entries. *)
Variable clock : nat → string.

(** [_log]: the entry is appended to the execution log (and printed when
    the crew is verbose). *)
Definition _log (execution_log : list string) (message : string) : list string :=
  execution_log ++ ["[" +:+ clock (length execution_log) +:+ "] " +:+ message].

(** The loop over [range(max_retries + 1)]: the result of the first attempt
    whose output is extracted, or the state after the last attempt. *)
Fixpoint attempts (world : nat → attempt) (schema_class : option model_class)
    (max_retries : Z) (todo : list nat) (st : attempt_state)
  : StageResult pydata * list string + attempt_state :=
  match todo with
  | [] => inr st
  | attempt :: todo' =>
      let log :=
        if (0 <? attempt)%nat
        then _log (entries st)
               ("    Retry attempt " +:+ Py.str_of_Z (Z.of_nat attempt) +:+ "/"
                +:+ Py.str_of_Z max_retries +:+ "...")
        else entries st in
      match world attempt with
      | Returned task_output =>
          let output := _extract_output json_loads task_output schema_class in
          if success output then
            inl (output,
                 if (0 <? attempt)%nat
                 then _log log ("    Success on retry " +:+ Py.str_of_Z (Z.of_nat attempt))
                 else log)
          else
            attempts world schema_class max_retries todo'
              (mkAttemptState (error output) (raw output)
                 (_log log ("    Extraction failed: " +:+ str_of_error (error output))))
      | Raised msg task_output =>
          attempts world schema_class max_retries todo'
            (mkAttemptState (Some msg)
               (match task_output with
                | Some o => to_raw o
                | None => last_raw st
                end)
               (_log log ("    Attempt " +:+ Py.str_of_Z (Z.of_nat attempt + 1)
                          +:+ " failed: " +:+ msg)))
      end
  end.

(** [world n] is what the [n]-th attempt ends in.  The result is paired
    with the execution log. *)
Definition _execute_task_with_recovery (world : nat → attempt)
    (schema_class : option model_class) (max_retries : option Z)
    (execution_log : list string) : StageResult pydata * list string :=
  let max_retries := match max_retries with Some n => n | None => MAX_RETRIES end in
  match attempts world schema_class max_retries
          (seq 0 (Z.to_nat (max_retries + 1)))
          (mkAttemptState None "" execution_log) with
  | inl result => result
  | inr st =>
      let failure :=
        mkResult false None (last_raw st)
          (Some ("Failed after " +:+ Py.str_of_Z (max_retries + 1)
                 +:+ " attempts. Last error: " +:+ str_of_error (last_error st))) in
      if Py.nonempty (last_raw st) then
        let log := _log (entries st)
                     "    Attempting final recovery from raw output..." in
        match safe_parse_json json_loads (last_raw st) schema_class with
        | (true, parsed) =>
            (mkResult true (Some (data_of_parsed parsed)) (last_raw st) None,
             _log log "    Recovery successful!")
        | (false, _) => (failure, log)
        end
      else (failure, entries st)
  end.
End Execution.

End Crew.

(** Test inputs are written with single quotes where the JSON text has
    double quotes; [sq2dq] puts the double quotes back. *)
Definition sq2dq (s : string) : string :=
  Py.of_chars (map (λ c, if Ascii.eqb c Re.squote then Re.dquote else c) (Py.chars s)).

(* ================================================================== *)
(** * Example inputs *)
(* ================================================================== *)

Module Ex.
Import Crew.

Definition tc_pass : TestCase.t :=
  TestCase.mk "TC001" "Create a task" "pass" "" "".
Definition tc_fail_design (id : string) : TestCase.t :=
  TestCase.mk id "Endpoint missing" "fail" "no route" AGENT_ARCHITECT.

(** No test case fails, the report is not a pass, and an issue is listed
    for the architect. *)
Definition report_issue_only : TestReport.t :=
  TestReport.mk "fail" [tc_pass] "Looks incomplete" []
    [(AGENT_PRODUCT_OWNER, []); (AGENT_ARCHITECT, ["API contract mismatch"]);
     (AGENT_BACKEND_ENGINEER, []); (AGENT_FRONTEND_ENGINEER, [])].

(** No test case fails and nothing is listed. *)
Definition report_clean : TestReport.t :=
  TestReport.mk "needs_review" [tc_pass] "" [] TestReport.default_issues_by_agent.

(** The only issue is listed under a name that is no stage of the plan. *)
Definition report_unknown_owner : TestReport.t :=
  TestReport.mk "fail" [tc_pass] "" [] [(AGENT_QA_ENGINEER, ["flaky test"])].

(** The report passes the QA check, and still lists an issue. *)
Definition report_pass_with_issue : TestReport.t :=
  TestReport.mk "pass" [tc_pass] "" [] [(AGENT_ARCHITECT, ["naming"])].

(** Two failing checks, both owned by the architect. *)
Definition report_two_design_failures : TestReport.t :=
  TestReport.mk "fail" [tc_fail_design "TC001"; tc_pass; tc_fail_design "TC003"]
    "" [] TestReport.default_issues_by_agent.

Definition context_with (rep : TestReport.t) : ContextManager :=
  mkContext "Build a todo app" None None None None (Some rep).

(** A proposal that continues, and names an unknown stage and a number
    next to the architect. *)
Definition proposal_raw : string :=
  sq2dq "{'should_continue': true, 'agents_to_rerun': ['architect', 'devops', 7], 'reasoning': 'design gaps', 'iteration_goal': 'fix the API'}".

Definition proposal_parsed : list (string * json) :=
  [("should_continue", JBool true);
   ("agents_to_rerun", JArr [JStr "architect"; JStr "devops"; JInt 7]);
   ("reasoning", JStr "design gaps"); ("iteration_goal", JStr "fix the API")].

End Ex.

Module Ex2.
Import Crew.

Definition stories : UserStoriesOutput.t :=
  UserStoriesOutput.mk [UserStory.mk "US001" "Add task" "As a user, I add tasks" "high"] "".
Definition design : SystemDesign.t :=
  SystemDesign.mk [DataModel.mk "Task" ["id: int"; "title: str"]]
    [APIEndpoint.mk "GET" "/api/tasks" "List tasks"] "".

(** Two contexts with the same user stories, the only upstream result of
    the architect; they differ in the stored test report. *)
Definition context_a : ContextManager :=
  mkContext "Build a todo app" (Some stories) (Some design) None None
    (Some Ex.report_two_design_failures).
Definition context_b : ContextManager :=
  mkContext "Build a todo app" (Some stories) (Some design) None None
    (Some Ex.report_clean).

Definition failed_stories : StageResult UserStoriesOutput.t :=
  mkResult false None "As a user I want" (Some "No JSON found in text").
Definition good_stories : StageResult UserStoriesOutput.t :=
  mkResult true (Some stories) "" None.
Definition good_design : StageResult SystemDesign.t :=
  mkResult true (Some design) "" None.

(** The updates of a run whose product owner succeeds, whose architect
    succeeds, and whose product owner fails when it runs again. *)
Definition interleaved : list update :=
  [UserStoriesUpdate good_stories; SystemDesignUpdate good_design;
   UserStoriesUpdate failed_stories].

End Ex2.

Module Ex3.
Import Crew.

(** A reply with a cut-off record and nothing complete to salvage. *)
Definition hopeless_raw : string :=
  sq2dq "{'stories': [ {'id': 'US1', 'title' }".

Definition hopeless_output : TaskOutput := mkTaskOutput hopeless_raw None None.

End Ex3.

Module Ex4.

(** A fenced block whose JSON is valid for the user stories schema and
    holds a fence of its own inside a string, followed by prose. *)
Definition block : string :=
  sq2dq "{'stories': [], 'summary': 'Use ```code``` blocks'}".

Definition fenced_with_prose : string :=
  "```json" +:+ Crew.nl +:+ block +:+ Crew.nl +:+ "```" +:+ Crew.nl +:+ "Let me know if you need changes.".

(** The same with a block that holds no fence. *)
Definition plain_block : string :=
  sq2dq "{'stories': [{'id': 'US001', 'title': 'Add task', 'description': 'As a user, I add tasks', 'priority': 'High'}], 'summary': 'One story'}".

End Ex4.

Module Ex5.






End Ex5.

Module Ex6.

(** A test report whose records carry neither notes nor a responsible
    agent, cut off in its second record. *)
Definition report_cut_off : string :=
  sq2dq "{'overall_status': 'fail', 'test_cases': [{'id': 'TC001', 'description': 'Create a task', 'status': 'fail'}, {'id': 'TC002', 'description': 'List tasks', 'status': 'pass', 'no".

End Ex6.

Module Ex7.

(** A report with one failed case, as the QA stage writes it, and the
    model it validates to. *)
Definition failing_report_raw : string :=
  sq2dq "{'overall_status': 'fail', 'test_cases': [{'id': 'TC001', 'description': 'Create a task', 'status': 'fail', 'notes': 'no route', 'responsible_agent': 'backend_engineer'}], 'summary': 'One failure'}".

Definition failing_report : TestReport.t :=
  TestReport.mk "fail"
    [TestCase.mk "TC001" "Create a task" "fail" "no route" "backend_engineer"]
    "One failure" [] TestReport.default_issues_by_agent.

End Ex7.

Module Ex8.
Import Crew.

Definition wall_clock (n : nat) : string := "12:00:00".

Definition answer : TaskOutput := mkTaskOutput (sq2dq "{'ok': true}") None None.

(** The first attempt raises, the second returns a document. *)
Definition world_retry (n : nat) : attempt :=
  match n with
  | 0 => Raised "rate limit" None
  | 1 => Returned answer
  | _ => Raised "unreachable" None
  end.

(** Every attempt raises; the task holds an output after the second. *)
Definition world_raising (n : nat) : attempt :=
  match n with
  | 1 => Raised "timeout" (Some answer)
  | _ => Raised "timeout" None
  end.

End Ex8.

Module Ex9.

(** The interpreter's tables, as far as ASCII and U+0130, the capital I
    with a dot above, go: its lower case is an i and the combining dot
    U+0307. *)
Definition isalnum (c : N) : bool :=
  ((48 <=? c) && (c <=? 57) || (65 <=? c) && (c <=? 90) || (97 <=? c) && (c <=? 122)
   || (c =? 304))%N.
Definition isspace (c : N) : bool :=
  ((9 <=? c) && (c <=? 13) || (28 <=? c) && (c <=? 32))%N.
Definition lower (s : list N) : list N :=
  concat (map (λ c, if (c =? 304)%N then [105; 775]%N
                    else if ((65 <=? c) && (c <=? 90))%N then [(c + 32)%N] else [c]) s).

Definition prompt : list N := map Py.code (Py.chars " My To-Do App: v2! ").

End Ex9.

(* ================================================================== *)
(** * The vocabulary of the statements *)
(* ================================================================== *)

Import Crew.

(** [downstream a b]: the agent [b] is declared downstream of [a]. *)
Definition downstream (a b : string) : Prop :=
  ∃ ds, AGENT_DEPENDENCIES !! a = Some ds ∧ b ∈ ds.

(** The data of the most recent successful result of a history, or the
    slot as it was. *)
Definition most_recent_success {D} (slot : option D) (history : list (StageResult D))
  : option D :=
  match last (filter (λ r, success r = true) history) with
  | Some r => data r
  | None => slot
  end.

(** The messages [safe_parse_json] pairs with [False]. *)
Definition failure_messages : list string :=
  ["Empty input"; "No JSON found in text"; "Failed to parse JSON after all attempts"].

(** [found r text m]: [m] is a match of [r] on a stretch of [text]. *)
Definition found (r : Re.regex) (text : list ascii) (m : Re.mobj) : Prop :=
  ∃ pre post, text = pre ++ Re.m_text m ++ post ∧
              Re.lang r (Re.m_text m) post [] (Re.m_caps m).

(** [stretch g w]: the word [g] occurs in [w] as it is. *)
Definition stretch (g w : list ascii) : Prop := ∃ a b, w = a ++ g ++ b.

(** A greedy repetition of a class: the longest run first, then shorter. *)
Fixpoint greedy_span {R} (p : ascii → bool) (k : list ascii → option R)
    (s : list ascii) : option R :=
  match s with
  | a :: s' =>
      if p a then match greedy_span p k s' with Some x => Some x | None => k s end
      else k s
  | [] => k []
  end.

(** A lazy repetition of a class: the shortest run first, then longer. *)
Fixpoint lazy_span {R} (p : ascii → bool) (k : list ascii → option R)
    (s : list ascii) : option R :=
  match k s with
  | Some x => Some x
  | None =>
      match s with
      | a :: s' => if p a then lazy_span p k s' else None
      | [] => None
      end
  end.

(** What [re.sub] with the pattern of the trailing comma leaves of a text:
    the text up to the first comma that only white space follows. *)
Fixpoint drop_trailing_comma (l : list ascii) : list ascii :=
  match l with
  | [] => []
  | c :: l' => if Ascii.eqb c "," && forallb Py.isspace l' then []
               else c :: drop_trailing_comma l'
  end.

(** The text after the first two steps of the repair: the closing quote
    when the scan ends inside a string, then the trailing comma dropped. *)
Definition closed_and_trimmed (json_str : string) : list ascii :=
  drop_trailing_comma
    (Py.chars json_str ++ if in_string_at_end json_str then [Re.dquote] else []).

(** The fence of a code block. *)
Definition fence : list ascii := Py.chars "```".









(** The class a model is an instance of. *)
Definition class_of (m : model) : model_class :=
  match m with
  | MUserStoriesOutput _ => ClsUserStoriesOutput
  | MSystemDesign _ => ClsSystemDesign
  | MBackendCode _ => ClsBackendCode
  | MFrontendCode _ => ClsFrontendCode
  | MTestReport _ => ClsTestReport
  end.

(** The enumerated fields of a model hold what their validators return. *)
Definition well_formed (m : model) : Prop :=
  match m with
  | MUserStoriesOutput x =>
      ∀ story, story ∈ UserStoriesOutput.stories x →
               UserStory.priority story ∈ ["high"; "medium"; "low"]
  | MSystemDesign x =>
      ∀ endpoint, endpoint ∈ SystemDesign.endpoints x →
                  APIEndpoint.method endpoint ∈ ["GET"; "POST"; "PUT"; "DELETE"; "PATCH"]
  | MBackendCode _ | MFrontendCode _ => True
  | MTestReport x =>
      TestReport.overall_status x ∈ ["pass"; "fail"; "needs_review"] ∧
      ∀ tc, tc ∈ TestReport.test_cases x →
            TestCase.status tc ∈ ["pass"; "fail"; "skip"; "skipp"] ∧
            TestCase.responsible_agent tc ∈
              ["product_owner"; "architect"; "backend_engineer"; "frontend_engineer"; ""]
  end.

(** A control character, as the first step of [fix_common_json_errors]
    takes it: [\x00-\x1f] and [\x7f-\x9f]. *)
Definition is_control (c : ascii) : bool :=
  Py.in_range 0 31 c || Py.in_range 127 159 c.

(** [captures r i P]: whatever a group [i] inside [r] captures satisfies
    [P]. *)
Fixpoint captures (r : Re.regex) (i : nat) (P : list ascii → Prop) : Prop :=
  match r with
  | Re.Cat r1 r2 | Re.Alt r1 r2 => captures r1 i P ∧ captures r2 i P
  | Re.Star _ r1 => captures r1 i P
  | Re.Group j r1 =>
      captures r1 i P ∧
      (j = i → ∀ w rest cs cs', Re.lang r1 w rest cs cs' → P w)
  | _ => True
  end.

(** [binds r i]: every match of [r] goes through a group [i]. *)
Fixpoint binds (r : Re.regex) (i : nat) : bool :=
  match r with
  | Re.Cat r1 r2 => binds r1 i || binds r2 i
  | Re.Alt r1 r2 => binds r1 i && binds r2 i
  | Re.Group j r1 => Nat.eqb j i || binds r1 i
  | _ => false
  end.

(** A word of one or more characters, none of them a double quote. *)
Definition quote_free (w : list ascii) : Prop := w ≠ [] ∧ Re.dquote ∉ w.


(** The attempt [k] of a task returns an output that is extracted. *)
Definition extracted (json_loads : string → option json) (world : nat → attempt)
    (schema_class : option model_class) (k : nat) : bool :=
  match world k with
  | Returned task_output =>
      success (_extract_output json_loads task_output schema_class)
  | Raised _ _ => false
  end.

(** Where the raw text kept between two attempts comes from: no attempt
    has left one, or the ladder has failed on it, or it is the output of a
    task whose attempt raised. *)
Definition raw_kept (json_loads : string → option json) (world : nat → attempt)
    (schema_class : option model_class) (n : nat) (st : attempt_state) : Prop :=
  last_raw st = "" ∨
  (∃ p, safe_parse_json json_loads (last_raw st) schema_class = (false, p)) ∨
  (∃ j msg o, j < n ∧ world j = Raised msg (Some o) ∧ last_raw st = to_raw o).


(** The results a history of updates holds for each stage, in order. *)
Definition user_stories_results (history : list update)
  : list (StageResult UserStoriesOutput.t) :=
  omap (λ u, match u with UserStoriesUpdate r => Some r | _ => None end) history.
Definition system_design_results (history : list update)
  : list (StageResult SystemDesign.t) :=
  omap (λ u, match u with SystemDesignUpdate r => Some r | _ => None end) history.
Definition backend_code_results (history : list update)
  : list (StageResult BackendCode.t) :=
  omap (λ u, match u with BackendCodeUpdate r => Some r | _ => None end) history.
Definition frontend_code_results (history : list update)
  : list (StageResult FrontendCode.t) :=
  omap (λ u, match u with FrontendCodeUpdate r => Some r | _ => None end) history.
Definition test_report_results (history : list update)
  : list (StageResult TestReport.t) :=
  omap (λ u, match u with TestReportUpdate r => Some r | _ => None end) history.


(** A report passes the QA check: its overall status is pass, in any case
    of the letters, and no test case has the status fail. *)
Definition passes_qa (rep : TestReport.t) : Prop :=
  Py.lower (TestReport.overall_status rep) = "pass" ∧
  ∀ tc, tc ∈ TestReport.test_cases rep → Py.lower (TestCase.status tc) ≠ "fail".

(** The agents a report holds responsible: the keys of [issues_by_agent]
    with at least one issue, and the responsible agents, when named, of the
    test cases whose status is fail. *)
Definition owns_a_failure (rep : TestReport.t) (a : string) : Prop :=
  (∃ issues, (a, issues) ∈ TestReport.issues_by_agent rep ∧ issues ≠ []) ∨
  (∃ tc, tc ∈ TestReport.test_cases rep ∧ Py.lower (TestCase.status tc) = "fail" ∧
         TestCase.responsible_agent tc = a ∧ a ≠ "").


(** The ASCII part of the interpreter's character tables: the digits and
    letters, and the lower case of a code point. *)
Definition ascii_alnum (c : N) : bool :=
  ((48 <=? c) && (c <=? 57) || (65 <=? c) && (c <=? 90) || (97 <=? c) && (c <=? 122))%N.

Definition ascii_lower (c : N) : N :=
  if ((65 <=? c) && (c <=? 90))%N then (c + 32)%N else c.

(** A digit, a small letter, a hyphen or an underscore. *)
Definition name_char (c : N) : bool :=
  ((48 <=? c) && (c <=? 57) || (97 <=? c) && (c <=? 122) || (c =? 45) || (c =? 95))%N.

(** The code points of a text. *)
Definition code_points (s : string) : list N := map Py.code (Py.chars s).

(* ================================================================== *)
(** * Facts about the string primitives *)
(* ================================================================== *)

Lemma chars_of_chars (l : list ascii) : Py.chars (Py.of_chars l) = l.
Proof. apply list_ascii_of_string_of_list_ascii. Qed.

Lemma of_chars_chars (s : string) : Py.of_chars (Py.chars s) = s.
Proof. apply string_of_list_ascii_of_string. Qed.

Lemma chars_app (a b : string) : Py.chars (a +:+ b) = Py.chars a ++ Py.chars b.
Proof. induction a as [|c a IH]; simpl; [done | by rewrite IH]. Qed.

Lemma of_chars_app (a b : list ascii) :
  Py.of_chars (a ++ b) = Py.of_chars a +:+ Py.of_chars b.
Proof. induction a as [|c a IH]; simpl; [done | by rewrite IH]. Qed.


Lemma nonempty_chars (s : string) : Py.nonempty s = true ↔ Py.chars s ≠ [].
Proof. destruct s; simpl; split; intros; congruence. Qed.

Lemma mem_In (x : string) (xs : list string) : Py.mem x xs = true ↔ x ∈ xs.
Proof.
  unfold Py.mem. rewrite existsb_exists. split.
  - intros (y & Hy & Heq). apply String.eqb_eq in Heq. subst.
    by apply list_elem_of_In.
  - intros H. exists x. split; [by apply list_elem_of_In | apply String.eqb_refl].
Qed.

Lemma count_l_app (c : ascii) (a b : list ascii) :
  Py.count_l c (a ++ b) = (Py.count_l c a + Py.count_l c b)%Z.
Proof. unfold Py.count_l. rewrite filter_app, length_app. lia. Qed.

Lemma count_l_times_same (c : ascii) (n : Z) :
  Py.count_l c (Py.times c n) = Z.max 0 n.
Proof.
  unfold Py.count_l, Py.times.
  assert (H : ∀ k, length (filter (λ a, Ascii.eqb a c = true) (repeat c k)) = k).
  { induction k as [|k IH]; [done|]. simpl.
    rewrite filter_cons_True by apply Ascii.eqb_refl. simpl. by rewrite IH. }
  rewrite H. lia.
Qed.

Lemma count_l_times_other (c d : ascii) (n : Z) :
  c ≠ d → Py.count_l c (Py.times d n) = 0%Z.
Proof.
  intros Hne. unfold Py.count_l, Py.times.
  assert (H : ∀ k, filter (λ a, Ascii.eqb a c = true) (repeat d k) = []).
  { induction k as [|k IH]; [done|]. simpl.
    rewrite filter_cons_False; [done|].
    intros He. apply Ascii.eqb_eq in He. congruence. }
  by rewrite H.
Qed.

Lemma count_l_nonneg (c : ascii) (l : list ascii) : (0 ≤ Py.count_l c l)%Z.
Proof. unfold Py.count_l. lia. Qed.

(* ================================================================== *)
(** * The dependency closure *)
(* ================================================================== *)


Lemma deps_cases (a : string) (ds : list string) :
  AGENT_DEPENDENCIES !! a = Some ds →
  (a = AGENT_PRODUCT_OWNER ∧ ds = [AGENT_ARCHITECT; AGENT_BACKEND_ENGINEER; AGENT_FRONTEND_ENGINEER]) ∨
  (a = AGENT_ARCHITECT ∧ ds = [AGENT_BACKEND_ENGINEER; AGENT_FRONTEND_ENGINEER]) ∨
  (a = AGENT_BACKEND_ENGINEER ∧ ds = [AGENT_FRONTEND_ENGINEER]) ∨
  (a = AGENT_FRONTEND_ENGINEER ∧ ds = []).
Proof.
  unfold AGENT_DEPENDENCIES.
  rewrite !lookup_insert_Some, lookup_singleton_Some.
  intros [[<- <-]|[_ [[<- <-]|[_ [[<- <-]|[_ [<- <-]]]]]]]; auto.
Qed.


Lemma downstream_trans a b c : downstream a b → downstream b c → downstream a c.
Proof.
  intros (ds & Ha & Hb) (ds' & Hb' & Hc).
  apply deps_cases in Ha as [[-> ->]|[[-> ->]|[[-> ->]|[-> ->]]]];
  apply deps_cases in Hb' as [[-> ->]|[[-> ->]|[[-> ->]|[-> ->]]]];
  try (by apply elem_of_nil in Hc); try (by apply elem_of_nil in Hb);
  try (exfalso; revert Hb; rewrite !elem_of_cons, elem_of_nil; unfold AGENT_PRODUCT_OWNER, AGENT_ARCHITECT, AGENT_BACKEND_ENGINEER, AGENT_FRONTEND_ENGINEER; intros Hb; repeat destruct Hb as [Hb|Hb]; done);
  eexists; (split; [vm_compute; reflexivity|]);
  revert Hc; rewrite !elem_of_cons, !elem_of_nil; tauto.
Qed.

Lemma downstream_known a b : downstream a b → b ∈ execution_order.
Proof.
  intros (ds & Ha & Hb). unfold execution_order.
  apply deps_cases in Ha as [[-> ->]|[[-> ->]|[[-> ->]|[-> ->]]]];
  revert Hb; rewrite !elem_of_cons, !elem_of_nil; tauto.
Qed.

Lemma elem_of_with_downstream (agents : list string) (x : string) :
  x ∈ with_downstream agents ↔ x ∈ agents ∨ ∃ a, a ∈ agents ∧ downstream a x.
Proof.
  unfold with_downstream.
  assert (G : ∀ l (acc : gset string),
             x ∈ foldl (λ agents_to_rerun agent,
                          match AGENT_DEPENDENCIES !! agent with
                          | Some deps => agents_to_rerun ∪ list_to_set deps
                          | None => agents_to_rerun
                          end) acc l
             ↔ x ∈ acc ∨ ∃ a, a ∈ l ∧ downstream a x).
  { induction l as [|b l IH]; intros acc; simpl.
    - split; [auto|]. intros [H|(a & Ha & _)]; [done|]. by apply elem_of_nil in Ha.
    - rewrite IH. unfold downstream. destruct (AGENT_DEPENDENCIES !! b) as [ds|] eqn:E.
      + rewrite elem_of_union, elem_of_list_to_set. split.
        * intros [[H|H]|(a & Ha & Hd)]; [by left| |].
          -- right. exists b. split; [left|]. eauto.
          -- right. exists a. split; [by right|done].
        * intros [H|(a & Ha & ds' & Hl & Hd)]; [by left; left|].
          apply elem_of_cons in Ha as [->|Ha].
          -- left. right. congruence.
          -- right. eauto.
      + split.
        * intros [H|(a & Ha & Hd)]; [by left|]. right. exists a. split; [by right|done].
        * intros [H|(a & Ha & ds' & Hl & Hd)]; [by left|].
          apply elem_of_cons in Ha as [->|Ha]; [congruence|]. right; eauto. }
  rewrite G, elem_of_list_to_set. done.
Qed.

Lemma elem_of_add_agent_dependencies (agents : list string) (x : string) :
  x ∈ _add_agent_dependencies agents ↔
  x ∈ execution_order ∧ (x ∈ agents ∨ ∃ a, a ∈ agents ∧ downstream a x).
Proof.
  unfold _add_agent_dependencies. rewrite list_elem_of_filter, elem_of_with_downstream. tauto.
Qed.

Lemma filter_order_ext (P Q : string → Prop) `{∀ x, Decision (P x)} `{∀ x, Decision (Q x)}
    (l : list string) :
  (∀ x, x ∈ l → (P x ↔ Q x)) → filter P l = filter Q l.
Proof.
  induction l as [|a l IH]; intros Hext; [done|].
  rewrite !filter_cons. rewrite IH by (intros x Hx; apply Hext; by right).
  destruct (decide (P a)) as [Hp|Hp], (decide (Q a)) as [Hq|Hq]; try done;
    exfalso; apply (Hext a) in Hp || apply (Hext a) in Hq; try done; by left.
Qed.

Lemma add_agent_dependencies_closed (agents : list string) :
  _add_agent_dependencies (_add_agent_dependencies agents)
  = _add_agent_dependencies agents.
Proof.
  unfold _add_agent_dependencies at 1 3.
  apply filter_order_ext. intros x Hx.
  rewrite !elem_of_with_downstream. split.
  - intros [H|(a & Ha & Hd)].
    + apply elem_of_add_agent_dependencies in H. tauto.
    + apply elem_of_add_agent_dependencies in Ha as [_ [Ha|(b & Hb & Hbd)]].
      * right; eauto.
      * right. exists b. split; [done|]. by apply downstream_trans with a.
  - intros H. left. apply elem_of_add_agent_dependencies. tauto.
Qed.

Lemma add_agent_dependencies_mono (S T : list string) :
  S ⊆ T → _add_agent_dependencies S ⊆ _add_agent_dependencies T.
Proof.
  intros Hsub x. rewrite !elem_of_add_agent_dependencies.
  intros [Hx [H|(a & Ha & Hd)]]; (split; [done|]); [left|right; exists a]; auto.
Qed.

(** C1.  [_add_agent_dependencies], the closure over [AGENT_DEPENDENCIES], is
    idempotent and monotone, and maps the empty list to the empty list. *)
Theorem closure_idempotent_monotone_empty (S T : list string) :
  _add_agent_dependencies (_add_agent_dependencies S) = _add_agent_dependencies S ∧
  (S ⊆ T → _add_agent_dependencies S ⊆ _add_agent_dependencies T) ∧
  _add_agent_dependencies [] = [].
Proof.
  split; [apply add_agent_dependencies_closed|].
  split; [apply add_agent_dependencies_mono|reflexivity].
Qed.

Lemma closure_idempotent_monotone_empty_witness :
  let S := [AGENT_ARCHITECT] in
  let T := [AGENT_ARCHITECT; AGENT_QA_ENGINEER] in
  S ⊆ T ∧ _add_agent_dependencies S ⊆ _add_agent_dependencies T.
Proof.
  assert (H : [AGENT_ARCHITECT] ⊆ [AGENT_ARCHITECT; AGENT_QA_ENGINEER]).
  { intros x Hx. apply elem_of_cons. left. by apply list_elem_of_singleton in Hx. }
  split; [exact H|].
  exact (proj1 (proj2 (closure_idempotent_monotone_empty
                         [AGENT_ARCHITECT] [AGENT_ARCHITECT; AGENT_QA_ENGINEER])) H).
Defined.

(* ================================================================== *)
(** * The validators of the enumerated fields *)
(* ================================================================== *)

Ltac mem_cases H :=
  apply mem_In in H; rewrite ?elem_of_cons, ?elem_of_nil in H;
  repeat (destruct H as [H|H]); try done; rewrite ?H.


Lemma validate_overall_status_vocabulary (v : string) :
  TestReport.validate_overall_status v ∈ ["pass"; "fail"; "needs_review"].
Proof.
  unfold TestReport.validate_overall_status.
  set (w := Py.strip (Py.lower v)).
  destruct (Py.mem w _) eqn:E; simpl.
  - mem_cases E; vm_compute; repeat constructor.
  - rewrite !elem_of_cons; auto.
Qed.

Lemma validate_responsible_agent_vocabulary (v : string) :
  TestCase.validate_responsible_agent v ∈
    ["product_owner"; "architect"; "backend_engineer"; "frontend_engineer"; ""].
Proof.
  unfold TestCase.validate_responsible_agent.
  set (w := Py.strip (Py.lower v)).
  destruct (Py.mem w _) eqn:E; simpl.
  - by apply mem_In.
  - rewrite !elem_of_cons; auto 10.
Qed.

(** What [validate_status] can return: the three statuses, and the
    misspelling [skipp] that the removal of [ed] leaves of [skipped]. *)
Lemma validate_status_range (v : string) :
  TestCase.validate_status v ∈ ["pass"; "fail"; "skip"; "skipp"].
Proof.
  unfold TestCase.validate_status.
  set (w := Py.strip (Py.lower v)).
  destruct (Py.mem w _) eqn:E; simpl.
  - mem_cases E; vm_compute; repeat constructor.
  - rewrite !elem_of_cons; auto.
Qed.

(** C10.  The status validator does not map [skipped] into the vocabulary
    [pass], [fail], [skip]: removing [ed] from it leaves [skipp], and a test
    case validated from a document with that status carries it. *)
Theorem validate_status_skipped :
  TestCase.validate_status "skipped" = "skipp" ∧
  TestCase.validate_status "skipp" = "skip" ∧
  ¬ ("skipp" ∈ ["pass"; "fail"; "skip"]) ∧
  (TestCase.status <$>
     ((Json.loads (sq2dq "{'id': 'TC1', 'description': 'd', 'status': 'Skipped'}"))
        ≫= TestCase.model_validate)) = Some "skipp".
Proof.
  split; [|split; [|split]]; try (vm_compute; reflexivity).
  rewrite !elem_of_cons, elem_of_nil. intros [H|[H|[H|[]]]]; discriminate.
Qed.

(* ================================================================== *)
(** * The planner *)
(* ================================================================== *)

Lemma add_agent_dependencies_known (agents : list string) (x : string) :
  x ∈ _add_agent_dependencies agents → x ∈ valid_agents.
Proof. intros H. by apply elem_of_add_agent_dependencies in H as [H _]. Qed.

(** The agents the report holds responsible: the keys of [issues_by_agent]
    with at least one issue, and the responsible agents of the failed test
    cases. *)
Lemma elem_of_agents_with_issues (self : ContextManager) (rep : TestReport.t)
    (a : string) :
  test_report self = Some rep →
  a ∈ _get_agents_with_issues_from_report self ↔
    (∃ issues, (a, issues) ∈ TestReport.issues_by_agent rep ∧ issues ≠ []) ∨
    (∃ tc, tc ∈ TestReport.test_cases rep ∧ is_failed tc = true ∧
           TestCase.responsible_agent tc = a ∧ a ≠ "").
Proof.
  intros Hrep. unfold _get_agents_with_issues_from_report. rewrite Hrep.
  assert (G1 : ∀ (l : list (string * list string)) (acc : gset string),
             a ∈ foldl (λ acc kv, if has_entries (snd kv) then acc ∪ {[fst kv]} else acc) acc l
             ↔ a ∈ acc ∨ ∃ issues, (a, issues) ∈ l ∧ issues ≠ []).
  { induction l as [|[k v] l IH]; intros acc; simpl.
    - split; [auto|]. intros [H|(i & H & _)]; [done|]. by apply elem_of_nil in H.
    - rewrite IH. destruct v as [|i v]; simpl.
      + split.
        * intros [H|(iss & H & Hne)]; [by left|]. right. exists iss. split; [by right|done].
        * intros [H|(iss & H & Hne)]; [by left|].
          apply elem_of_cons in H as [H|H]; [congruence|]. right; eauto.
      + rewrite elem_of_union, elem_of_singleton. split.
        * intros [[H| ->]|(iss & H & Hne)]; [by left| |].
          -- right. exists (i :: v). split; [by left|done].
          -- right. exists iss. split; [by right|done].
        * intros [H|(iss & H & Hne)]; [by left; left|].
          apply elem_of_cons in H as [H|H]; [left; right; congruence|]. right; eauto. }
  assert (G2 : ∀ (l : list TestCase.t) (acc : gset string),
             a ∈ foldl (λ acc tc,
                          if is_failed tc && Py.nonempty (TestCase.responsible_agent tc)
                          then acc ∪ {[TestCase.responsible_agent tc]} else acc) acc l
             ↔ a ∈ acc ∨ ∃ tc, tc ∈ l ∧ is_failed tc = true ∧
                               TestCase.responsible_agent tc = a ∧ a ≠ "").
  { induction l as [|t l IH]; intros acc; simpl.
    - split; [auto|]. intros [H|(i & H & _)]; [done|]. by apply elem_of_nil in H.
    - rewrite IH.
      destruct (is_failed t && Py.nonempty (TestCase.responsible_agent t)) eqn:E.
      + apply andb_true_iff in E as [E1 E2].
        rewrite elem_of_union, elem_of_singleton. split.
        * intros [[H| ->]|(tc & H & Hf)]; [by left| |].
          -- right. exists t. split; [by left|]. split; [done|]. split; [done|].
             intros Hn. by rewrite Hn in E2.
          -- right. exists tc. split; [by right|done].
        * intros [H|(tc & H & Hf & Hr & Hne)]; [by left; left|].
          apply elem_of_cons in H as [->|H]; [left; right; congruence|].
          right. exists tc. auto.
      + split.
        * intros [H|(tc & H & Hf)]; [by left|]. right. exists tc. split; [by right|done].
        * intros [H|(tc & H & Hf & Hr & Hne)]; [by left|].
          apply elem_of_cons in H as [->|H]; [|right; exists tc; auto].
          exfalso. rewrite Hf in E. simpl in E.
          destruct (TestCase.responsible_agent t); [congruence|discriminate]. }
  rewrite G2, G1. rewrite elem_of_empty. tauto.
Qed.

Lemma check_qa_passed_stored (rep : TestReport.t) :
  _check_qa_passed (mkResult true (Some rep) "" None)
  = Ret (String.eqb (Py.lower (TestReport.overall_status rep)) "pass"
         && negb (existsb is_failed (TestReport.test_cases rep))).
Proof.
  unfold _check_qa_passed. simpl.
  destruct (String.eqb _ "pass"); simpl; [|done].
  by destruct (existsb is_failed _).
Qed.

(** The fallback decision on a stored report, branch by branch. *)
Lemma fallback_decision_stored (self : ContextManager) (rep : TestReport.t) :
  test_report self = Some rep →
  let owners := _get_agents_with_issues_from_report self in
  _get_fallback_decision self =
    if String.eqb (Py.lower (TestReport.overall_status rep)) "pass"
       && negb (existsb is_failed (TestReport.test_cases rep))
    then Ret (mkDecision (JBool false) [] (JStr "QA passed, no issues found") (JStr ""))
    else if bool_decide (owners ≠ ∅)
    then Ret (mkDecision (JBool true) (_add_agent_dependencies (elements owners))
                (JStr ("Issues found for: " +:+ Py.join ", " (elements owners)))
                (JStr "Fix identified issues"))
    else Ret (mkDecision (JBool false) []
                (JStr "No specific agents identified with issues") (JStr "")).
Proof.
  intros Hrep owners. unfold _get_fallback_decision.
  rewrite Hrep, check_qa_passed_stored.
  by destruct (_ && _).
Qed.

Lemma fallback_decision_closed (self : ContextManager) (d : ManagerDecision) :
  _get_fallback_decision self = Ret d →
  (∀ a, a ∈ agents_to_rerun d → a ∈ valid_agents) ∧
  _add_agent_dependencies (agents_to_rerun d) = agents_to_rerun d.
Proof.
  unfold _get_fallback_decision.
  destruct (_check_qa_passed _) as [[|]|]; [| |discriminate].
  - intros [= <-]. simpl. split; [intros a Ha; by apply elem_of_nil in Ha|done].
  - destruct (bool_decide _); intros [= <-]; simpl.
    + split; [intros a; apply add_agent_dependencies_known
             |apply add_agent_dependencies_closed].
    + split; [intros a Ha; by apply elem_of_nil in Ha|done].
Qed.

Lemma elem_of_keep_valid (items : list json) (a : string) :
  a ∈ keep_valid items ↔ JStr a ∈ items ∧ a ∈ valid_agents.
Proof.
  induction items as [|j items IH]; cbn [keep_valid].
  - rewrite !elem_of_nil. tauto.
  - destruct j; rewrite ?IH, !elem_of_cons;
      try (split; [intros [H1 H2]; auto|intros [[H|H] H2]; [discriminate|auto]]).
    destruct (Py.mem s valid_agents) eqn:E.
    + rewrite elem_of_cons, IH. apply mem_In in E. split.
      * intros [->|[H1 H2]]; auto.
      * intros [[[= ->]|H] H2]; auto.
    + rewrite IH. split; [intros [H1 H2]; auto|].
      intros [[[= ->]|H] H2]; [|auto].
      apply mem_In in H2. congruence.
Qed.

(** C6.  On the primary path the names of the proposal that are no known
    agent are dropped and the closure is applied to the rest: the decision is
    returned (nothing is raised), its [agents_to_rerun] is the closure of the
    known names, holds known agents only and is closed under the closure.
    The last two hold for every decision the planner returns, on either
    path. *)
Theorem manager_decision_drops_unknown_and_closes
    (json_loads : string → option json) (self : ContextManager) (raw : string)
    (parsed : list (string * json)) (items : list json) :
  safe_parse_json json_loads raw None = (true, PData (JObj parsed)) →
  py_iter (get_or "agents_to_rerun" (JArr []) parsed) = Ret items →
  (∃ d, _get_manager_decision json_loads self (Ret raw) = Ret d ∧
        agents_to_rerun d = _add_agent_dependencies (keep_valid items) ∧
        (∀ a, a ∈ keep_valid items ↔ JStr a ∈ items ∧ a ∈ valid_agents)) ∧
  (∀ outcome d, _get_manager_decision json_loads self outcome = Ret d →
      (∀ a, a ∈ agents_to_rerun d → a ∈ valid_agents) ∧
      _add_agent_dependencies (agents_to_rerun d) = agents_to_rerun d).
Proof.
  intros Hparse Hiter. split.
  - eexists. unfold _get_manager_decision. rewrite Hparse, Hiter.
    split; [reflexivity|]. split; [reflexivity|]. apply elem_of_keep_valid.
  - clear Hparse Hiter. intros outcome d. unfold _get_manager_decision.
    destruct outcome as [raw'|e]; [|apply fallback_decision_closed].
    destruct (safe_parse_json json_loads raw' None) as [[|] [m|[| | | | | |o]|msg]];
      try (destruct (_get_fallback_decision self) eqn:E;
           [intros [= <-]; by apply fallback_decision_closed in E
           |simpl; discriminate]).
    destruct (py_iter _) as [its|]; [|apply fallback_decision_closed].
    intros [= <-]. simpl.
    split; [intros a; apply add_agent_dependencies_known
           |apply add_agent_dependencies_closed].
Qed.

Lemma manager_decision_drops_unknown_and_closes_witness :
  ∃ d, _get_manager_decision Json.loads (Ex.context_with Ex.report_clean)
         (Ret Ex.proposal_raw) = Ret d ∧
       agents_to_rerun d =
         [AGENT_ARCHITECT; AGENT_BACKEND_ENGINEER; AGENT_FRONTEND_ENGINEER].
Proof.
  destruct (manager_decision_drops_unknown_and_closes Json.loads
              (Ex.context_with Ex.report_clean) Ex.proposal_raw Ex.proposal_parsed
              [JStr "architect"; JStr "devops"; JInt 7]
              ltac:(vm_compute; reflexivity) ltac:(vm_compute; reflexivity))
    as [(d & Hd & Ha & _) _].
  exists d. split; [exact Hd|]. rewrite Ha. vm_compute. reflexivity.
Defined.

Lemma no_failed_case (tcs : list TestCase.t) :
  existsb is_failed tcs = false → ∀ tc, tc ∈ tcs → is_failed tc = false.
Proof.
  intros H tc Htc. destruct (is_failed tc) eqn:E; [|done].
  assert (existsb is_failed tcs = true); [|congruence].
  apply existsb_exists. exists tc. split; [by apply list_elem_of_In|done].
Qed.

(** C2, as the code has it.  With no failing test case, the fallback stops
    ([should_continue] is [False], nothing to re-run) when the report lists
    no issue under any agent, or when its overall status is [pass]; the
    primary path returns the [should_continue] of the proposal, [False] when
    the proposal has none. *)
Theorem decision_without_failing_checks
    (json_loads : string → option json) (self : ContextManager)
    (rep : TestReport.t) (raw : string) (parsed : list (string * json))
    (items : list json) :
  test_report self = Some rep →
  existsb is_failed (TestReport.test_cases rep) = false →
  ((∀ a issues, (a, issues) ∈ TestReport.issues_by_agent rep → issues = []) ∨
   String.eqb (Py.lower (TestReport.overall_status rep)) "pass" = true →
   ∃ d, _get_fallback_decision self = Ret d ∧
        should_continue d = JBool false ∧ agents_to_rerun d = []) ∧
  (safe_parse_json json_loads raw None = (true, PData (JObj parsed)) →
   py_iter (get_or "agents_to_rerun" (JArr []) parsed) = Ret items →
   ∃ d, _get_manager_decision json_loads self (Ret raw) = Ret d ∧
        should_continue d = get_or "should_continue" (JBool false) parsed).
Proof.
  intros Hrep Hnf. split.
  - intros Hcase. rewrite (fallback_decision_stored self rep Hrep). rewrite Hnf.
    destruct Hcase as [Hnone|Hpass].
    + assert (Hempty : _get_agents_with_issues_from_report self = ∅).
      { apply elem_of_equiv_empty_L. intros a Ha.
        apply (elem_of_agents_with_issues self rep a Hrep) in Ha
          as [(iss & Hin & Hne)|(tc & Hin & Hf & _)].
        - by apply Hnone in Hin.
        - apply (no_failed_case _ Hnf) in Hin. congruence. }
      rewrite Hempty. rewrite bool_decide_eq_false_2 by (intros H; by apply H).
      destruct (_ && _); eauto.
    + rewrite Hpass. simpl. eauto.
  - intros Hparse Hiter. unfold _get_manager_decision. rewrite Hparse, Hiter. eauto.
Qed.

Lemma decision_without_failing_checks_witness :
  (∃ d, _get_fallback_decision (Ex.context_with Ex.report_clean) = Ret d ∧
        should_continue d = JBool false ∧ agents_to_rerun d = []) ∧
  (∃ d, _get_manager_decision Json.loads (Ex.context_with Ex.report_clean)
          (Ret Ex.proposal_raw) = Ret d ∧
        should_continue d = JBool true).
Proof.
  destruct (decision_without_failing_checks Json.loads
              (Ex.context_with Ex.report_clean) Ex.report_clean
              Ex.proposal_raw Ex.proposal_parsed
              [JStr "architect"; JStr "devops"; JInt 7]
              eq_refl eq_refl) as [Hf Hp].
  split.
  - apply Hf. left. intros a issues Hin. unfold Ex.report_clean in Hin. simpl in Hin.
    unfold TestReport.default_issues_by_agent in Hin.
    rewrite !elem_of_cons, elem_of_nil in Hin.
    destruct Hin as [H|[H|[H|[H|[]]]]]; by inversion H.
  - apply Hp; vm_compute; reflexivity.
Defined.

(** C2 fails as stated on both paths: with no failing test case the
    fallback continues when an issue is listed under an agent, and the
    primary path continues when the proposal says so. *)
Lemma decision_continues_without_failing_checks :
  existsb is_failed (TestReport.test_cases Ex.report_issue_only) = false ∧
  (∃ d, _get_fallback_decision (Ex.context_with Ex.report_issue_only) = Ret d ∧
        should_continue d = JBool true ∧
        agents_to_rerun d =
          [AGENT_ARCHITECT; AGENT_BACKEND_ENGINEER; AGENT_FRONTEND_ENGINEER]) ∧
  existsb is_failed (TestReport.test_cases Ex.report_clean) = false ∧
  (∃ d, _get_manager_decision Json.loads (Ex.context_with Ex.report_clean)
          (Ret Ex.proposal_raw) = Ret d ∧
        should_continue d = JBool true).
Proof.
  split; [reflexivity|]. split.
  - eexists. split; [vm_compute; reflexivity|]. split; reflexivity.
  - split; [reflexivity|].
    eexists. split; [vm_compute; reflexivity|]. reflexivity.
Qed.

Lemma is_failed_eq (tc : TestCase.t) :
  is_failed tc = true ↔ Py.lower (TestCase.status tc) = "fail".
Proof. unfold is_failed. apply String.eqb_eq. Qed.

Lemma owns_a_failure_spec (self : ContextManager) (rep : TestReport.t) (a : string) :
  test_report self = Some rep →
  a ∈ _get_agents_with_issues_from_report self ↔ owns_a_failure rep a.
Proof.
  intros Hrep. rewrite (elem_of_agents_with_issues self rep a Hrep).
  unfold owns_a_failure. by setoid_rewrite is_failed_eq.
Qed.

Lemma passes_qa_spec (rep : TestReport.t) :
  String.eqb (Py.lower (TestReport.overall_status rep)) "pass"
  && negb (existsb is_failed (TestReport.test_cases rep)) = true
  ↔ passes_qa rep.
Proof.
  unfold passes_qa. rewrite andb_true_iff, String.eqb_eq, negb_true_iff.
  split; intros [Ho Hf]; (split; [exact Ho|]).
  - intros tc Htc Hfail. apply is_failed_eq in Hfail.
    assert (existsb is_failed (TestReport.test_cases rep) = true); [|congruence].
    apply existsb_exists. exists tc. split; [by apply list_elem_of_In|done].
  - apply not_true_is_false. intros (tc & Htc & Hfail)%existsb_exists.
    apply list_elem_of_In in Htc. apply is_failed_eq in Hfail. by apply (Hf tc).
Qed.

(** C5, as the code has it.  On a stored report the fallback first defers
    to the QA check: a report that passes (overall status pass, no test case
    with status fail) gives a decision to stop with nobody to re-run,
    whatever issues it lists.  Otherwise the owners are the keys of
    [issues_by_agent] with at least one issue together with the responsible
    agents, when named, of the test cases with status fail; the fallback
    continues exactly when there is an owner, and re-runs the stages of the
    plan among the owners and the stages downstream of them, in execution
    order; a stage of the plan that owns a failing check is re-run, with
    every stage downstream of it. *)
Theorem fallback_decision_rule (self : ContextManager) (rep : TestReport.t) :
  test_report self = Some rep →
  ∃ (owners : gset string) (d : ManagerDecision),
    (∀ a, a ∈ owners ↔ owns_a_failure rep a) ∧
    _get_fallback_decision self = Ret d ∧
    (_check_qa_passed (mkResult true (Some rep) "" None) = Ret true ↔ passes_qa rep) ∧
    (passes_qa rep → should_continue d = JBool false ∧ agents_to_rerun d = []) ∧
    (¬ passes_qa rep →
     agents_to_rerun d = _add_agent_dependencies (elements owners) ∧
     should_continue d = JBool (bool_decide (owners ≠ ∅)) ∧
     (should_continue d = JBool true ↔ ∃ a, owns_a_failure rep a) ∧
     (∀ x, x ∈ agents_to_rerun d ↔
           x ∈ execution_order ∧
           (owns_a_failure rep x ∨ ∃ a, owns_a_failure rep a ∧ downstream a x)) ∧
     (∀ S, S ∈ execution_order → owns_a_failure rep S →
           S ∈ agents_to_rerun d ∧ ∀ b, downstream S b → b ∈ agents_to_rerun d) ∧
     (∀ tc, tc ∈ TestReport.test_cases rep → is_failed tc = true →
            TestCase.responsible_agent tc ∈ execution_order →
            TestCase.responsible_agent tc ∈ agents_to_rerun d ∧
            ∀ b, downstream (TestCase.responsible_agent tc) b → b ∈ agents_to_rerun d)).
Proof.
  intros Hrep.
  set (owners := _get_agents_with_issues_from_report self).
  assert (Hown : ∀ a, a ∈ owners ↔ owns_a_failure rep a)
    by (intros a; by apply owns_a_failure_spec).
  pose proof (fallback_decision_stored self rep Hrep) as Hfb. cbv zeta in Hfb.
  fold owners in Hfb.
  pose proof (passes_qa_spec rep) as Hpass.
  pose proof (check_qa_passed_stored rep) as Hcheck.
  assert (Hmem : ∀ x, x ∈ _add_agent_dependencies (elements owners) ↔
             x ∈ execution_order ∧
             (owns_a_failure rep x ∨ ∃ a, owns_a_failure rep a ∧ downstream a x)).
  { intros x. rewrite elem_of_add_agent_dependencies.
    rewrite elem_of_elements, Hown. setoid_rewrite elem_of_elements.
    by setoid_rewrite Hown. }
  assert (Hnil : owners = ∅ → _add_agent_dependencies (elements owners) = []).
  { intros ->. rewrite elements_empty. reflexivity. }
  assert (Hne : owners ≠ ∅ ↔ ∃ a, owns_a_failure rep a).
  { split.
    - intros Hn. apply set_choose_L in Hn as [a Ha]. exists a. by apply Hown.
    - intros [a Ha] He. apply Hown in Ha. rewrite He in Ha.
      by apply not_elem_of_empty in Ha. }
  exists owners.
  destruct (String.eqb (Py.lower (TestReport.overall_status rep)) "pass"
            && negb (existsb is_failed (TestReport.test_cases rep))) eqn:Eg.
  - assert (Hp : passes_qa rep) by (by apply Hpass).
    eexists. split; [exact Hown|]. split; [exact Hfb|].
    split; [by rewrite Hcheck|].
    split; [done|]. intros Hn. by destruct Hn.
  - assert (Hnp : ¬ passes_qa rep) by (intros H; apply Hpass in H; congruence).
    exists (mkDecision (JBool (bool_decide (owners ≠ ∅)))
              (_add_agent_dependencies (elements owners))
              (if bool_decide (owners ≠ ∅)
               then JStr ("Issues found for: " +:+ Py.join ", " (elements owners))
               else JStr "No specific agents identified with issues")
              (if bool_decide (owners ≠ ∅) then JStr "Fix identified issues" else JStr "")).
    cbn [should_continue agents_to_rerun].
    split; [exact Hown|]. split.
    { rewrite Hfb. destruct (bool_decide (owners ≠ ∅)) eqn:E; [done|].
      apply bool_decide_eq_false in E. rewrite Hnil; [done|].
      destruct (decide (owners = ∅)); [done|contradiction]. }
    split.
    { rewrite Hcheck. split; [intros [= H]; congruence|intros H; contradiction]. }
    split; [intros H; contradiction|]. intros _.
    split; [done|]. split; [done|]. split.
    { rewrite <- Hne. split.
      - intros [= H]. by apply bool_decide_eq_true in H.
      - intros H. by rewrite bool_decide_eq_true_2. }
    split; [exact Hmem|]. split.
    + intros S HS Ho. split.
      * apply Hmem. auto.
      * intros b Hb. apply Hmem. split; [by eapply downstream_known|]. right. eauto.
    + intros tc Htc Hf Hknown.
      assert (Ho : owns_a_failure rep (TestCase.responsible_agent tc)).
      { right. exists tc. split; [done|]. split; [by apply is_failed_eq|].
        split; [done|]. intros Hn. rewrite Hn in Hknown.
        unfold execution_order in Hknown. rewrite !elem_of_cons, elem_of_nil in Hknown.
        destruct Hknown as [H|[H|[H|[H|[]]]]]; discriminate. }
      split.
      * apply Hmem. auto.
      * intros b Hb. apply Hmem. split; [by eapply downstream_known|]. right. eauto.
Qed.

Lemma fallback_decision_rule_witness :
  (∃ d, _get_fallback_decision (Ex.context_with Ex.report_two_design_failures) = Ret d ∧
        agents_to_rerun d =
          [AGENT_ARCHITECT; AGENT_BACKEND_ENGINEER; AGENT_FRONTEND_ENGINEER] ∧
        should_continue d = JBool true) ∧
  (∃ d, _get_fallback_decision (Ex.context_with Ex.report_issue_only) = Ret d ∧
        AGENT_ARCHITECT ∈ agents_to_rerun d ∧
        AGENT_FRONTEND_ENGINEER ∈ agents_to_rerun d) ∧
  (∃ d, _get_fallback_decision (Ex.context_with Ex.report_pass_with_issue) = Ret d ∧
        should_continue d = JBool false ∧ agents_to_rerun d = []).
Proof.
  split; [|split].
  - destruct (fallback_decision_rule (Ex.context_with Ex.report_two_design_failures)
                Ex.report_two_design_failures eq_refl)
      as (owners & d & _ & Hd & _ & _ & Hfail).
    destruct Hfail as (_ & _ & Hs & _).
    { intros [H _]. vm_compute in H. discriminate H. }
    exists d. split; [exact Hd|]. split.
    + vm_compute in Hd. by injection Hd as <-.
    + apply Hs. exists AGENT_ARCHITECT. right. exists (Ex.tc_fail_design "TC001").
      split; [by left|]. split; [reflexivity|]. split; [reflexivity|discriminate].
  - destruct (fallback_decision_rule (Ex.context_with Ex.report_issue_only)
                Ex.report_issue_only eq_refl)
      as (owners & d & _ & Hd & _ & _ & Hfail).
    destruct Hfail as (_ & _ & _ & _ & Hstage & _).
    { intros [H _]. vm_compute in H. discriminate H. }
    exists d. split; [exact Hd|].
    destruct (Hstage AGENT_ARCHITECT) as [Ha Hdown].
    { unfold execution_order. by right; left. }
    { left. exists ["API contract mismatch"]. split; [by right; left|discriminate]. }
    split; [exact Ha|]. apply Hdown.
    exists [AGENT_BACKEND_ENGINEER; AGENT_FRONTEND_ENGINEER].
    split; [reflexivity|by right; left].
  - destruct (fallback_decision_rule (Ex.context_with Ex.report_pass_with_issue)
                Ex.report_pass_with_issue eq_refl)
      as (owners & d & _ & Hd & _ & Hpass & _).
    exists d. split; [exact Hd|]. apply Hpass. split; [reflexivity|].
    intros tc [->|H]%elem_of_cons; [discriminate|by apply elem_of_nil in H].
Defined.

(** C5 fails as stated.  When the only agent held responsible is no stage
    of the plan the fallback continues with nothing to re-run; when the
    report passes the QA check the fallback stops and re-runs nothing, also
    when an issue is listed for a stage. *)
Lemma fallback_decision_not_the_stated_rule :
  (∃ d, _get_fallback_decision (Ex.context_with Ex.report_unknown_owner) = Ret d ∧
        should_continue d = JBool true ∧ agents_to_rerun d = []) ∧
  (_get_agents_with_issues_from_report (Ex.context_with Ex.report_pass_with_issue)
     = {[AGENT_ARCHITECT]} ∧
   ∃ d, _get_fallback_decision (Ex.context_with Ex.report_pass_with_issue) = Ret d ∧
        should_continue d = JBool false ∧ agents_to_rerun d = []).
Proof.
  split.
  - eexists. split; [vm_compute; reflexivity|]. split; reflexivity.
  - split; [vm_compute; reflexivity|].
    eexists. split; [vm_compute; reflexivity|]. split; reflexivity.
Qed.

(* ================================================================== *)
(** * The context manager *)
(* ================================================================== *)


Lemma slot_after_history {D} (slot : ContextManager → option D)
    (sel : update → option (StageResult D)) :
  (∀ self u, slot (apply_update self u)
             = match sel u with
               | Some r => if success r then data r else slot self
               | None => slot self
               end) →
  ∀ history self,
    slot (foldl apply_update self history)
    = most_recent_success (slot self) (omap sel history).
Proof.
  intros Hupd history. unfold most_recent_success.
  induction history as [|u history IH] using rev_ind; intros self; [done|].
  rewrite foldl_app, omap_app, filter_app. cbn [foldl omap list_omap].
  rewrite Hupd, IH. destruct (sel u) as [r|]; cbn.
  - destruct (success r) eqn:E.
    + rewrite decide_True by done. by rewrite last_snoc.
    + rewrite decide_False by congruence. by rewrite app_nil_r.
  - by rewrite app_nil_r.
Qed.

Lemma vibe_prompt_after_history (history : list update) (self : ContextManager) :
  vibe_prompt (foldl apply_update self history) = vibe_prompt self.
Proof.
  revert self. induction history as [|u history IH]; intros self; [done|].
  cbn [foldl]. rewrite IH.
  destruct u as [r|r|r|r|r]; cbn [apply_update];
    unfold update_user_stories, update_system_design, update_backend_code,
      update_frontend_code, update_test_report; by destruct (success r).
Qed.

(** C9, as the code has it.  Under every sequence of calls of the five
    update methods, in any order, each slot holds the data of the most
    recent successful result of its own stage, or what it held before when
    the stage has no successful result in the sequence; the requirement text
    is never touched, a failed result changes nothing, and the raw text of a
    result is stored nowhere.  The context of a first run is a function of
    the stored results of the upstream stages alone; the context of a
    re-run depends, besides, on the stage's own stored result and on the
    stored test report. *)
Theorem context_from_stored_results (c1 c2 : ContextManager) :
  (* the slots *)
  ((∀ history,
      vibe_prompt (foldl apply_update c1 history) = vibe_prompt c1 ∧
      user_stories (foldl apply_update c1 history)
      = most_recent_success (user_stories c1) (user_stories_results history) ∧
      system_design (foldl apply_update c1 history)
      = most_recent_success (system_design c1) (system_design_results history) ∧
      backend_code (foldl apply_update c1 history)
      = most_recent_success (backend_code c1) (backend_code_results history) ∧
      frontend_code (foldl apply_update c1 history)
      = most_recent_success (frontend_code c1) (frontend_code_results history) ∧
      test_report (foldl apply_update c1 history)
      = most_recent_success (test_report c1) (test_report_results history)) ∧
   (∀ r, success r = false → update_user_stories c1 r = c1) ∧
   (∀ r, success r = false → update_system_design c1 r = c1) ∧
   (∀ r, success r = false → update_backend_code c1 r = c1) ∧
   (∀ r, success r = false → update_frontend_code c1 r = c1) ∧
   (∀ r, success r = false → update_test_report c1 r = c1)) ∧
  (* first run *)
  ((vibe_prompt c1 = vibe_prompt c2 →
    get_context_for_product_owner c1 false = get_context_for_product_owner c2 false) ∧
   (user_stories c1 = user_stories c2 →
    get_context_for_architect c1 false = get_context_for_architect c2 false) ∧
   (user_stories c1 = user_stories c2 → system_design c1 = system_design c2 →
    get_context_for_backend_engineer c1 false
    = get_context_for_backend_engineer c2 false) ∧
   (user_stories c1 = user_stories c2 → system_design c1 = system_design c2 →
    backend_code c1 = backend_code c2 →
    get_context_for_frontend_engineer c1 false
    = get_context_for_frontend_engineer c2 false) ∧
   (user_stories c1 = user_stories c2 → system_design c1 = system_design c2 →
    backend_code c1 = backend_code c2 → frontend_code c1 = frontend_code c2 →
    get_context_for_qa_engineer c1 = get_context_for_qa_engineer c2)) ∧
  (* re-run *)
  (test_report c1 = test_report c2 →
   (vibe_prompt c1 = vibe_prompt c2 → user_stories c1 = user_stories c2 →
    get_context_for_product_owner c1 true = get_context_for_product_owner c2 true) ∧
   (user_stories c1 = user_stories c2 → system_design c1 = system_design c2 →
    get_context_for_architect c1 true = get_context_for_architect c2 true) ∧
   (user_stories c1 = user_stories c2 → system_design c1 = system_design c2 →
    backend_code c1 = backend_code c2 →
    get_context_for_backend_engineer c1 true
    = get_context_for_backend_engineer c2 true) ∧
   (user_stories c1 = user_stories c2 → system_design c1 = system_design c2 →
    backend_code c1 = backend_code c2 → frontend_code c1 = frontend_code c2 →
    get_context_for_frontend_engineer c1 true
    = get_context_for_frontend_engineer c2 true)).
Proof.
  split; [|split].
  - split.
    + intros history. split; [apply vibe_prompt_after_history|].
      repeat split; apply slot_after_history; intros self u;
        destruct u as [r|r|r|r|r]; cbn [apply_update];
        unfold update_user_stories, update_system_design, update_backend_code,
          update_frontend_code, update_test_report; by destruct (success r).
    + repeat split; intros r Hr;
        unfold update_user_stories, update_system_design, update_backend_code,
          update_frontend_code, update_test_report; by rewrite Hr.
  - unfold get_context_for_product_owner, get_context_for_architect,
      get_context_for_backend_engineer, get_context_for_frontend_engineer,
      get_context_for_qa_engineer, _format_user_stories_summary,
      _format_system_design_summary, _format_backend_endpoints_summary,
      _format_backend_code_full, _format_frontend_code_full.
    repeat split; intros;
      repeat match goal with H : _ c1 = _ c2 |- _ => rewrite H; clear H end;
      reflexivity.
  - intros Htr.
    unfold get_context_for_product_owner, get_context_for_architect,
      get_context_for_backend_engineer, get_context_for_frontend_engineer,
      iteration_parts, _format_previous_output_summary, _format_qa_feedback,
      _format_user_stories_summary, _format_system_design_summary,
      _format_backend_endpoints_summary.
    repeat split; intros;
      repeat match goal with H : _ c1 = _ c2 |- _ => rewrite H; clear H end;
      reflexivity.
Qed.

Lemma context_from_stored_results_witness :
  user_stories (foldl apply_update new_context Ex2.interleaved) = Some Ex2.stories ∧
  system_design (foldl apply_update new_context Ex2.interleaved) = Some Ex2.design ∧
  backend_code (foldl apply_update new_context Ex2.interleaved) = None ∧
  update_user_stories Ex2.context_a Ex2.failed_stories = Ex2.context_a ∧
  get_context_for_architect Ex2.context_a false
  = get_context_for_architect Ex2.context_b false.
Proof.
  destruct (context_from_stored_results Ex2.context_a Ex2.context_b)
    as [(_ & Hfail & _) [(_ & Harch & _) _]].
  destruct (context_from_stored_results new_context new_context)
    as [(Hslot & _) _].
  destruct (Hslot Ex2.interleaved) as (_ & Hus & Hsd & Hbc & _).
  split; [|split; [|split; [|split]]].
  - rewrite Hus. reflexivity.
  - rewrite Hsd. reflexivity.
  - rewrite Hbc. reflexivity.
  - apply Hfail. reflexivity.
  - apply Harch. reflexivity.
Defined.

(** C9 fails as stated for a re-run: two contexts that agree on the user
    stories, the only upstream result of the architect, give the architect
    different contexts when their stored test reports differ. *)
Lemma rerun_context_depends_on_test_report :
  user_stories Ex2.context_a = user_stories Ex2.context_b ∧
  get_context_for_architect Ex2.context_a true
  ≠ get_context_for_architect Ex2.context_b true.
Proof.
  split; [reflexivity|].
  intros H. vm_compute in H. discriminate H.
Qed.

(* ================================================================== *)
(** * The recovery ladder never raises *)
(* ================================================================== *)


Lemma find_l_range (c : ascii) (l : list ascii) :
  Py.find_l c l = (-1)%Z ∨ (0 ≤ Py.find_l c l < Z.of_nat (length l))%Z.
Proof.
  induction l as [|a l IH]; simpl; [by left|].
  destruct (Ascii.eqb a c); [right; lia|].
  destruct (Z.ltb_spec (Py.find_l c l) 0); [by left|right; lia].
Qed.

Lemma first_json_like_nonempty (ms : list string) (m : string) :
  first_json_like ms = Some m → Py.nonempty m = true.
Proof.
  induction ms as [|x ms IH]; simpl; [discriminate|].
  destruct (_ || _) eqn:E; [|exact IH].
  intros [= <-]. destruct (Py.strip x); [|done].
  by vm_compute in E.
Qed.

Lemma between_nonempty (open close : ascii) (text t : string) :
  between open close text = Some t → Py.nonempty t = true.
Proof.
  unfold between.
  destruct (negb _ && _) eqn:E; [|discriminate].
  intros [= <-]. apply andb_true_iff in E as [E1 E2].
  apply negb_true_iff, Z.eqb_neq in E1. apply Z.ltb_lt in E2.
  destruct (find_l_range open (Py.chars text)) as [H|H]; [done|].
  apply nonempty_chars. rewrite chars_of_chars. unfold Py.slice_l.
  intros Hnil. apply (f_equal length) in Hnil.
  rewrite length_take, length_drop in Hnil. simpl in Hnil. lia.
Qed.

Lemma extract_json_nonempty (text json_str : string) :
  extract_json_from_text text = Some json_str → Py.nonempty json_str = true.
Proof.
  unfold extract_json_from_text.
  destruct (negb (Py.nonempty text)); [discriminate|].
  set (t := Py.strip text).
  assert (Hsw : ∀ s p, Py.startswith s (String p "") = true → Py.nonempty s = true).
  { intros [|a s] p; [|done]. unfold Py.startswith. simpl. discriminate. }
  destruct (Py.startswith t "{" && Py.endswith t "}") eqn:E1.
  { intros [= <-]. apply andb_true_iff in E1 as [E1 _]. by eapply Hsw. }
  destruct (Py.startswith t "[" && Py.endswith t "]") eqn:E2.
  { intros [= <-]. apply andb_true_iff in E2 as [E2 _]. by eapply Hsw. }
  destruct (first_in_patterns _ t) as [m|] eqn:E3.
  { intros [= <-]. unfold first_in_patterns in E3.
    repeat (destruct (first_json_like _) eqn:E in E3;
            [injection E3 as <-; by eapply first_json_like_nonempty|clear E]).
    discriminate. }
  destruct (between "{" "}" t) eqn:E4.
  { intros [= <-]. by eapply between_nonempty. }
  apply between_nonempty.
Qed.

(** What [safe_parse_json] returns: [True] with a model or a document, or
    [False] with one of three messages. *)
Lemma safe_parse_json_shape (json_loads : string → option json) (text : string)
    (mc : option model_class) :
  match safe_parse_json json_loads text mc with
  | (true, PModel _) | (true, PData _) => True
  | (false, PError msg) => msg ∈ failure_messages
  | _ => False
  end.
Proof.
  unfold safe_parse_json, failure_messages.
  assert (Htl : ∀ s r, try_load json_loads s mc = Some r →
                match r with PError _ => False | _ => True end).
  { unfold try_load. intros s r. destruct (json_loads s); [|discriminate].
    destruct mc as [c|]; [|by intros [= <-]].
    destruct (model_validate c j); simpl; [by intros [= <-]|discriminate]. }
  destruct (negb (Py.nonempty text)); [repeat constructor|].
  destruct (extract_json_from_text text) as [js|]; [|repeat constructor].
  destruct (negb (Py.nonempty js)); [repeat constructor|].
  repeat (match goal with
          | |- context [try_load json_loads ?s mc] =>
              let E := fresh "E" in
              destruct (try_load json_loads s mc) as [r|] eqn:E;
              [apply Htl in E; by destruct r|]
          end).
  destruct mc as [c|]; [|repeat constructor].
  destruct (recover_truncated_output text c); [done|repeat constructor].
Qed.

Lemma safe_parse_json_exhausted (json_loads : string → option json) (text : string)
    (mc : option model_class) :
  ladder_exhausted json_loads text mc →
  safe_parse_json json_loads text mc
  = (false, PError "Failed to parse JSON after all attempts").
Proof.
  intros (js & Hne & Hex & H2 & H3 & H4 & H5). unfold safe_parse_json.
  rewrite Hne, Hex. simpl. rewrite (extract_json_nonempty _ _ Hex). simpl.
  rewrite H2, H3, H4. destruct mc as [c|]; [by rewrite H5|done].
Qed.

(** C4.  [_extract_output] returns a result for every task output and
    schema, with the raw text kept as it came: a success carries data and no
    error, a failure carries no data and one of the three messages of
    [safe_parse_json]; when no structured output came with the text and
    every rung of the ladder fails, the result is a failure with the message
    that parsing failed after all attempts. *)
Theorem extract_output_never_raises (json_loads : string → option json)
    (task_output : TaskOutput) (schema_class : option model_class) :
  ∃ r, _extract_output json_loads task_output schema_class = r ∧
       raw r = to_raw task_output ∧
       (if success r then is_Some (data r) ∧ error r = None
        else data r = None ∧ ∃ msg, error r = Some msg ∧ msg ∈ failure_messages) ∧
       (pydantic task_output = None →
        (∀ j, json_dict task_output = Some j → truthy j = false) →
        ladder_exhausted json_loads (to_raw task_output) schema_class →
        r = mkResult false None (to_raw task_output)
              (Some "Failed to parse JSON after all attempts")).
Proof.
  eexists. split; [reflexivity|].
  pose proof (safe_parse_json_shape json_loads (to_raw task_output) schema_class) as Hs.
  unfold _extract_output.
  destruct (pydantic task_output) as [m|] eqn:Ep.
  { simpl. repeat split; eauto. discriminate. }
  destruct (json_dict task_output) as [j|] eqn:Ej.
  - destruct (truthy j) eqn:Et.
    { simpl. repeat split; eauto. intros _ Hj. specialize (Hj j eq_refl). congruence. }
    destruct (safe_parse_json _ _ _) as [[|] p] eqn:E; simpl.
    + repeat split; eauto. intros _ _ Hex.
      rewrite (safe_parse_json_exhausted _ _ _ Hex) in E. discriminate.
    + destruct p; try done. simpl. repeat split; eauto. intros _ _ Hex.
      rewrite (safe_parse_json_exhausted _ _ _ Hex) in E. congruence.
  - destruct (safe_parse_json _ _ _) as [[|] p] eqn:E; simpl.
    + repeat split; eauto. intros _ _ Hex.
      rewrite (safe_parse_json_exhausted _ _ _ Hex) in E. discriminate.
    + destruct p; try done. simpl. repeat split; eauto. intros _ _ Hex.
      rewrite (safe_parse_json_exhausted _ _ _ Hex) in E. congruence.
Qed.

Lemma extract_output_never_raises_witness :
  _extract_output Json.loads Ex3.hopeless_output (Some ClsUserStoriesOutput)
  = mkResult false None Ex3.hopeless_raw
      (Some "Failed to parse JSON after all attempts").
Proof.
  destruct (extract_output_never_raises Json.loads Ex3.hopeless_output
              (Some ClsUserStoriesOutput)) as (r & <- & _ & _ & Hex).
  apply Hex; [reflexivity|discriminate|].
  exists Ex3.hopeless_raw. vm_compute. repeat split.
Defined.

(* ================================================================== *)
(** * Facts about the matcher *)
(* ================================================================== *)

Lemma firstn_length_diff {A} (w rest : list A) :
  firstn (length (w ++ rest) - length rest) (w ++ rest) = w.
Proof.
  rewrite length_app. replace (length w + length rest - length rest) with (length w) by lia.
  by rewrite take_app_length.
Qed.

(** Whatever [run] returns comes from a word of the language of the
    pattern at the head of the text, followed by the continuation. *)
Lemma run_sound (r : Re.regex) :
  ∀ s cs k res, Re.run r s cs k = Some res →
    ∃ w rest cs', s = w ++ rest ∧ Re.lang r w rest cs cs' ∧ k rest cs' = Some res.
Proof.
  induction r as [|c|neg items|dotall| |r1 IH1 r2 IH2|r1 IH1 r2 IH2|g r1 IH1|i r1 IH1];
    intros s cs k res; simpl.
  - intros H. exists [], s, cs. split; [done|]. split; [constructor|done].
  - destruct s as [|a s]; [discriminate|].
    destruct (Ascii.eqb_spec a c) as [->|]; [|discriminate].
    intros H. exists [c], s, cs. split; [done|]. split; [constructor|done].
  - destruct s as [|a s]; [discriminate|].
    destruct (Re.in_class neg items a) eqn:E; [|discriminate].
    intros H. exists [a], s, cs. split; [done|]. split; [by constructor|done].
  - destruct s as [|a s]; [discriminate|].
    destruct (dotall || negb (Ascii.eqb a Re.newline)) eqn:E; [|discriminate].
    intros H. exists [a], s, cs. split; [done|]. split; [by constructor|done].
  - destruct s as [|a [|b s]]; [| |discriminate].
    + intros H. exists [], [], cs. split; [done|]. split; [constructor; by left|done].
    + destruct (Ascii.eqb_spec a Re.newline) as [->|]; [|discriminate].
      intros H. exists [], [Re.newline], cs.
      split; [done|]. split; [constructor; by right|done].
  - intros H. apply IH1 in H as (w1 & rest1 & cs1 & -> & L1 & H).
    apply IH2 in H as (w2 & rest & cs2 & -> & L2 & H).
    exists (w1 ++ w2), rest, cs2. rewrite <- app_assoc.
    split; [done|]. split; [by econstructor|done].
  - destruct (Re.run r1 s cs k) eqn:E.
    + intros [= <-]. apply IH1 in E as (w & rest & cs' & -> & L & H).
      exists w, rest, cs'. split; [done|]. split; [by apply Re.L_AltL|done].
    + intros H. apply IH2 in H as (w & rest & cs' & -> & L & H).
      exists w, rest, cs'. split; [done|]. split; [by apply Re.L_AltR|done].
  - generalize (length s) as n. intros n. revert s cs.
    induction n as [|n IHn]; intros s cs; simpl.
    { intros H. exists [], s, cs. split; [done|]. split; [constructor|done]. }
    assert (Hstep : Re.run r1 s cs (λ s' cs',
                if Nat.ltb (length s') (length s)
                then Re.star_loop (Re.run r1) g k n s' cs' else None) = Some res →
              ∃ w rest cs', s = w ++ rest ∧ Re.lang (Re.Star g r1) w rest cs cs' ∧
                            k rest cs' = Some res).
    { intros H. apply IH1 in H as (w1 & rest1 & cs1 & -> & L1 & H).
      destruct (Nat.ltb_spec (length rest1) (length (w1 ++ rest1))) as [Hlt|]; [|discriminate].
      apply IHn in H as (w2 & rest & cs2 & -> & L2 & H).
      exists (w1 ++ w2), rest, cs2. rewrite <- app_assoc.
      split; [done|]. split; [|done].
      econstructor; [exact L1| |exact L2].
      intros ->. simpl in Hlt. lia. }
    destruct g.
    + destruct (Re.run r1 s cs _) eqn:E.
      * intros [= <-]. by apply Hstep.
      * intros H. exists [], s, cs. split; [done|]. split; [constructor|done].
    + destruct (k s cs) eqn:E.
      * intros [= <-]. exists [], s, cs. split; [done|]. split; [constructor|done].
      * exact Hstep.
  - intros H. apply IH1 in H as (w & rest & cs' & -> & L & H).
    rewrite firstn_length_diff in H.
    exists w, rest, (Re.set_group i w cs'). split; [done|]. split; [by constructor|done].
Qed.

Lemma match_at_sound (r : Re.regex) (s : list ascii) (m : Re.mobj) :
  Re.match_at r s = Some m →
  ∃ rest, s = Re.m_text m ++ rest ∧ Re.lang r (Re.m_text m) rest [] (Re.m_caps m).
Proof.
  unfold Re.match_at. destruct (Re.run r s [] Re.ret) as [[rest cs]|] eqn:E; [|discriminate].
  intros [= <-]. simpl.
  apply run_sound in E as (w & rest' & cs' & -> & L & [= -> ->]).
  rewrite firstn_length_diff. eauto.
Qed.


Lemma finditer_l_sound (r : Re.regex) (m : Re.mobj) :
  ∀ s skip, m ∈ Re.finditer_l r skip s → found r s m.
Proof.
  induction s as [|c s IH]; intros skip; simpl.
  - destruct skip; [|by rewrite elem_of_nil].
    destruct (Re.match_at r []) as [m'|] eqn:E; [|by rewrite elem_of_nil].
    rewrite list_elem_of_singleton. intros ->.
    apply match_at_sound in E as (rest & Hs & L). exists [], rest. by split.
  - assert (Hext : found r s m → found r (c :: s) m).
    { intros (pre & post & -> & L). exists (c :: pre), post. by split. }
    destruct skip as [|n]; [|intros H; apply IH in H; by apply Hext].
    destruct (Re.match_at r (c :: s)) as [m'|] eqn:E.
    + rewrite elem_of_cons. intros [->|H]; [|apply IH in H; by apply Hext].
      apply match_at_sound in E as (rest & Hs & L). exists [], rest. by split.
    + intros H. apply IH in H. by apply Hext.
Qed.

Lemma finditer_sound (r : Re.regex) (text : string) (m : Re.mobj) :
  m ∈ Re.finditer r text → found r (Py.chars text) m.
Proof. apply finditer_l_sound. Qed.

(** ** The scan of a text, match by match *)



Lemma finditer_l_miss (r : Re.regex) (c : ascii) (X : list ascii) :
  Re.match_at r (c :: X) = None →
  Re.finditer_l r 0 (c :: X) = Re.finditer_l r 0 X.
Proof. intros H. cbn [Re.finditer_l]. by rewrite H. Qed.

Lemma finditer_l_nothing (r : Re.regex) (X : list ascii) :
  (∀ pre suf, X = pre ++ suf → Re.match_at r suf = None) →
  Re.finditer_l r 0 X = [].
Proof.
  induction X as [|c X IH]; intros H.
  - cbn. by rewrite (H [] []).
  - rewrite finditer_l_miss by (by apply (H [])).
    apply IH. intros pre suf ->. by apply (H (c :: pre)).
Qed.

(** ** The matcher on sequences and on repetitions of a character class *)

Lemma run_seq_cons (r : Re.regex) (rs : list Re.regex) s cs k :
  Re.run (Re.seq (r :: rs)) s cs k
  = Re.run r s cs (λ s' cs', Re.run (Re.seq rs) s' cs' k).
Proof. destruct rs; reflexivity. Qed.

Lemma run_chars (l : list ascii) s cs k :
  Re.run (Re.seq (map Re.Chr l)) s cs k
  = if Py.is_prefix l s then k (drop (length l) s) cs else None.
Proof.
  revert s. induction l as [|c l IH]; intros s; [done|].
  change (map Re.Chr (c :: l)) with (Re.Chr c :: map Re.Chr l).
  rewrite run_seq_cons. simpl.
  destruct s as [|a s]; [done|].
  rewrite Ascii.eqb_sym. destruct (Ascii.eqb c a); [apply IH|done].
Qed.

Lemma run_lit (p : string) s cs k :
  Re.run (Re.lit p) s cs k
  = if Py.is_prefix (Py.chars p) s then k (drop (length (Py.chars p)) s) cs else None.
Proof. apply run_chars. Qed.



Lemma run_star_greedy_class neg items s cs k :
  Re.run (Re.Star true (Re.Cls neg items)) s cs k
  = greedy_span (Re.in_class neg items) (λ s', k s' cs) s.
Proof.
  simpl.
  assert (G : ∀ n s, (length s ≤ n)%nat →
            Re.star_loop (Re.run (Re.Cls neg items)) true k n s cs
            = greedy_span (Re.in_class neg items) (λ s', k s' cs) s).
  { induction n as [|n IH]; intros [|a t] Hn; simpl in *; try done; try lia.
    destruct (Re.in_class neg items a); [|done].
    destruct (Nat.ltb_spec (length t) (S (length t))); [|lia].
    rewrite IH by lia. done. }
  by apply G.
Qed.

Lemma run_star_lazy_class neg items s cs k :
  Re.run (Re.Star false (Re.Cls neg items)) s cs k
  = lazy_span (Re.in_class neg items) (λ s', k s' cs) s.
Proof.
  simpl.
  assert (G : ∀ n s, (length s ≤ n)%nat →
            Re.star_loop (Re.run (Re.Cls neg items)) false k n s cs
            = lazy_span (Re.in_class neg items) (λ s', k s' cs) s).
  { induction n as [|n IH]; intros [|a t] Hn; simpl in *; try lia.
    - by destruct (k [] cs).
    - by destruct (k [] cs).
    - destruct (k (a :: t) cs); [done|].
      destruct (Re.in_class neg items a); [|done].
      destruct (Nat.ltb_spec (length t) (S (length t))); [|lia].
      apply IH. lia. }
  by apply G.
Qed.

(** ** The trailing comma *)


Lemma greedy_span_eos (s : list ascii) (cs : Re.caps) :
  greedy_span (Re.in_class false [Re.CSpace]) (λ s', Re.run Re.Eos s' cs Re.ret) s
  = if forallb Py.isspace s then Some ([], cs) else None.
Proof.
  induction s as [|a s IH]; [done|].
  cbn [greedy_span forallb]. rewrite IH.
  assert (Hc : Re.in_class false [Re.CSpace] a = Py.isspace a).
  { unfold Re.in_class. simpl. by rewrite orb_false_r. }
  rewrite Hc. destruct (Py.isspace a) eqn:Ea; simpl.
  - destruct (forallb Py.isspace s) eqn:Es; [done|].
    destruct s as [|b s]; [discriminate|done].
  - destruct s as [|b s]; [|done].
    destruct (Ascii.eqb_spec a Re.newline) as [->|]; [|done].
    by vm_compute in Ea.
Qed.

Lemma match_trailing_comma (c : ascii) (s : list ascii) :
  Re.match_at trailing_comma (c :: s)
  = if Ascii.eqb c "," && forallb Py.isspace s
    then Some {| Re.m_text := c :: s; Re.m_caps := [] |} else None.
Proof.
  unfold Re.match_at, trailing_comma.
  rewrite run_seq_cons. cbn [Re.run].
  destruct (Ascii.eqb c ","); [|done]. simpl andb.
  rewrite run_seq_cons. unfold Re.ws. rewrite run_star_greedy_class.
  change (λ s' : list ascii, Re.run (Re.seq [Re.Eos]) s' [] Re.ret)
    with (λ s' : list ascii, Re.run Re.Eos s' [] Re.ret).
  rewrite greedy_span_eos. destruct (forallb Py.isspace s); [|done].
  simpl. by rewrite firstn_all.
Qed.

Lemma sub_trailing_comma (l : list ascii) :
  Re.sub_l trailing_comma [] 0 l = drop_trailing_comma l.
Proof.
  assert (Hskip : ∀ t, Re.sub_l trailing_comma [] (length t) t = []).
  { induction t as [|a t IH]; [done|exact IH]. }
  induction l as [|c l IH]; [done|].
  cbn [Re.sub_l drop_trailing_comma]. rewrite match_trailing_comma.
  destruct (Ascii.eqb c "," && forallb Py.isspace l).
  - cbn. apply Hskip.
  - by rewrite IH.
Qed.

(** The text is what is left, followed by what was dropped: nothing, or a
    comma and white space. *)
Lemma drop_trailing_comma_spec (l : list ascii) :
  ∃ dropped, l = drop_trailing_comma l ++ dropped ∧
             (dropped = [] ∨ ∃ sp, dropped = ","%char :: sp ∧ forallb Py.isspace sp = true).
Proof.
  induction l as [|c l (d & Hd & Hcase)]; [exists []; auto|].
  simpl. destruct (Ascii.eqb_spec c ",") as [->|]; simpl.
  - destruct (forallb Py.isspace l) eqn:E.
    + exists (","%char :: l). split; [done|]. right. eauto.
    + exists d. split; [simpl; by f_equal|done].
  - exists d. split; [simpl; by f_equal|done].
Qed.

Lemma count_l_spaces (c : ascii) (sp : list ascii) :
  Py.isspace c = false → forallb Py.isspace sp = true → Py.count_l c sp = 0%Z.
Proof.
  intros Hc. unfold Py.count_l. induction sp as [|a sp IH]; [done|].
  simpl. intros [Ha Hsp]%andb_true_iff.
  rewrite filter_cons_False; [by apply IH|].
  intros He. apply Ascii.eqb_eq in He. congruence.
Qed.

Lemma count_l_cons_other (c a : ascii) (l : list ascii) :
  a ≠ c → Py.count_l c (a :: l) = Py.count_l c l.
Proof.
  intros Hne. unfold Py.count_l. rewrite filter_cons_False; [done|].
  intros He. by apply Ascii.eqb_eq in He.
Qed.

Lemma count_l_drop_trailing_comma (c : ascii) (l : list ascii) :
  c ≠ ","%char → Py.isspace c = false →
  Py.count_l c (drop_trailing_comma l) = Py.count_l c l.
Proof.
  intros Hc Hs. destruct (drop_trailing_comma_spec l) as (d & Hl & Hd).
  transitivity (Py.count_l c (drop_trailing_comma l ++ d)); [|by rewrite <- Hl].
  rewrite count_l_app.
  destruct Hd as [->|(sp & -> & Hsp)]; [unfold Py.count_l; simpl; lia|].
  rewrite count_l_cons_other by congruence. rewrite (count_l_spaces c sp) by done. lia.
Qed.


Lemma repair_truncated_json_chars (json_str : string) :
  Py.chars (repair_truncated_json json_str)
  = closed_and_trimmed json_str
    ++ Py.times "]" (Py.count json_str "[" - Py.count json_str "]")
    ++ Py.times "}" (Py.count json_str "{" - Py.count json_str "}").
Proof.
  unfold repair_truncated_json, closed_and_trimmed.
  destruct json_str as [|a t]; [reflexivity|].
  cbn [Py.nonempty negb]. cbv zeta.
  rewrite !chars_app, !chars_of_chars, <- app_assoc. f_equal.
  unfold Re.sub. rewrite chars_of_chars, sub_trailing_comma. f_equal.
  destruct (in_string_at_end _); [by rewrite chars_app|by rewrite app_nil_r].
Qed.

Lemma count_closed_and_trimmed (c : ascii) (json_str : string) :
  c ≠ ","%char → c ≠ Re.dquote → Py.isspace c = false →
  Py.count_l c (closed_and_trimmed json_str) = Py.count json_str c.
Proof.
  intros H1 H2 H3. unfold closed_and_trimmed.
  rewrite count_l_drop_trailing_comma by done. rewrite count_l_app.
  destruct (in_string_at_end json_str).
  - rewrite count_l_cons_other by congruence. unfold Py.count, Py.count_l. simpl. lia.
  - unfold Py.count, Py.count_l. simpl. lia.
Qed.

Lemma count_repaired (json_str : string) (c : ascii) :
  Py.count (repair_truncated_json json_str) c
  = (Py.count_l c (closed_and_trimmed json_str)
     + (Py.count_l c (Py.times "]" (Py.count json_str "[" - Py.count json_str "]"))
        + Py.count_l c (Py.times "}" (Py.count json_str "{" - Py.count json_str "}"))))%Z.
Proof.
  unfold Py.count at 1. by rewrite repair_truncated_json_chars, !count_l_app.
Qed.

(** C7, as the code has it.  The repair appends one double quote when the
    scan of quote parity (with backslash escapes) ends inside a string,
    drops a trailing comma with the white space after it, and appends
    closing brackets, then closing braces, for the excess of openers over
    closers, each kind counted on its own.  The openers of the output are
    those of the input; its closers are the closers of the input, or as many
    as there are openers if that is more.  So the counts of a kind balance
    in the output exactly when the input has no more closers of that kind
    than openers. *)
Theorem repair_truncated_json_counts (json_str : string) :
  let out := repair_truncated_json json_str in
  let closed :=
    Py.chars json_str ++ if in_string_at_end json_str then [Re.dquote] else [] in
  (∃ dropped,
     closed = closed_and_trimmed json_str ++ dropped ∧
     (dropped = [] ∨
      ∃ sp, dropped = ","%char :: sp ∧ forallb Py.isspace sp = true)) ∧
  Py.chars out
  = closed_and_trimmed json_str
    ++ Py.times "]" (Py.count json_str "[" - Py.count json_str "]")
    ++ Py.times "}" (Py.count json_str "{" - Py.count json_str "}") ∧
  Py.count out "{" = Py.count json_str "{" ∧
  Py.count out "}" = Z.max (Py.count json_str "}") (Py.count json_str "{") ∧
  Py.count out "[" = Py.count json_str "[" ∧
  Py.count out "]" = Z.max (Py.count json_str "]") (Py.count json_str "[") ∧
  ((Py.count json_str "}" ≤ Py.count json_str "{")%Z ↔
   Py.count out "{" = Py.count out "}") ∧
  ((Py.count json_str "]" ≤ Py.count json_str "[")%Z ↔
   Py.count out "[" = Py.count out "]").
Proof.
  intros out closed.
  assert (Hcounts :
    Py.count out "{" = Py.count json_str "{" ∧
    Py.count out "}" = Z.max (Py.count json_str "}") (Py.count json_str "{") ∧
    Py.count out "[" = Py.count json_str "[" ∧
    Py.count out "]" = Z.max (Py.count json_str "]") (Py.count json_str "[")).
  { unfold out. rewrite !count_repaired.
    rewrite !count_closed_and_trimmed by (done || (intros H; discriminate H)).
    rewrite !count_l_times_same.
    rewrite !count_l_times_other by (intros H; discriminate H).
    repeat split; lia. }
  split; [apply drop_trailing_comma_spec|].
  split; [apply repair_truncated_json_chars|].
  destruct Hcounts as (H1 & H2 & H3 & H4).
  repeat split; try done; rewrite ?H1, ?H2, ?H3, ?H4; lia.
Qed.

(** C7 fails as stated: a text with a closing brace and no opening one is
    returned as it is, with one closer more than openers. *)
Lemma repair_truncated_json_unbalanced :
  repair_truncated_json "}" = "}" ∧
  Py.count (repair_truncated_json "}") "{" ≠ Py.count (repair_truncated_json "}") "}".
Proof. split; [reflexivity|]. vm_compute. discriminate. Qed.

(** ** The fenced block *)

Lemma greedy_span_skip {R} (p : ascii → bool) (k : list ascii → option R)
    (w s : list ascii) (x : R) :
  forallb p w = true → greedy_span p k s = Some x → greedy_span p k (w ++ s) = Some x.
Proof.
  intros Hw Hs. induction w as [|a w IH]; [done|].
  simpl in *. apply andb_true_iff in Hw as [-> Hw]. by rewrite IH.
Qed.

Lemma greedy_span_stop {R} (p : ascii → bool) (k : list ascii → option R)
    (s : list ascii) (c : ascii) :
  head s = Some c → p c = false → greedy_span p k s = k s.
Proof. destruct s as [|a s]; [done|]. intros [= ->] Hc. simpl. by rewrite Hc. Qed.

Lemma greedy_span_none {R} (p : ascii → bool) (k : list ascii → option R)
    (s : list ascii) :
  (∀ u v, s = u ++ v → forallb p u = true → k v = None) → greedy_span p k s = None.
Proof.
  induction s as [|a s IH]; intros H; simpl.
  - by apply (H [] []).
  - destruct (p a) eqn:E; [|by apply (H [] (a :: s))].
    rewrite IH; [by apply (H [] (a :: s))|].
    intros u v -> Hu. apply (H (a :: u) v); [done|]. simpl. by rewrite E.
Qed.

Lemma lazy_span_first {R} (p : ascii → bool) (k : list ascii → option R)
    (body tail : list ascii) (x : R) :
  forallb p body = true →
  (∀ pre suf, body = pre ++ suf → suf ≠ [] → k (suf ++ tail) = None) →
  k tail = Some x →
  lazy_span p k (body ++ tail) = Some x.
Proof.
  intros Hp Hnone Htail. induction body as [|a body IH].
  - simpl. destruct tail; simpl; by rewrite Htail.
  - simpl in Hp. apply andb_true_iff in Hp as [Ha Hp].
    pose proof (Hnone [] (a :: body) eq_refl ltac:(done)) as H0.
    cbn [app lazy_span] in *. rewrite H0, Ha.
    apply IH; [done|]. intros pre suf -> Hsuf. by apply (Hnone (a :: pre) suf).
Qed.


(** A stretch of the body that reaches its end does not open a fence,
    whatever follows the body. *)
Lemma no_fence_in_suffix (body pre suf tail : list ascii) (cl : ascii) :
  Py.contains_l fence body = false → last body = Some cl → cl ≠ Re.backtick →
  body = pre ++ suf → suf ≠ [] →
  Py.is_prefix fence (suf ++ tail) = false.
Proof.
  intros Hno Hlast Hcl -> Hsuf.
  assert (Hlast' : last suf = Some cl).
  { rewrite last_app in Hlast. destruct (last suf) eqn:E; [done|].
    apply last_None in E. done. }
  assert (Hno' : Py.is_prefix fence suf = false).
  { clear -Hno. induction pre as [|a pre IH].
    - destruct suf; [done|]. cbn [app Py.contains_l] in Hno.
      by apply orb_false_iff in Hno as [? _].
    - cbn [app Py.contains_l] in Hno. apply orb_false_iff in Hno as [_ Hno].
      by apply IH. }
  change fence with [Re.backtick; Re.backtick; Re.backtick] in *.
  destruct suf as [|a [|b [|c suf]]]; [done| | |].
  - injection Hlast' as ->. cbn [Py.is_prefix app].
    destruct (Ascii.eqb_spec Re.backtick cl); [congruence|done].
  - rewrite last_cons_cons in Hlast'. injection Hlast' as ->. cbn [Py.is_prefix app].
    destruct (Ascii.eqb Re.backtick a); [|done].
    destruct (Ascii.eqb_spec Re.backtick cl); [congruence|done].
  - cbn [Py.is_prefix app] in *. exact Hno'.
Qed.

Lemma in_class_space (a : ascii) : Re.in_class false [Re.CSpace] a = Py.isspace a.
Proof. unfold Re.in_class. simpl. by rewrite orb_false_r. Qed.

Lemma in_class_any (a : ascii) :
  Re.in_class false [Re.CSpace; Re.CNotSpace] a = true.
Proof. unfold Re.in_class. simpl. by destruct (Py.isspace a). Qed.

Lemma greedy_span_ext {R} (p : ascii → bool) (k1 k2 : list ascii → option R)
    (s : list ascii) :
  (∀ s', k1 s' = k2 s') → greedy_span p k1 s = greedy_span p k2 s.
Proof.
  intros H. induction s as [|a s IH]; simpl; [done|]. by rewrite IH, H.
Qed.

Lemma greedy_span_space {R} (k : list ascii → option R) (s : list ascii) :
  greedy_span (Re.in_class false [Re.CSpace]) k s = greedy_span Py.isspace k s.
Proof.
  induction s as [|a s IH]; [done|]. cbn [greedy_span]. by rewrite in_class_space, IH.
Qed.

(** The end of the two fence patterns: white space, then the fence. *)
Lemma run_closing_fence (s : list ascii) (cs : Re.caps) :
  Re.run (Re.seq [Re.ws; Re.lit "```"]) s cs Re.ret
  = greedy_span Py.isspace
      (λ s', if Py.is_prefix fence s' then Some (drop 3 s', cs) else None) s.
Proof.
  rewrite run_seq_cons. unfold Re.ws. rewrite run_star_greedy_class.
  rewrite greedy_span_space. apply greedy_span_ext. intros s'.
  change (Re.seq [Re.lit "```"]) with (Re.lit "```"). by rewrite run_lit.
Qed.

Section Fenced.
Variables (w1 body w2 rest : list ascii) (c0 cl : ascii).
Hypothesis Hw1 : forallb Py.isspace w1 = true.
Hypothesis Hw2 : forallb Py.isspace w2 = true.
Hypothesis Hfirst : head body = Some c0.
Hypothesis Hc0 : Py.isspace c0 = false.
Hypothesis Hlast : last body = Some cl.
Hypothesis Hcl : Py.isspace cl = false.
Hypothesis Hcl' : cl ≠ Re.backtick.
Hypothesis Hno : Py.contains_l fence body = false.

Lemma closing_fence_at_tail (cs : Re.caps) :
  Re.run (Re.seq [Re.ws; Re.lit "```"]) (w2 ++ fence ++ rest) cs Re.ret = Some (rest, cs).
Proof using Hw2.
  rewrite run_closing_fence.
  apply greedy_span_skip; [done|]. reflexivity.
Qed.

Lemma closing_fence_not_in_body (pre suf : list ascii) (cs : Re.caps) :
  body = pre ++ suf → suf ≠ [] →
  Re.run (Re.seq [Re.ws; Re.lit "```"]) (suf ++ (w2 ++ fence ++ rest)) cs Re.ret = None.
Proof using Hlast Hcl Hcl' Hno.
  intros Hb Hsuf. rewrite run_closing_fence.
  apply greedy_span_none. intros u v Huv Hu.
  assert (Hs : last suf = Some cl).
  { rewrite Hb, last_app in Hlast. destruct (last suf) eqn:E; [done|].
    by apply last_None in E. }
  apply app_eq_inv in Huv as [(k & Hk1 & Hk2)|(k & Hk1 & Hk2)].
  - (* the white space ends inside the body *)
    destruct k as [|a k].
    { exfalso. rewrite app_nil_r in Hk1. subst u.
      apply last_Some in Hs as (l' & ->).
      rewrite forallb_app in Hu. apply andb_true_iff in Hu as [_ Hu].
      simpl in Hu. rewrite Hcl in Hu. done. }
    subst v. rewrite Hk1 in Hb. rewrite app_assoc in Hb.
    rewrite (no_fence_in_suffix body (pre ++ u) (a :: k) (w2 ++ fence ++ rest) cl); done.
  - (* the white space would cover the end of the body *)
    exfalso. subst u. apply last_Some in Hs as (l' & ->).
    rewrite !forallb_app in Hu. apply andb_true_iff in Hu as [Hu _].
    apply andb_true_iff in Hu as [_ Hu]. simpl in Hu. rewrite Hcl in Hu. done.
Qed.

(** Both fence patterns, after their opening: the group is the body. *)
Lemma run_fence_group :
  Re.run (Re.seq [Re.ws; Re.Group 1 anything_lazy; Re.ws; Re.lit "```"])
    (w1 ++ body ++ (w2 ++ fence ++ rest)) [] Re.ret
  = Some (rest, [(1, body)]).
Proof using All.
  rewrite run_seq_cons. unfold Re.ws at 1. rewrite run_star_greedy_class.
  rewrite greedy_span_space. apply greedy_span_skip; [done|].
  rewrite (greedy_span_stop _ _ _ c0);
    [|by destruct body; [|injection Hfirst as ->]|done].
  rewrite run_seq_cons. cbn [Re.run]. unfold anything_lazy.
  rewrite run_star_lazy_class.
  apply lazy_span_first.
  - clear. induction body as [|a l IH]; [done|].
    cbn [forallb]. by rewrite in_class_any.
  - intros pre suf Hb Hsuf. by apply closing_fence_not_in_body with pre.
  - rewrite closing_fence_at_tail. do 3 f_equal. unfold Re.set_group. do 2 f_equal.
    rewrite length_app.
    replace (length body + length (w2 ++ fence ++ rest) - length (w2 ++ fence ++ rest)) with (length body) by lia.
    by rewrite take_app_length.
Qed.
End Fenced.

Lemma startswith_head (s : string) (c : ascii) :
  Py.startswith s (String c "") = true → head (Py.chars s) = Some c.
Proof.
  unfold Py.startswith. destruct s as [|a s]; simpl; [discriminate|].
  rewrite andb_true_r. intros H. apply Ascii.eqb_eq in H. by subst.
Qed.

Lemma endswith_last (s : string) (c : ascii) :
  Py.endswith s (String c "") = true → last (Py.chars s) = Some c.
Proof.
  unfold Py.endswith. simpl.
  destruct (rev (Py.chars s)) as [|a l] eqn:E; simpl; [discriminate|].
  rewrite andb_true_r. intros H. apply Ascii.eqb_eq in H. subst a.
  apply (f_equal (@rev ascii)) in E. rewrite rev_involutive in E. rewrite E.
  simpl. apply last_snoc.
Qed.

Lemma lstrip_l_id (l : list ascii) (c : ascii) :
  head l = Some c → Py.isspace c = false → Py.lstrip_l l = l.
Proof. destruct l as [|a l]; [done|]. intros [= ->] H. simpl. by rewrite H. Qed.

Lemma lstrip_l_app (a b : list ascii) :
  Py.lstrip_l (a ++ b)
  = if forallb Py.isspace a then Py.lstrip_l b else Py.lstrip_l a ++ b.
Proof.
  induction a as [|x a IH]; [done|]. simpl.
  destruct (Py.isspace x); simpl; [exact IH|done].
Qed.

(** Trailing white space is stripped up to the last character of [x]
    when that character is no white space. *)
Lemma rstrip_l_app (x p : list ascii) (c : ascii) :
  last x = Some c → Py.isspace c = false →
  Py.rstrip_l (x ++ p) = x ++ Py.rstrip_l p.
Proof.
  intros Hl Hc. apply last_Some in Hl as (x' & ->).
  unfold Py.rstrip_l. rewrite !rev_app_distr. simpl.
  rewrite lstrip_l_app.
  destruct (forallb Py.isspace (rev p)) eqn:E.
  - simpl. rewrite Hc. simpl. rewrite rev_involutive.
    assert (Py.lstrip_l (rev p) = []) as ->.
    { clear -E. induction (rev p) as [|a l IH]; [done|]. simpl in *.
      apply andb_true_iff in E as [-> E]. by apply IH. }
    by rewrite app_nil_r.
  - rewrite rev_app_distr. simpl. by rewrite rev_involutive.
Qed.

Lemma strip_l_id (l : list ascii) (c d : ascii) :
  head l = Some c → Py.isspace c = false →
  last l = Some d → Py.isspace d = false → Py.strip_l l = l.
Proof.
  intros H1 H2 H3 H4. unfold Py.strip_l. rewrite (lstrip_l_id l c) by done.
  rewrite <- (app_nil_r l) at 1. rewrite (rstrip_l_app l [] d) by done.
  by rewrite app_nil_r.
Qed.

Lemma match_fence_json (w1 body w2 rest : list ascii) (c0 cl : ascii) :
  forallb Py.isspace w1 = true → forallb Py.isspace w2 = true →
  head body = Some c0 → Py.isspace c0 = false →
  last body = Some cl → Py.isspace cl = false → cl ≠ Re.backtick →
  Py.contains_l fence body = false →
  ∃ m, Re.match_at fence_json
         (Py.chars "```json" ++ w1 ++ body ++ w2 ++ fence ++ rest) = Some m ∧
       Re.m_caps m = [(1, body)].
Proof.
  intros Hw1 Hw2 Hh Hc0 Hl Hcl Hbt Hno.
  unfold Re.match_at, fence_json. rewrite run_seq_cons, run_lit.
  change (Py.is_prefix (Py.chars "```json")
            (Py.chars "```json" ++ w1 ++ body ++ w2 ++ fence ++ rest)) with true.
  cbv iota.
  change (drop (length (Py.chars "```json"))
            (Py.chars "```json" ++ w1 ++ body ++ w2 ++ fence ++ rest))
    with (w1 ++ body ++ w2 ++ fence ++ rest).
  rewrite (run_fence_group w1 body w2 rest c0 cl) by done.
  eexists. split; reflexivity.
Qed.

(** Extraction from a text that, once stripped, is a block fenced with the
    json tag, then anything. *)
Lemma extract_fenced_json (text : string) (w1 body w2 rest : list ascii)
    (c0 cl : ascii) :
  Py.strip_l (Py.chars text)
  = Py.chars "```json" ++ w1 ++ body ++ w2 ++ fence ++ rest →
  forallb Py.isspace w1 = true → forallb Py.isspace w2 = true →
  head body = Some c0 → c0 = "{"%char ∨ c0 = "["%char →
  last body = Some cl → Py.isspace cl = false → cl ≠ Re.backtick →
  Py.contains_l fence body = false →
  extract_json_from_text text = Some (Py.of_chars body).
Proof.
  intros Hstrip Hw1 Hw2 Hh Hc0 Hl Hcl Hbt Hno.
  assert (Hsp0 : Py.isspace c0 = false) by (by destruct Hc0 as [-> | ->]).
  unfold extract_json_from_text.
  destruct (Py.nonempty text) eqn:Ene.
  2:{ destruct text; [|done]. by vm_compute in Hstrip. }
  cbn [negb]. cbv zeta.
  unfold Py.startswith, Py.strip. rewrite !chars_of_chars, Hstrip.
  change (Py.is_prefix (Py.chars "{") (Py.chars "```json" ++ _)) with false.
  change (Py.is_prefix (Py.chars "[") (Py.chars "```json" ++ _)) with false.
  cbn [andb]. rewrite <- Hstrip.
  destruct (match_fence_json w1 body w2 rest c0 cl) as (m & Hm & Hcaps); try done.
  assert (Hfirst : first_json_like
            (Re.findall1 fence_json (Py.of_chars (Py.strip_l (Py.chars text))))
          = Some (Py.of_chars body)).
  { unfold Re.findall1, Re.finditer. rewrite chars_of_chars, Hstrip.
    change (Py.chars "```json" ++ w1 ++ body ++ w2 ++ fence ++ rest)
      with ("`"%char :: (Py.chars "``json" ++ w1 ++ body ++ w2 ++ fence ++ rest)).
    cbn [Re.finditer_l].
    change ("`"%char :: (Py.chars "``json" ++ w1 ++ body ++ w2 ++ fence ++ rest))
      with (Py.chars "```json" ++ w1 ++ body ++ w2 ++ fence ++ rest).
    rewrite Hm. cbn [map first_json_like].
    unfold Re.group. rewrite Hcaps. cbn [Re.group_l Nat.eqb].
    unfold Py.strip. rewrite chars_of_chars, (strip_l_id body c0 cl) by done.
    unfold Py.startswith. rewrite chars_of_chars.
    destruct body as [|b body']; [done|]. injection Hh as ->.
    destruct Hc0 as [-> | ->]; reflexivity. }
  cbn [first_in_patterns]. by rewrite Hfirst.
Qed.

Lemma safe_parse_json_first_try (json_loads : string → option json)
    (text json_str : string) (mc : option model_class) (v : parsed) :
  extract_json_from_text text = Some json_str →
  try_load json_loads json_str mc = Some v →
  safe_parse_json json_loads text mc = (true, v).
Proof.
  intros Hex Htry. unfold safe_parse_json.
  assert (Hne : Py.nonempty text = true).
  { unfold extract_json_from_text in Hex. by destruct (Py.nonempty text). }
  rewrite Hne, Hex. simpl. rewrite (extract_json_nonempty _ _ Hex). simpl.
  by rewrite Htry.
Qed.

(** ** A block fenced without a tag *)

Lemma is_prefix_app_l (a b s : list ascii) :
  Py.is_prefix (a ++ b) s = true → Py.is_prefix a s = true.
Proof.
  revert s. induction a as [|x a IH]; intros s; [done|].
  destruct s as [|y s]; cbn [app Py.is_prefix]; [done|].
  intros [-> H]%andb_true_iff. by rewrite (IH _ H).
Qed.

Lemma is_prefix_head (c : ascii) (p s : list ascii) :
  Py.is_prefix (c :: p) s = true → head s = Some c.
Proof.
  destruct s as [|y s]; cbn [Py.is_prefix]; [done|].
  intros [H _]%andb_true_iff. apply Ascii.eqb_eq in H. by subst.
Qed.

Lemma elem_of_drop_list {A} (n : nat) (l : list A) (x : A) : x ∈ drop n l → x ∈ l.
Proof.
  revert l. induction n as [|n IH]; intros [|a l]; cbn [drop]; try done.
  intros H. right. by apply IH.
Qed.

Lemma lang_cat_inv r1 r2 w rest cs cs' :
  Re.lang (Re.Cat r1 r2) w rest cs cs' →
  ∃ w1 w2 cs1, w = w1 ++ w2 ∧ Re.lang r1 w1 (w2 ++ rest) cs cs1 ∧
               Re.lang r2 w2 rest cs1 cs'.
Proof. intros L. inversion L; subst. eauto 10. Qed.

Lemma lang_chr_inv c w rest cs cs' : Re.lang (Re.Chr c) w rest cs cs' → w = [c].
Proof. intros L. by inversion L; subst. Qed.

(** What follows the opening of a fence pattern matches only words that
    hold a backtick. *)
Lemma closing_fence_backtick w rest cs cs' :
  Re.lang (Re.seq [Re.ws; Re.Group 1 anything_lazy; Re.ws; Re.lit "```"]) w rest cs cs' →
  Re.backtick ∈ w.
Proof.
  change (Re.seq [Re.ws; Re.Group 1 anything_lazy; Re.ws; Re.lit "```"])
    with (Re.Cat Re.ws (Re.Cat (Re.Group 1 anything_lazy) (Re.Cat Re.ws
            (Re.Cat (Re.Chr Re.backtick) (Re.Cat (Re.Chr Re.backtick) (Re.Chr Re.backtick)))))).
  intros L.
  apply lang_cat_inv in L as (a & x & ? & -> & _ & L).
  apply lang_cat_inv in L as (b & y & ? & -> & _ & L).
  apply lang_cat_inv in L as (c & z & ? & -> & _ & L).
  apply lang_cat_inv in L as (d & z' & ? & -> & L & _).
  apply lang_chr_inv in L as ->.
  rewrite !elem_of_app. do 3 right. left. by left.
Qed.

Lemma fence_needs_closing (s : list ascii) cs k :
  Re.backtick ∉ s →
  Re.run (Re.seq [Re.ws; Re.Group 1 anything_lazy; Re.ws; Re.lit "```"]) s cs k = None.
Proof.
  intros Hn.
  destruct (Re.run _ s cs k) as [res|] eqn:E; [|done].
  apply run_sound in E as (w & rest & cs' & -> & L & _).
  apply closing_fence_backtick in L. exfalso. apply Hn, elem_of_app. by left.
Qed.

(** The tagged pattern matches only where a fence opens. *)
Lemma fence_json_needs_fence (s : list ascii) :
  Py.is_prefix fence s = false → Re.match_at fence_json s = None.
Proof.
  intros H. unfold Re.match_at, fence_json. rewrite run_seq_cons, run_lit.
  change (Py.chars "```json") with (fence ++ Py.chars "json").
  destruct (Py.is_prefix (fence ++ Py.chars "json") s) eqn:E; [|done].
  apply is_prefix_app_l in E. congruence.
Qed.

Lemma fence_json_needs_tag (s : list ascii) :
  Py.is_prefix (Py.chars "json") s = false → Re.match_at fence_json (fence ++ s) = None.
Proof.
  intros H. unfold Re.match_at, fence_json. rewrite run_seq_cons, run_lit.
  change (Py.is_prefix (Py.chars "```json") (fence ++ s))
    with (Py.is_prefix (Py.chars "json") s).
  by rewrite H.
Qed.

Lemma fence_json_at_last_fence (r : list ascii) :
  Re.backtick ∉ r → Re.match_at fence_json (fence ++ r) = None.
Proof.
  intros Hn. unfold Re.match_at, fence_json. rewrite run_seq_cons, run_lit.
  destruct (Py.is_prefix _ _); [|done].
  rewrite fence_needs_closing; [done|].
  change (drop (length (Py.chars "```json")) (fence ++ r)) with (drop 4 r).
  intros H. by apply Hn, (elem_of_drop_list 4).
Qed.

Lemma no_fence_at (s : list ascii) :
  head s ≠ Some Re.backtick → Py.is_prefix fence s = false.
Proof.
  intros H. destruct (Py.is_prefix fence s) eqn:E; [|done].
  exfalso. apply H. by apply (is_prefix_head Re.backtick [Re.backtick; Re.backtick]).
Qed.

(** A pattern that matches at no place of [tail] and at no place of the
    segment before it matches nowhere. *)
Lemma nowhere_app (r : Re.regex) (seg tail : list ascii) :
  (∀ p k, seg = p ++ k → k ≠ [] → Re.match_at r (k ++ tail) = None) →
  (∀ pre suf, tail = pre ++ suf → Re.match_at r suf = None) →
  ∀ pre suf, seg ++ tail = pre ++ suf → Re.match_at r suf = None.
Proof.
  intros Hseg Htail pre suf E.
  apply app_eq_inv in E as [(k & -> & ->)|(k & -> & E)].
  - destruct k as [|a k]; [by apply (Htail [])|]. by apply (Hseg pre).
  - by apply (Htail k).
Qed.

Lemma nowhere_in_fence (r : Re.regex) (tail : list ascii) :
  Re.match_at r (fence ++ tail) = None →
  Re.match_at r (Re.backtick :: Re.backtick :: tail) = None →
  Re.match_at r (Re.backtick :: tail) = None →
  ∀ p k, fence = p ++ k → k ≠ [] → Re.match_at r (k ++ tail) = None.
Proof.
  intros H3 H2 H1 p k E Hk.
  change fence with [Re.backtick; Re.backtick; Re.backtick] in *.
  destruct p as [|a [|b [|c [|d p]]]]; cbn [app] in E.
  - by subst k.
  - injection E as <- <-. exact H2.
  - injection E as <- <- <-. exact H1.
  - injection E as <- <- <- <-. done.
  - discriminate E.
Qed.

Lemma nowhere_in_spaces (w tail : list ascii) :
  forallb Py.isspace w = true →
  ∀ p k, w = p ++ k → k ≠ [] → Re.match_at fence_json (k ++ tail) = None.
Proof.
  intros Hw p k -> Hk. apply fence_json_needs_fence, no_fence_at.
  destruct k as [|a k]; [done|]. cbn [app head].
  rewrite forallb_app in Hw. apply andb_true_iff in Hw as [_ Hw].
  cbn [forallb] in Hw. apply andb_true_iff in Hw as [Ha _].
  intros [= ->]. by vm_compute in Ha.
Qed.

Lemma not_elem_head {A} (x : A) (l : list A) : x ∉ l → head l ≠ Some x.
Proof. destruct l as [|a l]; [done|]. intros H [= ->]. apply H. by left. Qed.

Lemma contains_char (c : ascii) (l : list ascii) :
  Py.contains_l [c] l = false → c ∉ l.
Proof.
  induction l as [|a l IH]; cbn [Py.contains_l Py.is_prefix].
  - intros _. apply not_elem_of_nil.
  - rewrite andb_true_r. intros [Ha Hl]%orb_false_iff.
    apply not_elem_of_cons. split; [|by apply IH].
    intros ->. by rewrite Ascii.eqb_refl in Ha.
Qed.

Lemma elem_of_rstrip_l (x : ascii) (l : list ascii) : x ∈ Py.rstrip_l l → x ∈ l.
Proof.
  unfold Py.rstrip_l. rewrite !list_elem_of_In, <- in_rev, (in_rev l).
  induction (rev l) as [|a r IH]; [done|]. cbn [Py.lstrip_l].
  destruct (Py.isspace a); [|done]. intros H. right. by apply IH.
Qed.

(** The tagged pattern matches nowhere in a block fenced without a tag that
    is followed by prose without a backtick. *)
Lemma no_fence_json_in_plain (w1 body w2 rest : list ascii) (c0 cl : ascii) :
  forallb Py.isspace w1 = true → forallb Py.isspace w2 = true →
  head body = Some c0 → c0 = "{"%char ∨ c0 = "["%char →
  last body = Some cl → cl ≠ Re.backtick →
  Py.contains_l fence body = false →
  Re.backtick ∉ rest →
  Re.finditer_l fence_json 0 (fence ++ w1 ++ body ++ w2 ++ fence ++ rest) = [].
Proof.
  intros Hw1 Hw2 Hh Hc0 Hl Hcl Hno Hrest.
  apply finditer_l_nothing.
  assert (Hhead : ∃ h, head (w1 ++ body ++ w2 ++ fence ++ rest) = Some h ∧
                       h ≠ Re.backtick ∧ h ≠ "j"%char).
  { destruct w1 as [|a w1'].
    - destruct body as [|b body']; [done|]. injection Hh as ->. exists c0.
      split; [done|]. by destruct Hc0 as [-> | ->].
    - exists a. split; [done|]. cbn [forallb] in Hw1.
      apply andb_true_iff in Hw1 as [Ha _].
      split; intros ->; by vm_compute in Ha. }
  destruct Hhead as (h & Hhd & Hh1 & Hh2).
  apply nowhere_app.
  { apply nowhere_in_fence.
    - apply fence_json_needs_tag.
      destruct (w1 ++ body ++ w2 ++ fence ++ rest) as [|x l]; [done|].
      injection Hhd as ->. cbn [Py.chars list_ascii_of_string Py.is_prefix].
      destruct (Ascii.eqb_spec "j"%char h); [congruence|done].
    - apply fence_json_needs_fence.
      destruct (w1 ++ body ++ w2 ++ fence ++ rest) as [|x l]; [done|].
      injection Hhd as ->. change fence with [Re.backtick; Re.backtick; Re.backtick].
      cbn [Py.is_prefix]. rewrite !Ascii.eqb_refl.
      destruct (Ascii.eqb_spec Re.backtick h); [congruence|done].
    - apply fence_json_needs_fence.
      destruct (w1 ++ body ++ w2 ++ fence ++ rest) as [|x l]; [done|].
      injection Hhd as ->. change fence with [Re.backtick; Re.backtick; Re.backtick].
      cbn [Py.is_prefix]. rewrite !Ascii.eqb_refl.
      destruct (Ascii.eqb_spec Re.backtick h); [congruence|done]. }
  apply nowhere_app; [by apply nowhere_in_spaces|].
  apply nowhere_app.
  { intros p k Hb Hk. apply fence_json_needs_fence.
    by apply (no_fence_in_suffix body p k _ cl). }
  apply nowhere_app; [by apply nowhere_in_spaces|].
  assert (Hr : head rest ≠ Some Re.backtick) by (by apply not_elem_head).
  apply nowhere_app.
  { apply nowhere_in_fence.
    - by apply fence_json_at_last_fence.
    - apply fence_json_needs_fence.
      change fence with [Re.backtick; Re.backtick; Re.backtick].
      destruct rest as [|x l]; [done|]. cbn [Py.is_prefix]. rewrite !Ascii.eqb_refl.
      destruct (Ascii.eqb_spec Re.backtick x); [|done]. subst x. by destruct Hr.
    - apply fence_json_needs_fence.
      change fence with [Re.backtick; Re.backtick; Re.backtick].
      destruct rest as [|x l]; [done|]. cbn [Py.is_prefix]. rewrite !Ascii.eqb_refl.
      destruct (Ascii.eqb_spec Re.backtick x); [|done]. subst x. by destruct Hr. }
  intros pre suf ->. apply fence_json_needs_fence, no_fence_at, not_elem_head.
  intros H. apply Hrest, elem_of_app. by right.
Qed.

Lemma match_fence_plain (w1 body w2 rest : list ascii) (c0 cl : ascii) :
  forallb Py.isspace w1 = true → forallb Py.isspace w2 = true →
  head body = Some c0 → Py.isspace c0 = false →
  last body = Some cl → Py.isspace cl = false → cl ≠ Re.backtick →
  Py.contains_l fence body = false →
  ∃ m, Re.match_at fence_plain (fence ++ w1 ++ body ++ w2 ++ fence ++ rest) = Some m ∧
       Re.m_caps m = [(1, body)].
Proof.
  intros Hw1 Hw2 Hh Hc0 Hl Hcl Hbt Hno.
  unfold Re.match_at, fence_plain. rewrite run_seq_cons, run_lit.
  change (Py.is_prefix (Py.chars "```") (fence ++ w1 ++ body ++ w2 ++ fence ++ rest))
    with true.
  cbv iota.
  change (drop (length (Py.chars "```")) (fence ++ w1 ++ body ++ w2 ++ fence ++ rest))
    with (w1 ++ body ++ w2 ++ fence ++ rest).
  rewrite (run_fence_group w1 body w2 rest c0 cl) by done.
  eexists. split; reflexivity.
Qed.

Lemma extract_fenced_plain (text : string) (w1 body w2 rest : list ascii)
    (c0 cl : ascii) :
  Py.strip_l (Py.chars text) = fence ++ w1 ++ body ++ w2 ++ fence ++ rest →
  forallb Py.isspace w1 = true → forallb Py.isspace w2 = true →
  head body = Some c0 → c0 = "{"%char ∨ c0 = "["%char →
  last body = Some cl → Py.isspace cl = false → cl ≠ Re.backtick →
  Py.contains_l fence body = false →
  Re.backtick ∉ rest →
  extract_json_from_text text = Some (Py.of_chars body).
Proof.
  intros Hstrip Hw1 Hw2 Hh Hc0 Hl Hcl Hbt Hno Hrest.
  assert (Hsp0 : Py.isspace c0 = false) by (by destruct Hc0 as [-> | ->]).
  unfold extract_json_from_text.
  destruct (Py.nonempty text) eqn:Ene.
  2:{ destruct text; [|done]. by vm_compute in Hstrip. }
  cbn [negb]. cbv zeta.
  unfold Py.startswith, Py.strip. rewrite !chars_of_chars, Hstrip.
  change (Py.is_prefix (Py.chars "{") (fence ++ _)) with false.
  change (Py.is_prefix (Py.chars "[") (fence ++ _)) with false.
  cbn [andb]. rewrite <- Hstrip.
  destruct (match_fence_plain w1 body w2 rest c0 cl) as (m & Hm & Hcaps); try done.
  assert (Hjson : Re.findall1 fence_json (Py.of_chars (Py.strip_l (Py.chars text))) = []).
  { unfold Re.findall1, Re.finditer. rewrite chars_of_chars, Hstrip.
    by rewrite (no_fence_json_in_plain w1 body w2 rest c0 cl). }
  assert (Hfirst : first_json_like
            (Re.findall1 fence_plain (Py.of_chars (Py.strip_l (Py.chars text))))
          = Some (Py.of_chars body)).
  { unfold Re.findall1, Re.finditer. rewrite chars_of_chars, Hstrip.
    change (fence ++ w1 ++ body ++ w2 ++ fence ++ rest)
      with ("`"%char :: (Py.chars "``" ++ w1 ++ body ++ w2 ++ fence ++ rest)).
    cbn [Re.finditer_l].
    change ("`"%char :: (Py.chars "``" ++ w1 ++ body ++ w2 ++ fence ++ rest))
      with (fence ++ w1 ++ body ++ w2 ++ fence ++ rest).
    rewrite Hm. cbn [map first_json_like].
    unfold Re.group. rewrite Hcaps. cbn [Re.group_l Nat.eqb].
    unfold Py.strip. rewrite chars_of_chars, (strip_l_id body c0 cl) by done.
    unfold Py.startswith. rewrite chars_of_chars.
    destruct body as [|b body']; [done|]. injection Hh as ->.
    destruct Hc0 as [-> | ->]; reflexivity. }
  cbn [first_in_patterns]. rewrite Hjson. cbn [first_json_like]. by rewrite Hfirst.
Qed.

Lemma strip_l_fenced (mid prose : list ascii) :
  Py.strip_l (fence ++ mid ++ fence ++ prose) = fence ++ mid ++ fence ++ Py.rstrip_l prose.
Proof.
  unfold Py.strip_l. rewrite (lstrip_l_id _ Re.backtick) by done.
  rewrite !app_assoc.
  rewrite (rstrip_l_app _ prose Re.backtick); [done| |done].
  by rewrite last_app.
Qed.

(** C8, as the code has it.  For a text that is a fenced block followed by
    prose, where the fence carries the json tag, or carries no tag and the
    prose holds no backtick, and where the contents of the block (between
    optional white space) open and close as an object or as an array, hold
    no fence of their own and are valid JSON for the schema: the extraction
    returns the contents, and recovery succeeds at the first attempt with
    the very result of parsing the contents alone. *)
Theorem fenced_json_with_prose (json_loads : string → option json)
    (tag w1 body w2 prose : string) (mc : option model_class) (v : parsed) :
  tag = "json" ∨ (tag = "" ∧ Py.contains "`" prose = false) →
  forallb Py.isspace (Py.chars w1) = true →
  forallb Py.isspace (Py.chars w2) = true →
  (Py.startswith body "{" && Py.endswith body "}") ||
  (Py.startswith body "[" && Py.endswith body "]") = true →
  Py.contains "```" body = false →
  try_load json_loads body mc = Some v →
  let text := "```" +:+ tag +:+ w1 +:+ body +:+ w2 +:+ "```" +:+ prose in
  extract_json_from_text text = Some body ∧
  safe_parse_json json_loads text mc = (true, v) ∧
  safe_parse_json json_loads body mc = (true, v).
Proof.
  intros Htag Hw1 Hw2 Hshape Hno Htry text.
  assert (Hends : ∃ c0 cl, head (Py.chars body) = Some c0 ∧
                    (c0 = "{"%char ∨ c0 = "["%char) ∧
                    last (Py.chars body) = Some cl ∧
                    (cl = "}"%char ∨ cl = "]"%char)).
  { apply orb_true_iff in Hshape as [H|H]; apply andb_true_iff in H as [H1 H2];
      apply startswith_head in H1; apply endswith_last in H2; eauto 10. }
  destruct Hends as (c0 & cl & Hh & Hc0 & Hl & Hcl).
  assert (Hcl1 : Py.isspace cl = false) by (by destruct Hcl as [-> | ->]).
  assert (Hcl2 : cl ≠ Re.backtick) by (by destruct Hcl as [-> | ->]).
  assert (Hex : extract_json_from_text text = Some body).
  { replace (Some body) with (Some (Py.of_chars (Py.chars body)))
      by (by rewrite of_chars_chars).
    destruct Htag as [-> | [-> Hprose]].
    - apply (extract_fenced_json text (Py.chars w1) (Py.chars body) (Py.chars w2)
               (Py.rstrip_l (Py.chars prose)) c0 cl); try done.
      unfold text. rewrite !chars_app.
      change (Py.chars "```") with fence.
      rewrite (app_assoc (Py.chars "json")), (app_assoc _ (Py.chars body)),
        (app_assoc _ (Py.chars w2)).
      rewrite strip_l_fenced. by rewrite <- !app_assoc.
    - apply (extract_fenced_plain text (Py.chars w1) (Py.chars body) (Py.chars w2)
               (Py.rstrip_l (Py.chars prose)) c0 cl); try done.
      + unfold text. rewrite !chars_app.
        change (Py.chars "```") with fence. change (Py.chars "") with (@nil ascii).
        cbn [app].
        rewrite (app_assoc (Py.chars w1)), (app_assoc _ (Py.chars w2)).
        rewrite strip_l_fenced. by rewrite <- !app_assoc.
      + intros H. apply elem_of_rstrip_l in H. by apply contains_char in Hprose. }
  assert (Hself : extract_json_from_text body = Some body).
  { unfold extract_json_from_text.
    assert (Hne : Py.nonempty body = true).
    { destruct body; [|done]. discriminate Hh. }
    rewrite Hne. cbn [negb]. cbv zeta.
    assert (Py.strip body = body) as ->.
    { assert (Hsp0 : Py.isspace c0 = false) by (by destruct Hc0 as [-> | ->]).
      unfold Py.strip. rewrite (strip_l_id _ c0 cl) by done.
      apply of_chars_chars. }
    apply orb_true_iff in Hshape as [-> | H]; [done|].
    rewrite H. by destruct (Py.startswith body "{" && Py.endswith body "}"). }
  split; [exact Hex|].
  split; by eapply safe_parse_json_first_try.
Qed.

Lemma fenced_json_with_prose_witness :
  (∃ v, safe_parse_json Json.loads
          ("```" +:+ "json" +:+ Crew.nl +:+ Ex4.plain_block +:+ Crew.nl +:+ "```"
           +:+ " Hope this helps!")
          (Some ClsUserStoriesOutput) = (true, v) ∧
        safe_parse_json Json.loads Ex4.plain_block (Some ClsUserStoriesOutput)
        = (true, v)) ∧
  (∃ v, safe_parse_json Json.loads
          ("```" +:+ "" +:+ Crew.nl +:+ Ex4.plain_block +:+ Crew.nl +:+ "```"
           +:+ " Hope this helps!")
          (Some ClsUserStoriesOutput) = (true, v) ∧
        safe_parse_json Json.loads Ex4.plain_block (Some ClsUserStoriesOutput)
        = (true, v)).
Proof.
  split; eexists.
  - refine (proj2 (fenced_json_with_prose Json.loads "json" Crew.nl Ex4.plain_block
                     Crew.nl " Hope this helps!" (Some ClsUserStoriesOutput) _
                     _ _ _ _ _ _)); [left; reflexivity|..]; vm_compute; reflexivity.
  - refine (proj2 (fenced_json_with_prose Json.loads "" Crew.nl Ex4.plain_block
                     Crew.nl " Hope this helps!" (Some ClsUserStoriesOutput) _
                     _ _ _ _ _ _)); [right; split; reflexivity|..]; vm_compute; reflexivity.
Defined.

(** C8 fails as stated: when the valid JSON of the block holds a fence
    inside a string, the extraction stops at that fence, and recovery
    succeeds, through the truncation repair, with another record than the
    one the block parses to. *)
Lemma fenced_json_with_inner_fence :
  extract_json_from_text Ex4.fenced_with_prose
  = Some (sq2dq "{'stories': [], 'summary': 'Use") ∧
  safe_parse_json Json.loads Ex4.block (Some ClsUserStoriesOutput)
  = (true, PModel (MUserStoriesOutput
                     (UserStoriesOutput.mk [] "Use ```code``` blocks"))) ∧
  safe_parse_json Json.loads Ex4.fenced_with_prose (Some ClsUserStoriesOutput)
  = (true, PModel (MUserStoriesOutput (UserStoriesOutput.mk [] "Use"))).
Proof. repeat split; vm_compute; reflexivity. Qed.

(** Why the prose after a fence without a tag must hold no fence of its
    own: the tagged pattern is tried first, over the whole text, so a tagged
    block in the prose wins over the block that opens the text. *)
Lemma untagged_fence_before_tagged_prose :
  extract_json_from_text
    ("```" +:+ Crew.nl +:+ Ex4.plain_block +:+ Crew.nl +:+ "``` then ```json [1] ```")
  = Some "[1]".
Proof. vm_compute. reflexivity. Qed.

(* ================================================================== *)
(** * Rung 5: the salvage of complete records *)
(* ================================================================== *)


Lemma stretch_refl (w : list ascii) : stretch w w.
Proof. exists [], []. by rewrite app_nil_r. Qed.

Lemma stretch_nil (w : list ascii) : stretch [] w.
Proof. by exists [], w. Qed.

Lemma stretch_app_l (g w1 w2 : list ascii) : stretch g w1 → stretch g (w1 ++ w2).
Proof. intros (a & b & ->). exists a, (b ++ w2). by rewrite <- !app_assoc. Qed.

Lemma stretch_app_r (g w1 w2 : list ascii) : stretch g w2 → stretch g (w1 ++ w2).
Proof. intros (a & b & ->). exists (w1 ++ a), b. by rewrite <- !app_assoc. Qed.

Lemma stretch_trans (g w t : list ascii) : stretch g w → stretch w t → stretch g t.
Proof.
  intros (a & b & ->) (c & d & ->). exists (c ++ a), (b ++ d).
  by rewrite <- !app_assoc.
Qed.

(** The groups a match captures are stretches of the matched word. *)
Lemma lang_caps_stretch r w rest cs cs' :
  Re.lang r w rest cs cs' →
  ∀ i g, (i, g) ∈ cs' → (i, g) ∈ cs ∨ stretch g w.
Proof.
  intros L. induction L; intros j h Hin; auto.
  - apply IHL2 in Hin as [Hin|Hs]; [|right; by apply stretch_app_r].
    apply IHL1 in Hin as [Hin|Hs]; [by left|right; by apply stretch_app_l].
  - apply IHL2 in Hin as [Hin|Hs]; [|right; by apply stretch_app_r].
    apply IHL1 in Hin as [Hin|Hs]; [by left|right; by apply stretch_app_l].
  - unfold Re.set_group in Hin. apply elem_of_cons in Hin as [[= -> ->]|Hin].
    + right. apply stretch_refl.
    + by apply IHL.
Qed.

Lemma group_l_elem (i : nat) (cs : Re.caps) :
  Re.group_l i cs = [] ∨ (i, Re.group_l i cs) ∈ cs.
Proof.
  induction cs as [|[j w] cs IH]; [by left|]. simpl.
  destruct (Nat.eqb_spec i j) as [->|].
  - right. by left.
  - destruct IH as [IH|IH]; [by left|right; by right].
Qed.

Lemma found_group_stretch (r : Re.regex) (text : list ascii) (m : Re.mobj) (i : nat) :
  found r text m →
  stretch (Re.m_text m) text ∧ stretch (Re.group_l i (Re.m_caps m)) (Re.m_text m).
Proof.
  intros (pre & post & -> & L). split; [by exists pre, post|].
  destruct (group_l_elem i (Re.m_caps m)) as [->|Hin]; [apply stretch_nil|].
  apply (lang_caps_stretch _ _ _ _ _ L) in Hin as [Hin|Hs]; [|done].
  by apply elem_of_nil in Hin.
Qed.




Lemma found_group_in_text (r : Re.regex) (text : string) (m : Re.mobj) (i : nat) :
  found r (Py.chars text) m → stretch (Py.chars (Re.group m i)) (Py.chars text).
Proof.
  intros H. unfold Re.group. rewrite chars_of_chars.
  destruct (found_group_stretch r _ m i H) as [H1 H2].
  by eapply stretch_trans.
Qed.

(** ** An array of stories that was cut off *)

(** The matcher on a text that is laid out as the pattern expects: each
    part of the pattern consumes its part of the text. *)
(** ** Complete records in their usual layout *)




























(* ================================================================== *)
(** * The extraction of the candidate document *)
(* ================================================================== *)

Lemma lstrip_l_suffix (l : list ascii) : ∃ p, l = p ++ Py.lstrip_l l.
Proof.
  induction l as [|a l [p IH]]; [by exists []|]. cbn [Py.lstrip_l].
  destruct (Py.isspace a); [|by exists []].
  exists (a :: p). cbn [app]. by rewrite <- IH.
Qed.

Lemma rstrip_l_prefix (l : list ascii) : ∃ q, l = Py.rstrip_l l ++ q.
Proof.
  unfold Py.rstrip_l. destruct (lstrip_l_suffix (rev l)) as [p Hp].
  exists (rev p). rewrite <- rev_app_distr, <- Hp. by rewrite rev_involutive.
Qed.

Lemma stretch_strip_l (l : list ascii) : stretch (Py.strip_l l) l.
Proof.
  unfold Py.strip_l. destruct (lstrip_l_suffix l) as [p Hp].
  destruct (rstrip_l_prefix (Py.lstrip_l l)) as [q Hq].
  exists p, q. by rewrite <- Hq.
Qed.

Lemma stretch_strip (s : string) : stretch (Py.chars (Py.strip s)) (Py.chars s).
Proof. unfold Py.strip. rewrite chars_of_chars. apply stretch_strip_l. Qed.

Lemma first_json_like_spec (ms : list string) (m : string) :
  first_json_like ms = Some m →
  ∃ m0, m0 ∈ ms ∧ m = Py.strip m0 ∧
        Py.startswith m "{" || Py.startswith m "[" = true.
Proof.
  induction ms as [|x ms IH]; cbn [first_json_like]; [discriminate|]. cbv zeta.
  destruct (Py.startswith (Py.strip x) "{" || Py.startswith (Py.strip x) "[") eqn:E.
  - intros [= <-]. exists x. split; [by left|done].
  - intros H. destruct (IH H) as (m0 & Hin & Hm). exists m0. split; [by right|done].
Qed.

Lemma findall1_stretch (p : Re.regex) (text g : string) :
  g ∈ Re.findall1 p text → stretch (Py.chars g) (Py.chars text).
Proof.
  unfold Re.findall1. intros (m & -> & Hm)%list_elem_of_fmap.
  apply finditer_sound in Hm. by eapply found_group_in_text.
Qed.

Lemma first_in_patterns_spec (ps : list Re.regex) (text m : string) :
  first_in_patterns ps text = Some m →
  Py.startswith m "{" || Py.startswith m "[" = true ∧
  stretch (Py.chars m) (Py.chars text).
Proof.
  induction ps as [|p ps IH]; cbn [first_in_patterns]; [discriminate|].
  destruct (first_json_like _) as [m'|] eqn:E; [|exact IH].
  intros [= <-]. apply first_json_like_spec in E as (m0 & Hin & -> & Hs).
  split; [done|]. eapply stretch_trans; [apply stretch_strip|].
  by eapply findall1_stretch.
Qed.

Lemma find_l_split (c : ascii) (l : list ascii) :
  (0 ≤ Py.find_l c l)%Z →
  ∃ pre post, l = pre ++ c :: post ∧ Z.of_nat (length pre) = Py.find_l c l.
Proof.
  induction l as [|a l IH]; cbn [Py.find_l]; [lia|].
  destruct (Ascii.eqb_spec a c) as [->|Hne].
  - intros _. by exists [], l.
  - destruct (Z.ltb_spec (Py.find_l c l) 0); [lia|]. intros _.
    destruct IH as (pre & post & -> & Hlen); [done|].
    exists (a :: pre), post. split; [done|]. cbn [length]. lia.
Qed.

Lemma between_spec (open close : ascii) (text t : string) :
  between open close text = Some t →
  head (Py.chars t) = Some open ∧ stretch (Py.chars t) (Py.chars text).
Proof.
  unfold between. destruct (negb _ && _) eqn:E; [|discriminate].
  intros [= <-]. apply andb_true_iff in E as [E1 E2].
  apply negb_true_iff, Z.eqb_neq in E1. apply Z.ltb_lt in E2.
  destruct (find_l_range open (Py.chars text)) as [H|H]; [done|].
  destruct (find_l_split open (Py.chars text)) as (pre & post & Hl & Hlen); [lia|].
  rewrite chars_of_chars. unfold Py.slice_l. rewrite <- Hlen, Nat2Z.id.
  remember (Z.to_nat (Py.rfind_l close (Py.chars text) + 1 - Z.of_nat (length pre)))
    as k eqn:Ek.
  destruct k as [|n]; [lia|].
  assert (Hd : drop (length pre) (Py.chars text) = open :: post)
    by (rewrite Hl; apply drop_app_length).
  rewrite Hd. cbn [firstn]. split; [done|].
  exists pre, (drop n post). rewrite Hl. cbn [app]. by rewrite take_drop.
Qed.

Lemma startswith_of_head (s : string) (c : ascii) :
  head (Py.chars s) = Some c → Py.startswith s (String c "") = true.
Proof.
  unfold Py.startswith. destruct s as [|a s]; [discriminate|].
  intros [= ->]. cbn. by rewrite Ascii.eqb_refl.
Qed.

(** X1.  Whatever [extract_json_from_text] returns opens with a brace or
    a bracket, is not empty, and stands in the text as it is; a text that is
    empty or only white space yields nothing. *)
Theorem extraction_opens_a_document (text : string) :
  (∀ json_str, extract_json_from_text text = Some json_str →
     Py.startswith json_str "{" || Py.startswith json_str "[" = true ∧
     json_str ≠ "" ∧
     stretch (Py.chars json_str) (Py.chars text)) ∧
  (Py.strip text = "" → extract_json_from_text text = None).
Proof.
  assert (H : ∀ json_str, extract_json_from_text text = Some json_str →
     Py.startswith json_str "{" || Py.startswith json_str "[" = true ∧
     stretch (Py.chars json_str) (Py.chars text)).
  { intros json_str. unfold extract_json_from_text.
    destruct (negb (Py.nonempty text)); [discriminate|]. cbv zeta.
    pose proof (stretch_strip text) as Hst. set (t := Py.strip text) in *.
    destruct (Py.startswith t "{" && Py.endswith t "}") eqn:E1.
    { intros [= <-]. apply andb_true_iff in E1 as [-> _]. done. }
    destruct (Py.startswith t "[" && Py.endswith t "]") eqn:E2.
    { intros [= <-]. apply andb_true_iff in E2 as [-> _]. by rewrite orb_true_r. }
    destruct (first_in_patterns _ t) as [m|] eqn:E3.
    { intros [= <-]. apply first_in_patterns_spec in E3 as [Hs Hin].
      split; [done|]. by eapply stretch_trans. }
    destruct (between "{" "}" t) as [b|] eqn:E4.
    { intros [= <-]. apply between_spec in E4 as [Hh Hin].
      apply startswith_of_head in Hh. rewrite Hh.
      split; [done|]. by eapply stretch_trans. }
    intros E5. apply between_spec in E5 as [Hh Hin].
    apply startswith_of_head in Hh. rewrite Hh, orb_true_r.
    split; [done|]. by eapply stretch_trans. }
  split.
  - intros json_str Hex. destruct (H _ Hex) as [Hs Hin]. split; [done|].
    split; [|done]. intros ->. by vm_compute in Hs.
  - intros Hempty. destruct (extract_json_from_text text) as [j|] eqn:E; [|done].
    exfalso. unfold extract_json_from_text in E.
    destruct (negb (Py.nonempty text)); [discriminate|]. cbv zeta in E.
    rewrite Hempty in E. by vm_compute in E.
Qed.

(* ================================================================== *)
(** * The common fixes *)
(* ================================================================== *)

Lemma stretch_elem (g w : list ascii) (c : ascii) : stretch g w → c ∈ g → c ∈ w.
Proof. intros (a & b & ->) H. rewrite !elem_of_app. auto. Qed.

(** The groups of a match hold characters of the text. *)
Lemma match_at_group_chars (r : Re.regex) (s : list ascii) (m : Re.mobj)
    (i : nat) (c : ascii) :
  Re.match_at r s = Some m → c ∈ Re.group_l i (Re.m_caps m) → c ∈ s.
Proof.
  intros Hm Hc. apply match_at_sound in Hm as (rest & -> & L).
  destruct (group_l_elem i (Re.m_caps m)) as [E|Hin].
  { rewrite E in Hc. by apply elem_of_nil in Hc. }
  apply (lang_caps_stretch _ _ _ _ _ L) in Hin as [Hin|Hs].
  { by apply elem_of_nil in Hin. }
  apply elem_of_app. left. by eapply stretch_elem.
Qed.

Lemma expand_chars (repl : list Re.ritem) (cs : Re.caps) (c : ascii) :
  c ∈ Re.expand repl cs →
  (∃ t, Re.RText t ∈ repl ∧ c ∈ Py.chars t) ∨ (∃ i, c ∈ Re.group_l i cs).
Proof.
  unfold Re.expand. induction repl as [|it repl IH]; cbn [map concat].
  { by intros H%elem_of_nil. }
  rewrite elem_of_app. intros [H|H].
  - destruct it as [t|i]; [left; exists t; split; [by left|done]|right; by exists i].
  - destruct (IH H) as [(t & Ht & Hc)|Hg]; [|by right].
    left. exists t. split; [by right|done].
Qed.

(** [re.sub] writes characters of the text and of the template only. *)
Lemma sub_l_chars (r : Re.regex) (repl : list Re.ritem) (c : ascii) :
  ∀ s skip, c ∈ Re.sub_l r repl skip s →
            c ∈ s ∨ ∃ t, Re.RText t ∈ repl ∧ c ∈ Py.chars t.
Proof.
  assert (Hexp : ∀ s m, Re.match_at r s = Some m → c ∈ Re.expand repl (Re.m_caps m) →
                        c ∈ s ∨ ∃ t, Re.RText t ∈ repl ∧ c ∈ Py.chars t).
  { intros s m Hm [Ht|[i Hi]]%expand_chars; [by right|].
    left. by eapply match_at_group_chars. }
  induction s as [|a s IH]; intros skip; cbn [Re.sub_l].
  - destruct skip; [|by intros H%elem_of_nil].
    destruct (Re.match_at r []) as [m|] eqn:E; [|by intros H%elem_of_nil].
    by apply Hexp.
  - assert (Hr : ∀ n, c ∈ Re.sub_l r repl n s →
                      c ∈ a :: s ∨ ∃ t, Re.RText t ∈ repl ∧ c ∈ Py.chars t).
    { intros n H. destruct (IH _ H) as [H'|H']; [left; by right|by right]. }
    destruct skip as [|n]; [|apply Hr].
    destruct (Re.match_at r (a :: s)) as [m|] eqn:E.
    + rewrite elem_of_app. intros [H|H]; [by eapply Hexp|].
      destruct (length (Re.m_text m)); [|exact (Hr _ H)].
      apply elem_of_cons in H as [->|H]; [left; by left|exact (Hr _ H)].
    + intros [->|H]%elem_of_cons; [left; by left|exact (Hr _ H)].
Qed.

Lemma sub_chars (r : Re.regex) (repl : list Re.ritem) (s : string) (c : ascii) :
  c ∈ Py.chars (Re.sub r repl s) →
  c ∈ Py.chars s ∨ ∃ t, Re.RText t ∈ repl ∧ c ∈ Py.chars t.
Proof. unfold Re.sub. rewrite chars_of_chars. apply sub_l_chars. Qed.

Lemma match_control_chars (a : ascii) (s : list ascii) :
  Re.match_at control_chars (a :: s)
  = if is_control a then Some {| Re.m_text := [a]; Re.m_caps := [] |} else None.
Proof.
  unfold Re.match_at, control_chars. cbn [Re.run].
  replace (Re.in_class false _ a) with (is_control a).
  2:{ unfold Re.in_class, is_control. cbn [existsb Re.in_item xorb].
      by rewrite orb_false_r. }
  destruct (is_control a); [|done]. unfold Re.ret.
  change (a :: s) with ([a] ++ s). by rewrite firstn_length_diff.
Qed.

(** The first step leaves no control character. *)
Lemma sub_control_chars (l : list ascii) (c : ascii) :
  c ∈ Re.sub_l control_chars [Re.RText " "] 0 l → is_control c = false.
Proof.
  induction l as [|a l IH]; cbn [Re.sub_l].
  - change (Re.match_at control_chars []) with (@None Re.mobj).
    by intros H%elem_of_nil.
  - rewrite match_control_chars. destruct (is_control a) eqn:Ea.
    + cbn [Re.m_text Re.m_caps length Re.expand map concat app].
      change (Py.chars " ") with [" "%char]. cbn [app].
      intros [->|H]%elem_of_cons; [done|by apply IH].
    + intros [->|H]%elem_of_cons; [done|by apply IH].
Qed.

(** X2.  The text [fix_common_json_errors] returns holds no control
    character: each one is replaced by a space, and the later steps write
    nothing but characters of the text, quotes, colons and closing brackets. *)
Theorem common_fixes_leave_no_control_character (json_str : string) :
  existsb is_control (Py.chars (fix_common_json_errors json_str)) = false.
Proof.
  apply not_true_is_false. intros (c & Hin & Hc)%existsb_exists.
  apply list_elem_of_In in Hin. revert Hin.
  unfold fix_common_json_errors.
  destruct (negb (Py.nonempty json_str)) eqn:Ene.
  { destruct json_str; [by intros H%elem_of_nil|done]. }
  cbv zeta.
  assert (Hstep : ∀ r repl s,
            (∀ t, Re.RText t ∈ repl → ∀ x, x ∈ Py.chars t → is_control x = false) →
            (∀ x, x ∈ Py.chars s → is_control x = false) →
            ∀ x, x ∈ Py.chars (Re.sub r repl s) → is_control x = false).
  { intros r repl s Ht Hs x [H|(t & Hin & H)]%sub_chars; [by apply Hs|by eapply Ht]. }
  assert (H1 : ∀ x, x ∈ Py.chars (Re.sub control_chars [Re.RText " "] json_str) →
               is_control x = false).
  { intros x. unfold Re.sub. rewrite chars_of_chars. apply sub_control_chars. }
  assert (Htext : ∀ t, t ∈ [" "; "}"; "]"; dq; dq +:+ ":"] →
                  ∀ x, x ∈ Py.chars t → is_control x = false).
  { intros t Ht x Hx. rewrite !elem_of_cons, elem_of_nil in Ht.
    apply list_elem_of_In in Hx.
    destruct Ht as [->|[->|[->|[->|[->|[]]]]]];
      vm_compute in Hx; repeat (destruct Hx as [<-|Hx]; [done|]); done. }
  assert (Hrepl : ∀ repl : list Re.ritem, (∀ t, Re.RText t ∈ repl → t ∈ [" "; "}"; "]"; dq; dq +:+ ":"]) →
                  ∀ t, Re.RText t ∈ repl → ∀ x, x ∈ Py.chars t → is_control x = false).
  { intros repl H t Ht. apply Htext. by apply H. }
  assert (H4 : ∀ x, x ∈ Py.chars
                 (Re.sub bare_key
                    [Re.RRef 1; Re.RText dq; Re.RRef 2; Re.RText (dq +:+ ":")]
                    (Re.sub (comma_before "]") [Re.RText "]"]
                       (Re.sub (comma_before "}") [Re.RText "}"]
                          (Re.sub control_chars [Re.RText " "] json_str)))) →
               is_control x = false).
  { apply Hstep.
    { apply Hrepl. intros t Ht. rewrite !elem_of_cons, elem_of_nil in Ht.
      destruct Ht as [Ht|[Ht|[Ht|[Ht|[]]]]]; try discriminate Ht;
        injection Ht as <-; rewrite !elem_of_cons; auto 10. }
    apply Hstep.
    { apply Hrepl. intros t [Ht|[]%elem_of_nil]%elem_of_cons.
      injection Ht as ->. rewrite !elem_of_cons; auto 10. }
    apply Hstep; [|exact H1].
    apply Hrepl. intros t [Ht|[]%elem_of_nil]%elem_of_cons.
    injection Ht as ->. rewrite !elem_of_cons; auto 10. }
  destruct (bool_decide _); [|intros Hin; by rewrite (H4 c Hin) in Hc].
  intros Hin. enough (is_control c = false) by congruence.
  revert Hin. apply Hstep; [|exact H4].
  apply Hrepl. intros t Ht. rewrite !elem_of_cons, elem_of_nil in Ht.
  destruct Ht as [Ht|[Ht|[Ht|[]]]]; try discriminate Ht;
    injection Ht as <-; rewrite !elem_of_cons; auto 10.
Qed.

(* ================================================================== *)
(** * The models the ladder returns *)
(* ================================================================== *)

Lemma validate_priority_vocabulary (v : string) :
  UserStory.validate_priority v ∈ ["high"; "medium"; "low"].
Proof.
  unfold UserStory.validate_priority.
  set (w := Py.strip (Py.lower v)).
  destruct (Py.mem w _) eqn:E; simpl.
  - by apply mem_In.
  - rewrite !elem_of_cons; auto.
Qed.

Lemma validate_method_vocabulary (v : string) :
  APIEndpoint.validate_method v ∈ ["GET"; "POST"; "PUT"; "DELETE"; "PATCH"].
Proof.
  unfold APIEndpoint.validate_method.
  set (w := Py.strip (Py.upper v)).
  destruct (Py.mem w _) eqn:E; simpl.
  - by apply mem_In.
  - rewrite !elem_of_cons; auto.
Qed.

Ltac bind_inv :=
  repeat match goal with
         | H : (_ ≫= _) = Some _ |- _ =>
             let x := fresh "x" in let E := fresh "E" in
             apply bind_Some in H as (x & E & H)
         | H : (_ <$> _) = Some _ |- _ =>
             let x := fresh "x" in let E := fresh "E" in
             apply fmap_Some in H as (x & E & H)
         end.

Lemma as_list_elem {A} (f : json → option A) (j : json) (l : list A) (x : A) :
  as_list f j = Some l → x ∈ l → ∃ jx, f jx = Some x.
Proof.
  destruct j; try discriminate. cbn [as_list]. intros H Hx.
  apply mapM_Some in H. apply Forall2_flip in H.
  apply list_elem_of_lookup in Hx as [i Hi].
  destruct (Forall2_lookup_l _ _ _ _ _ H Hi) as (jx & _ & Hj). by exists jx.
Qed.

Lemma required_elem {A} (f : json → option A) (key : string) d (l : list A) (x : A) :
  required (as_list f) key d = Some l → x ∈ l → ∃ jx, f jx = Some x.
Proof.
  unfold required. destruct (dict_get key d); [|discriminate]. apply as_list_elem.
Qed.

Lemma user_story_validated (j : json) (story : UserStory.t) :
  UserStory.model_validate j = Some story →
  UserStory.priority story ∈ ["high"; "medium"; "low"].
Proof.
  destruct j; try discriminate. unfold UserStory.model_validate. cbn [as_object].
  intros H. bind_inv. injection H as <-. cbn [UserStory.priority].
  unfold optional in E2. destruct (dict_get "priority" members) as [jp|].
  - bind_inv. subst. apply validate_priority_vocabulary.
  - injection E2 as <-. rewrite !elem_of_cons; auto.
Qed.

Lemma api_endpoint_validated (j : json) (endpoint : APIEndpoint.t) :
  APIEndpoint.model_validate j = Some endpoint →
  APIEndpoint.method endpoint ∈ ["GET"; "POST"; "PUT"; "DELETE"; "PATCH"].
Proof.
  destruct j; try discriminate. unfold APIEndpoint.model_validate. cbn [as_object].
  intros H. bind_inv. injection H as <-. cbn [APIEndpoint.method].
  unfold required in E. destruct (dict_get "method" members) as [jp|]; [|discriminate].
  bind_inv. subst. apply validate_method_vocabulary.
Qed.

Lemma test_case_validated (j : json) (tc : TestCase.t) :
  TestCase.model_validate j = Some tc →
  TestCase.status tc ∈ ["pass"; "fail"; "skip"; "skipp"] ∧
  TestCase.responsible_agent tc ∈
    ["product_owner"; "architect"; "backend_engineer"; "frontend_engineer"; ""].
Proof.
  destruct j; try discriminate. unfold TestCase.model_validate. cbn [as_object].
  intros H. bind_inv. injection H as <-.
  cbn [TestCase.status TestCase.responsible_agent]. split.
  - unfold required in E1. destruct (dict_get "status" members); [|discriminate].
    bind_inv. subst. apply validate_status_range.
  - unfold optional in E3. destruct (dict_get "responsible_agent" members).
    + bind_inv. subst. apply validate_responsible_agent_vocabulary.
    + injection E3 as <-. rewrite !elem_of_cons; auto 10.
Qed.

Lemma test_case_new_validated (i d s n a : string) :
  TestCase.status (TestCase.new i d s n a) ∈ ["pass"; "fail"; "skip"; "skipp"] ∧
  TestCase.responsible_agent (TestCase.new i d s n a) ∈
    ["product_owner"; "architect"; "backend_engineer"; "frontend_engineer"; ""].
Proof.
  split; [apply validate_status_range|apply validate_responsible_agent_vocabulary].
Qed.

(** What [model_validate] accepts is well formed, and of the class. *)
Lemma model_validate_well_formed (c : model_class) (data : json) (m : model) :
  model_validate c data = Some m → class_of m = c ∧ well_formed m.
Proof.
  destruct c; cbn [model_validate]; intros H; bind_inv; subst m;
    (split; [reflexivity|]); cbn [well_formed]; try done.
  - intros story Hin. destruct data; try discriminate.
    unfold UserStoriesOutput.model_validate in E. cbn [as_object] in E.
    bind_inv. injection E as <-. cbn [UserStoriesOutput.stories] in Hin.
    destruct (required_elem _ _ _ _ _ E0 Hin) as [jx Hj].
    by eapply user_story_validated.
  - intros endpoint Hin. destruct data; try discriminate.
    unfold SystemDesign.model_validate in E. cbn [as_object] in E.
    bind_inv. injection E as <-. cbn [SystemDesign.endpoints] in Hin.
    destruct (required_elem _ _ _ _ _ E1 Hin) as [jx Hj].
    by eapply api_endpoint_validated.
  - destruct data; try discriminate.
    unfold TestReport.model_validate in E. cbn [as_object] in E.
    bind_inv. injection E as <-.
    cbn [TestReport.overall_status TestReport.test_cases]. split.
    + unfold required in E0.
      destruct (dict_get "overall_status" members); [|discriminate].
      bind_inv. subst. apply validate_overall_status_vocabulary.
    + intros tc Hin. destruct (required_elem _ _ _ _ _ E1 Hin) as [jx Hj].
      by eapply test_case_validated.
Qed.

(** What the salvage returns is well formed, and of the class. *)
Lemma recover_well_formed (text : string) (c : model_class) (m : model) :
  recover_truncated_output text c = Some m → class_of m = c ∧ well_formed m.
Proof.
  destruct c; cbn [recover_truncated_output]; intros H; bind_inv; subst m;
    (split; [reflexivity|]); cbn [well_formed]; try done.
  - intros story Hin. unfold _recover_user_stories in E.
    destruct (map story_of_match _) as [|s0 ss] eqn:Es; [discriminate|].
    injection E as <-. cbn [UserStoriesOutput.stories] in Hin. rewrite <- Es in Hin.
    apply list_elem_of_fmap in Hin as (mo & -> & _).
    apply validate_priority_vocabulary.
  - intros endpoint Hin. unfold _recover_system_design in E.
    set (ms := map model_of_match _) in E. set (es := map endpoint_of_match _) in E.
    assert (He : ∀ e, e ∈ es →
              APIEndpoint.method e ∈ ["GET"; "POST"; "PUT"; "DELETE"; "PATCH"]).
    { intros e (mo & -> & _)%list_elem_of_fmap. apply validate_method_vocabulary. }
    clearbody ms es.
    destruct ms as [|m0 ms], es as [|e0 es]; [discriminate| | |];
      injection E as <-; cbn [SystemDesign.endpoints] in Hin;
      try (by apply He).
    apply list_elem_of_singleton in Hin as ->.
    vm_compute. repeat constructor.
  - unfold _recover_test_report in E.
    set (tcs := match map test_case_of_match _ with [] => _ | _ => _ end) in E.
    assert (Htc : ∀ tc, tc ∈ tcs →
              TestCase.status tc ∈ ["pass"; "fail"; "skip"; "skipp"] ∧
              TestCase.responsible_agent tc ∈
                ["product_owner"; "architect"; "backend_engineer";
                 "frontend_engineer"; ""]).
    { intros tc. unfold tcs.
      destruct (map test_case_of_match _) as [|t0 ts] eqn:Et.
      - intros (mo & -> & _)%list_elem_of_fmap. apply test_case_new_validated.
      - rewrite <- Et. intros (mo & -> & _)%list_elem_of_fmap.
        apply test_case_new_validated. }
    clearbody tcs. destruct tcs as [|t0 ts]; [discriminate|].
    injection E as <-. cbn [TestReport.overall_status TestReport.test_cases TestReport.new].
    split; [apply validate_overall_status_vocabulary|exact Htc].
Qed.

Lemma try_load_well_formed (json_loads : string → option json) (s : string)
    (mc : option model_class) (r : parsed) :
  try_load json_loads s mc = Some r →
  match r with
  | PModel m => mc = Some (class_of m) ∧ well_formed m
  | PData _ => mc = None
  | PError _ => False
  end.
Proof.
  unfold try_load. destruct (json_loads s) as [data|]; [|discriminate].
  destruct mc as [c|]; [|by intros [= <-]].
  intros H. bind_inv. subst r.
  apply model_validate_well_formed in E as [<- Hwf]. done.
Qed.

Lemma ladder_result (json_loads : string → option json) (text : string)
    (mc : option model_class) :
  match safe_parse_json json_loads text mc with
  | (true, PModel m) => mc = Some (class_of m) ∧ well_formed m
  | (true, PData _) => mc = None
  | (false, PError _) => True
  | _ => False
  end.
Proof.
  unfold safe_parse_json.
  destruct (negb (Py.nonempty text)); [done|].
  destruct (extract_json_from_text text) as [js|]; [|done].
  destruct (negb (Py.nonempty js)); [done|].
  repeat (match goal with
          | |- context [try_load json_loads ?s mc] =>
              let E := fresh "E" in
              destruct (try_load json_loads s mc) as [r|] eqn:E;
              [apply try_load_well_formed in E; by destruct r|]
          end).
  destruct mc as [c|]; [|done].
  destruct (recover_truncated_output text c) as [m|] eqn:Er; [|done].
  apply recover_well_formed in Er as [<- Hwf]. done.
Qed.

(** X3.  With a model class, every success of [safe_parse_json] carries an
    instance of that class, whichever rung produced it; without a class,
    every success carries the decoded document; a failure carries a
    message and nothing else. *)
Theorem ladder_returns_instance_of_class (json_loads : string → option json)
    (text : string) (mc : option model_class) :
  match safe_parse_json json_loads text mc with
  | (true, PModel m) => mc = Some (class_of m)
  | (true, PData _) => mc = None
  | (false, PError _) => True
  | _ => False
  end.
Proof.
  pose proof (ladder_result json_loads text mc) as H.
  destruct (safe_parse_json json_loads text mc) as [[|] [m|j|msg]]; try done.
  by destruct H.
Qed.

(** X4.  Every model [safe_parse_json] returns, decoded or salvaged, has
    its enumerated fields in the range of their validators: a story's
    priority is high, medium or low; an endpoint's method is one of the
    five verbs; a report's overall status is pass, fail or needs_review, a
    test case's responsible agent is one of the four stages or empty, and
    its status is pass, fail, skip or the [skipp] that [skipped] is turned
    into. *)
Theorem ladder_returns_validated_fields (json_loads : string → option json)
    (text : string) (mc : option model_class) :
  match safe_parse_json json_loads text mc with
  | (true, PModel m) => well_formed m
  | _ => True
  end.
Proof.
  pose proof (ladder_result json_loads text mc) as H.
  destruct (safe_parse_json json_loads text mc) as [[|] [m|j|msg]]; try done.
  by destruct H.
Qed.

(* ================================================================== *)
(** * Dumping a model and validating the dump *)
(* ================================================================== *)

Lemma validate_priority_fixed (v : string) :
  v ∈ ["high"; "medium"; "low"] → UserStory.validate_priority v = v.
Proof.
  rewrite !elem_of_cons, elem_of_nil. intros [->|[->|[->|[]]]]; reflexivity.
Qed.

Lemma validate_method_fixed (v : string) :
  v ∈ ["GET"; "POST"; "PUT"; "DELETE"; "PATCH"] → APIEndpoint.validate_method v = v.
Proof.
  rewrite !elem_of_cons, elem_of_nil. intros [->|[->|[->|[->|[->|[]]]]]]; reflexivity.
Qed.

Lemma validate_status_fixed (v : string) :
  v ∈ ["pass"; "fail"; "skip"] → TestCase.validate_status v = v.
Proof.
  rewrite !elem_of_cons, elem_of_nil. intros [->|[->|[->|[]]]]; reflexivity.
Qed.

Lemma validate_responsible_agent_fixed (v : string) :
  v ∈ ["product_owner"; "architect"; "backend_engineer"; "frontend_engineer"; ""] →
  TestCase.validate_responsible_agent v = v.
Proof.
  rewrite !elem_of_cons, elem_of_nil. intros [->|[->|[->|[->|[->|[]]]]]]; reflexivity.
Qed.

Lemma validate_overall_status_fixed (v : string) :
  v ∈ ["pass"; "fail"; "needs_review"] → TestReport.validate_overall_status v = v.
Proof.
  rewrite !elem_of_cons, elem_of_nil. intros [->|[->|[->|[]]]]; reflexivity.
Qed.

Lemma mapM_map_Some {A B} (f : B → option A) (g : A → B) (l : list A) :
  (∀ x, x ∈ l → f (g x) = Some x) → mapM f (map g l) = Some l.
Proof.
  intros H. apply mapM_Some. induction l as [|x l IH]; [constructor|].
  cbn [map]. constructor; [apply H; by left|].
  apply IH. intros y Hy. apply H. by right.
Qed.

Lemma strs_round_trip (l : list string) : as_list as_str (Dump.strs l) = Some l.
Proof. unfold Dump.strs. cbn [as_list]. by apply mapM_map_Some. Qed.

Lemma user_story_round_trip (x : UserStory.t) :
  UserStory.priority x ∈ ["high"; "medium"; "low"] →
  UserStory.model_validate (Dump.user_story x) = Some x.
Proof.
  intros H. destruct x as [i t d p]. cbn in H |- *.
  by rewrite (validate_priority_fixed p H).
Qed.

Lemma api_endpoint_round_trip (x : APIEndpoint.t) :
  APIEndpoint.method x ∈ ["GET"; "POST"; "PUT"; "DELETE"; "PATCH"] →
  APIEndpoint.model_validate (Dump.api_endpoint x) = Some x.
Proof.
  intros H. destruct x as [m p d]. cbn in H |- *.
  by rewrite (validate_method_fixed m H).
Qed.

Lemma data_model_round_trip (x : DataModel.t) :
  DataModel.model_validate (Dump.data_model x) = Some x.
Proof.
  destruct x as [n f]. unfold DataModel.model_validate, Dump.data_model.
  cbn [as_object DataModel.name DataModel.fields].
  change (required as_str "name" _) with (Some n).
  change (required (as_list as_str) "fields" _) with (as_list as_str (Dump.strs f)).
  by rewrite strs_round_trip.
Qed.

Lemma code_file_round_trip (x : CodeFile.t) :
  CodeFile.model_validate (Dump.code_file x) = Some x.
Proof. by destruct x. Qed.

Lemma test_case_round_trip (x : TestCase.t) :
  TestCase.status x ∈ ["pass"; "fail"; "skip"] →
  TestCase.responsible_agent x ∈
    ["product_owner"; "architect"; "backend_engineer"; "frontend_engineer"; ""] →
  TestCase.model_validate (Dump.test_case x) = Some x.
Proof.
  intros Hs Ha. destruct x as [i d s n a]. cbn in Hs, Ha |- *.
  by rewrite (validate_status_fixed s Hs), (validate_responsible_agent_fixed a Ha).
Qed.

Lemma issues_round_trip (l : list (string * list string)) :
  TestReport.as_issues (JObj (map (λ kv, (fst kv, Dump.strs (snd kv))) l)) = Some l.
Proof.
  cbn [TestReport.as_issues]. apply mapM_Some.
  induction l as [|[k v] l IH]; [constructor|].
  cbn [map]. constructor; [|exact IH].
  cbn [fst snd]. by rewrite strs_round_trip.
Qed.

(** X5.  Validation is idempotent on the five stage schemas: the dump of a
    validated model validates again, to the same model.  For a test report
    this holds when no test case has the status [skipp], the one value of
    a validator that the validator does not keep. *)
Theorem dump_validates_to_the_same_model (c : model_class) (data : json) (m : model) :
  model_validate c data = Some m →
  (∀ r tc, m = MTestReport r → tc ∈ TestReport.test_cases r →
           TestCase.status tc ≠ "skipp") →
  model_validate c (model_dump m) = Some m.
Proof.
  intros Hv Hskipp. apply model_validate_well_formed in Hv as [<- Hwf].
  destruct m as [x|x|x|x|x]; cbn [class_of model_validate model_dump well_formed] in *.
  - destruct x as [stories summary].
    unfold UserStoriesOutput.model_validate, Dump.user_stories_output.
    cbn [as_object UserStoriesOutput.stories UserStoriesOutput.summary] in *.
    change (required (as_list UserStory.model_validate) "stories" _)
      with (mapM UserStory.model_validate (map Dump.user_story stories)).
    rewrite mapM_map_Some; [done|].
    intros s Hs. apply user_story_round_trip. by apply Hwf.
  - destruct x as [models endpoints notes].
    unfold SystemDesign.model_validate, Dump.system_design.
    cbn [as_object SystemDesign.models SystemDesign.endpoints
           SystemDesign.architecture_notes] in *.
    change (required (as_list DataModel.model_validate) "models" _)
      with (mapM DataModel.model_validate (map Dump.data_model models)).
    rewrite mapM_map_Some by (intros; apply data_model_round_trip).
    change (required (as_list APIEndpoint.model_validate) "endpoints" _)
      with (mapM APIEndpoint.model_validate (map Dump.api_endpoint endpoints)).
    rewrite mapM_map_Some; [done|].
    intros e He. apply api_endpoint_round_trip. by apply Hwf.
  - destruct x as [files setup].
    unfold BackendCode.model_validate, Dump.backend_code.
    cbn [as_object BackendCode.files BackendCode.setup_instructions].
    change (required (as_list CodeFile.model_validate) "files" _)
      with (mapM CodeFile.model_validate (map Dump.code_file files)).
    by rewrite mapM_map_Some by (intros; apply code_file_round_trip).
  - destruct x as [files setup].
    unfold FrontendCode.model_validate, Dump.frontend_code.
    cbn [as_object FrontendCode.files FrontendCode.setup_instructions].
    change (required (as_list CodeFile.model_validate) "files" _)
      with (mapM CodeFile.model_validate (map Dump.code_file files)).
    by rewrite mapM_map_Some by (intros; apply code_file_round_trip).
  - destruct x as [overall cases summary recs issues].
    destruct Hwf as [Ho Hc].
    unfold TestReport.model_validate, Dump.test_report.
    cbn [as_object TestReport.overall_status TestReport.test_cases TestReport.summary
           TestReport.recommendations TestReport.issues_by_agent] in *.
    change (required _ "overall_status" _)
      with (Some (TestReport.validate_overall_status overall)).
    rewrite (validate_overall_status_fixed overall Ho).
    change (required (as_list TestCase.model_validate) "test_cases" _)
      with (mapM TestCase.model_validate (map Dump.test_case cases)).
    rewrite mapM_map_Some.
    2:{ intros tc Htc. destruct (Hc tc Htc) as [Hs Ha].
        apply test_case_round_trip; [|done].
        rewrite !elem_of_cons, elem_of_nil in Hs.
        destruct Hs as [Hs|[Hs|[Hs|[Hs|[]]]]];
          [rewrite Hs; rewrite !elem_of_cons; auto..|].
        by destruct (Hskipp _ tc eq_refl Htc). }
    change (optional as_str "summary" "" _) with (Some summary).
    change (optional (as_list as_str) "recommendations" [] _)
      with (as_list as_str (Dump.strs recs)).
    rewrite strs_round_trip.
    change (optional TestReport.as_issues "issues_by_agent" _ _)
      with (TestReport.as_issues
              (JObj (map (λ kv, (fst kv, Dump.strs (snd kv))) issues))).
    by rewrite issues_round_trip.
Qed.

Lemma dump_validates_to_the_same_model_witness :
  model_validate ClsTestReport
    (model_dump (MTestReport (TestReport.mk "fail" [Ex.tc_pass; Ex.tc_fail_design "TC002"]
                                "s" ["r"] TestReport.default_issues_by_agent)))
  = Some (MTestReport (TestReport.mk "fail" [Ex.tc_pass; Ex.tc_fail_design "TC002"]
                         "s" ["r"] TestReport.default_issues_by_agent)).
Proof.
  apply (dump_validates_to_the_same_model ClsTestReport
           (Dump.test_report (TestReport.mk "FAILED"
                                [Ex.tc_pass; Ex.tc_fail_design "TC002"] "s" ["r"]
                                TestReport.default_issues_by_agent))).
  - vm_compute. reflexivity.
  - intros r tc [= <-] Htc. cbn [TestReport.test_cases] in Htc.
    rewrite !elem_of_cons, elem_of_nil in Htc.
    destruct Htc as [->|[->|[]]]; discriminate.
Defined.

(* ================================================================== *)
(** * What the groups of a pattern capture *)
(* ================================================================== *)

Lemma lang_captures (i : nat) (P : list ascii → Prop) r w rest cs cs' :
  Re.lang r w rest cs cs' → captures r i P →
  (Re.group_l i cs' = Re.group_l i cs ∨ P (Re.group_l i cs')) ∧
  (binds r i = true → P (Re.group_l i cs')).
Proof.
  intros L. induction L; cbn [captures binds]; intros Hc;
    try (split; [by left|discriminate]).
  - destruct Hc as [Hc1 Hc2].
    destruct (IHL1 Hc1) as [Ha1 Hb1], (IHL2 Hc2) as [Ha2 Hb2]. split.
    + destruct Ha2 as [->|K]; [exact Ha1|by right].
    + intros [K|K]%orb_true_iff; [|by apply Hb2].
      destruct Ha2 as [->|K']; [by apply Hb1|done].
  - destruct Hc as [Hc1 Hc2]. destruct (IHL Hc1) as [Ha Hb].
    split; [done|]. intros [K _]%andb_true_iff. by apply Hb.
  - destruct Hc as [Hc1 Hc2]. destruct (IHL Hc2) as [Ha Hb].
    split; [done|]. intros [_ K]%andb_true_iff. by apply Hb.
  - destruct (IHL1 Hc) as [Ha1 _], (IHL2 Hc) as [Ha2 _]. split; [|discriminate].
    destruct Ha2 as [->|K]; [exact Ha1|by right].
  - destruct Hc as [Hc1 Hc2]. destruct (IHL Hc1) as [Ha Hb].
    unfold Re.set_group. cbn [Re.group_l].
    destruct (Nat.eqb_spec i i0) as [->|Hne].
    + split; [right|intros _]; by eapply Hc2.
    + split; [done|]. intros [K|K]%orb_true_iff; [|by apply Hb].
      apply Nat.eqb_eq in K. congruence.
Qed.

(** The group [i] of a match of a pattern that binds it satisfies what the
    pattern's groups [i] capture. *)
Lemma found_captures (i : nat) (P : list ascii → Prop) (r : Re.regex)
    (text : list ascii) (m : Re.mobj) :
  found r text m → captures r i P → binds r i = true →
  P (Re.group_l i (Re.m_caps m)).
Proof.
  intros (pre & post & _ & L) Hc Hb.
  by apply (lang_captures i P _ _ _ _ _ L Hc).
Qed.

Lemma lang_star_class g neg items w rest cs cs' :
  Re.lang (Re.Star g (Re.Cls neg items)) w rest cs cs' →
  Forall (λ a, Re.in_class neg items a = true) w.
Proof.
  remember (Re.Star g (Re.Cls neg items)) as r eqn:Er. intros L.
  induction L; try discriminate; injection Er as -> ->; [constructor|].
  apply Forall_app. split; [|by apply IHL2].
  inversion L1; subst. by constructor.
Qed.

Lemma lang_not_quote_plus w rest cs cs' :
  Re.lang Re.not_quote_plus w rest cs cs' → quote_free w.
Proof.
  unfold Re.not_quote_plus, Re.Plus.
  intros (w1 & w2 & cs1 & -> & L1 & L2)%lang_cat_inv.
  apply lang_star_class in L2. inversion L1 as [| |? ? a ? ? Ha| | | | | | | |]; subst.
  split; [done|]. intros Hin.
  assert (Hall : Forall (λ a, Re.in_class true [Re.CChar Re.dquote] a = true) ([a] ++ w2))
    by (apply Forall_app; split; [by constructor|done]).
  rewrite Forall_forall in Hall. specialize (Hall _ Hin). by vm_compute in Hall.
Qed.

Ltac captures_quote_free :=
  repeat match goal with
         | |- _ ∧ _ => split
         | |- True => exact I
         | |- ?x = ?x => reflexivity
         | |- _ = _ → _ =>
             first [ intros _ w rest cs cs' L; by eapply lang_not_quote_plus
                   | intros [=] ]
         end.

Lemma file_pattern_filename :
  captures file_pattern 1 quote_free ∧ binds file_pattern 1 = true ∧
  captures file_pattern_simple 1 quote_free ∧ binds file_pattern_simple 1 = true.
Proof. cbn. captures_quote_free. Qed.

Lemma tc_pattern_id :
  captures tc_pattern 1 quote_free ∧ binds tc_pattern 1 = true ∧
  captures tc_pattern_simple 1 quote_free ∧ binds tc_pattern_simple 1 = true.
Proof. cbn. captures_quote_free. Qed.

Lemma finditer_captures (i : nat) (P : list ascii → Prop) (r : Re.regex)
    (text : string) (m : Re.mobj) :
  captures r i P → binds r i = true → m ∈ Re.finditer r text →
  P (Py.chars (Re.group m i)) ∧ stretch (Py.chars (Re.group m i)) (Py.chars text).
Proof.
  intros Hc Hb Hm. apply finditer_sound in Hm. split.
  - unfold Re.group. rewrite chars_of_chars. by eapply found_captures.
  - by eapply found_group_in_text.
Qed.

(* ================================================================== *)
(** * The salvage of code files and of test reports *)
(* ================================================================== *)

Lemma recovered_files_filename (text : string) (f : CodeFile.t) :
  f ∈ recovered_files text →
  quote_free (Py.chars (CodeFile.filename f)) ∧
  stretch (Py.chars (CodeFile.filename f)) (Py.chars text).
Proof.
  destruct file_pattern_filename as (C1 & B1 & C2 & B2).
  unfold recovered_files.
  destruct (map file_of_match _) as [|f0 fs] eqn:E.
  - intros (m & -> & Hm)%list_elem_of_fmap.
    exact (finditer_captures 1 quote_free _ text m C2 B2 Hm).
  - rewrite <- E. intros (m & -> & Hm)%list_elem_of_fmap.
    exact (finditer_captures 1 quote_free _ text m C1 B1 Hm).
Qed.

(** X6.  The salvage of a stage's code returns files only together with
    the entry file of the stage: a salvaged backend has a file whose name
    holds [main], a salvaged frontend one whose name holds [index]
    (whatever the case of the letters); complete files without it are
    given up.  The name of every salvaged file stands in the text as it is,
    is not empty and holds no double quote. *)
Theorem salvaged_code_has_its_entry_file (text : string) :
  (∀ out, _recover_backend_code text = Some out →
     BackendCode.files out = recovered_files text ∧
     has_file "main" (BackendCode.files out) = true ∧
     ∀ f, f ∈ BackendCode.files out →
          quote_free (Py.chars (CodeFile.filename f)) ∧
          stretch (Py.chars (CodeFile.filename f)) (Py.chars text)) ∧
  (∀ out, _recover_frontend_code text = Some out →
     FrontendCode.files out = recovered_files text ∧
     has_file "index" (FrontendCode.files out) = true ∧
     ∀ f, f ∈ FrontendCode.files out →
          quote_free (Py.chars (CodeFile.filename f)) ∧
          stretch (Py.chars (CodeFile.filename f)) (Py.chars text)) ∧
  (has_file "main" (recovered_files text) = false → _recover_backend_code text = None) ∧
  (has_file "index" (recovered_files text) = false → _recover_frontend_code text = None).
Proof.
  unfold _recover_backend_code, _recover_frontend_code.
  pose proof (recovered_files_filename text) as Hf.
  destruct (recovered_files text) as [|f0 fs] eqn:E.
  { repeat split; try discriminate; done. }
  cbv zeta. split; [|split; [|split]].
  - destruct (has_file "main" (f0 :: fs)) eqn:Hm; [|discriminate].
    intros out [= <-]. cbn [BackendCode.files]. done.
  - destruct (has_file "index" (f0 :: fs)) eqn:Hm; [|discriminate].
    intros out [= <-]. cbn [FrontendCode.files]. done.
  - by intros ->.
  - by intros ->.
Qed.

Lemma salvaged_code_has_its_entry_file_witness :
  _recover_backend_code
    (sq2dq "{'files': [{'filename': 'models.py', 'content': 'x = 1', 'description': 'data'}, {'filename': 'ma")
  = None.
Proof.
  apply (proj1 (proj2 (proj2 (salvaged_code_has_its_entry_file _)))).
  vm_compute. reflexivity.
Defined.

Lemma recovered_cases (text : string) (out : TestReport.t) :
  _recover_test_report text = Some out →
  TestReport.issues_by_agent out = TestReport.default_issues_by_agent ∧
  TestReport.test_cases out ≠ [] ∧
  TestReport.test_cases out
  = match map test_case_of_match (Re.finditer tc_pattern text) with
    | [] => map test_case_of_match_simple (Re.finditer tc_pattern_simple text)
    | tcs => tcs
    end.
Proof.
  unfold _recover_test_report.
  set (tcs := match map test_case_of_match _ with [] => _ | _ => _ end).
  destruct tcs as [|t0 ts] eqn:E; [discriminate|].
  intros [= <-]. cbn [TestReport.new TestReport.issues_by_agent TestReport.test_cases].
  done.
Qed.

Lemma salvaged_report_fields (text : string) (out : TestReport.t) :
  _recover_test_report text = Some out →
  TestReport.issues_by_agent out
  = [("product_owner", []); ("architect", []); ("backend_engineer", []);
     ("frontend_engineer", [])] ∧
  TestReport.test_cases out ≠ [] ∧
  (∀ tc, tc ∈ TestReport.test_cases out →
         quote_free (Py.chars (TestCase.id tc)) ∧
         stretch (Py.chars (TestCase.id tc)) (Py.chars text)) ∧
  (Re.finditer tc_pattern text = [] →
   ∀ tc, tc ∈ TestReport.test_cases out →
         TestCase.notes tc = "" ∧ TestCase.responsible_agent tc = "").
Proof.
  intros H. apply recovered_cases in H as (Hi & Hne & Htc).
  destruct tc_pattern_id as (C1 & B1 & C2 & B2).
  split; [exact Hi|]. split; [exact Hne|]. rewrite Htc. split.
  - intros tc. destruct (map test_case_of_match _) as [|t0 ts] eqn:E.
    + intros (m & -> & Hm)%list_elem_of_fmap.
      exact (finditer_captures 1 quote_free _ text m C2 B2 Hm).
    + rewrite <- E. intros (m & -> & Hm)%list_elem_of_fmap.
      exact (finditer_captures 1 quote_free _ text m C1 B1 Hm).
  - intros -> tc. cbn [map].
    intros (m & -> & Hm)%list_elem_of_fmap. done.
Qed.

(** X7.  A salvaged test report has at least one test case, and the four
    stages with no issue as its issues by agent; every salvaged test case
    has an id that stands in the text, is not empty and holds no double
    quote.  When no record of the text is complete, so that the cases come
    from records cut off after their status, no case has notes or a
    responsible agent. *)
Theorem salvaged_report_has_no_issue_lists (text : string) (out : TestReport.t) :
  _recover_test_report text = Some out →
  TestReport.issues_by_agent out
  = [("product_owner", []); ("architect", []); ("backend_engineer", []);
     ("frontend_engineer", [])] ∧
  TestReport.test_cases out ≠ [] ∧
  (∀ tc, tc ∈ TestReport.test_cases out →
         quote_free (Py.chars (TestCase.id tc)) ∧
         stretch (Py.chars (TestCase.id tc)) (Py.chars text)) ∧
  (Re.finditer tc_pattern text = [] →
   ∀ tc, tc ∈ TestReport.test_cases out →
         TestCase.notes tc = "" ∧ TestCase.responsible_agent tc = "").
Proof. apply salvaged_report_fields. Qed.

Lemma salvaged_report_has_no_issue_lists_witness :
  ∃ out, _recover_test_report Ex6.report_cut_off = Some out ∧
         length (TestReport.test_cases out) = 2 ∧
         ∀ tc, tc ∈ TestReport.test_cases out → TestCase.responsible_agent tc = "".
Proof.
  destruct (_recover_test_report Ex6.report_cut_off) as [out|] eqn:E;
    [|by vm_compute in E].
  exists out. split; [done|].
  destruct (salvaged_report_has_no_issue_lists _ _ E) as (_ & _ & _ & H).
  split.
  - vm_compute in E. injection E as <-. reflexivity.
  - intros tc Htc. apply H; [vm_compute; reflexivity|done].
Defined.

(* ================================================================== *)
(** * The planner on a salvaged report *)
(* ================================================================== *)

Lemma default_issues_empty (a : string) (issues : list string) :
  (a, issues) ∈ TestReport.default_issues_by_agent → issues = [].
Proof.
  unfold TestReport.default_issues_by_agent. rewrite !elem_of_cons, elem_of_nil.
  intros [H|[H|[H|[H|[]]]]]; by injection H.
Qed.

(** X8.  On a stored report that was salvaged, the agents with issues are
    the responsible agents of the failed test cases and nothing else, for
    the salvage fills in no issue list.  When the salvage took its cases
    from records cut off after their status, no agent is responsible, and
    the fallback decision is to stop, with no agent to re-run, however many
    cases failed. *)
Theorem fallback_on_salvaged_report (text : string) (out : TestReport.t)
    (self : ContextManager) :
  _recover_test_report text = Some out →
  test_report self = Some out →
  (∀ a, a ∈ _get_agents_with_issues_from_report self ↔
        ∃ tc, tc ∈ TestReport.test_cases out ∧ is_failed tc = true ∧
              TestCase.responsible_agent tc = a ∧ a ≠ "") ∧
  (Re.finditer tc_pattern text = [] →
   ∃ d, _get_fallback_decision self = Ret d ∧
        should_continue d = JBool false ∧ agents_to_rerun d = []).
Proof.
  intros Hrec Hrep.
  destruct (salvaged_report_fields text out Hrec) as (Hi & _ & _ & Hsimple).
  assert (Howners : ∀ a, a ∈ _get_agents_with_issues_from_report self ↔
            ∃ tc, tc ∈ TestReport.test_cases out ∧ is_failed tc = true ∧
                  TestCase.responsible_agent tc = a ∧ a ≠ "").
  { intros a. rewrite (elem_of_agents_with_issues self out a Hrep). split; [|by right].
    intros [(issues & Hin & Hne)|H]; [|done].
    rewrite Hi in Hin. by apply default_issues_empty in Hin. }
  split; [exact Howners|].
  intros Hnone. rewrite (fallback_decision_stored self out Hrep). cbv zeta.
  destruct (_ && _); [by eexists|].
  assert (Hempty : _get_agents_with_issues_from_report self = ∅).
  { apply elem_of_equiv_empty_L. intros a (tc & Htc & _ & Ha & Hne)%Howners.
    destruct (Hsimple Hnone tc Htc) as [_ Hr]. congruence. }
  rewrite Hempty. rewrite bool_decide_eq_false_2 by (intros H; by apply H).
  by eexists.
Qed.

Lemma fallback_on_salvaged_report_witness :
  ∃ out d, _recover_test_report Ex6.report_cut_off = Some out ∧
           existsb is_failed (TestReport.test_cases out) = true ∧
           _get_fallback_decision (Ex.context_with out) = Ret d ∧
           should_continue d = JBool false ∧ agents_to_rerun d = [].
Proof.
  destruct (_recover_test_report Ex6.report_cut_off) as [out|] eqn:E;
    [|by vm_compute in E].
  destruct (fallback_on_salvaged_report Ex6.report_cut_off out (Ex.context_with out) E
              eq_refl) as [_ H].
  destruct H as (d & Hd & Hs & Ha); [vm_compute; reflexivity|].
  exists out, d. split; [done|]. split; [|done].
  vm_compute in E. injection E as <-. reflexivity.
Defined.

(* ================================================================== *)
(** * The guardrails *)
(* ================================================================== *)

Lemma nonempty_ne (s : string) : Py.nonempty s = true ↔ s ≠ "".
Proof. destruct s; cbn; split; intros; congruence. Qed.

Lemma negb_nonempty (s : string) : negb (Py.nonempty s) = false ↔ s ≠ "".
Proof. rewrite negb_false_iff. apply nonempty_ne. Qed.

Lemma find_none_forall {A} (p : A → bool) (l : list A) :
  find p l = None ↔ ∀ x, x ∈ l → p x = false.
Proof.
  split.
  - intros H x Hx. apply list_elem_of_In in Hx. by eapply find_none.
  - intros H. induction l as [|a l IH]; [done|]. cbn [find].
    rewrite (H a) by (by left). apply IH. intros x Hx. apply H. by right.
Qed.

Lemma filter_nil_forall {A} (p : A → bool) (l : list A) :
  List.filter p l = [] ↔ ∀ x, x ∈ l → p x = false.
Proof.
  induction l as [|a l IH]; cbn [List.filter].
  - split; [intros _ x Hx; by apply elem_of_nil in Hx|done].
  - destruct (p a) eqn:E.
    + split; [discriminate|]. intros H. rewrite (H a) in E by (by left). discriminate.
    + rewrite IH. split.
      * intros H x [->|Hx]%elem_of_cons; [done|by apply H].
      * intros H x Hx. apply H. by right.
Qed.

Lemma in_vocabulary_nonempty (v : string) (l : list string) :
  v ∈ l → "" ∉ l → v ≠ "".
Proof. intros H Hn ->. done. Qed.

Section GuardrailFacts.
Variable json_loads : string → option json.
Variable model_dump_json : model → string.

(** What the ladder hands to a guardrail. *)
Lemma guardrail_input (text : string) (c : model_class) :
  match safe_parse_json json_loads text (Some c) with
  | (true, PModel m) => class_of m = c ∧ well_formed m
  | (true, _) => False
  | (false, PError _) => True
  | (false, _) => False
  end.
Proof.
  pose proof (ladder_result json_loads text (Some c)) as H.
  destruct (safe_parse_json json_loads text (Some c)) as [[|] [m|j|msg]]; try done.
  destruct H as [[= ->] Hwf]. done.
Qed.

(** X9.  [validate_user_stories] accepts a result exactly when the ladder
    returns user stories for its text, there is at least one story, and
    every story has an id, a title and a description that are not empty;
    what it then answers is the JSON dump of the parsed stories, and the
    priority of every accepted story is high, medium or low. *)
Theorem user_stories_guardrail (result : guard_result) (out : string) :
  validate_user_stories json_loads model_dump_json result = (true, out) ↔
  ∃ parsed,
    safe_parse_json json_loads (raw_of result) (Some ClsUserStoriesOutput)
    = (true, PModel (MUserStoriesOutput parsed)) ∧
    out = model_dump_json (MUserStoriesOutput parsed) ∧
    UserStoriesOutput.stories parsed ≠ [] ∧
    ∀ story, story ∈ UserStoriesOutput.stories parsed →
             UserStory.id story ≠ "" ∧ UserStory.title story ≠ "" ∧
             UserStory.description story ≠ "" ∧
             UserStory.priority story ∈ ["high"; "medium"; "low"].
Proof.
  unfold validate_user_stories. cbv zeta.
  pose proof (guardrail_input (raw_of result) ClsUserStoriesOutput) as Hin.
  destruct (safe_parse_json _ _ _) as [[|] [m|j|msg]]; try done;
    try (split; [discriminate|by intros (? & [=] & _)]).
  destruct Hin as [Hc Hwf]. destruct m as [x|x|x|x|x]; try discriminate Hc.
  cbn [well_formed] in Hwf.
  destruct (UserStoriesOutput.stories x) as [|s0 ss] eqn:Es.
  { split; [discriminate|]. intros (p & [= <-] & _ & Hne & _). congruence. }
  destruct (find story_incomplete (s0 :: ss)) as [bad|] eqn:Ef.
  { split; [discriminate|]. intros (p & [= <-] & _ & _ & Hall).
    rewrite Es in Hall. apply find_some in Ef as [Hb Hi].
    apply list_elem_of_In in Hb. destruct (Hall _ Hb) as (H1 & H2 & H3 & _).
    unfold story_incomplete in Hi.
    apply nonempty_ne in H1, H2, H3. by rewrite H1, H2, H3 in Hi. }
  split.
  - intros [= <-]. exists x. split; [done|]. split; [done|]. rewrite Es.
    split; [done|]. intros story Hs.
    rewrite find_none_forall in Ef. specialize (Ef _ Hs).
    unfold story_incomplete in Ef. rewrite !orb_false_iff, !negb_nonempty in Ef.
    destruct Ef as [[H1 H2] H3]. by specialize (Hwf _ Hs).
  - by intros (p & [= <-] & -> & _).
Qed.

(** X10.  [validate_system_design] accepts a result exactly when the
    ladder returns a design with at least one model and one endpoint,
    every model has a name and at least one field, and every endpoint has
    a path and a description; the method of an accepted endpoint is one of
    the five verbs, so the check on an empty method never decides. *)
Theorem system_design_guardrail (result : guard_result) (out : string) :
  validate_system_design json_loads model_dump_json result = (true, out) ↔
  ∃ parsed,
    safe_parse_json json_loads (raw_of result) (Some ClsSystemDesign)
    = (true, PModel (MSystemDesign parsed)) ∧
    out = model_dump_json (MSystemDesign parsed) ∧
    SystemDesign.models parsed ≠ [] ∧ SystemDesign.endpoints parsed ≠ [] ∧
    (∀ model, model ∈ SystemDesign.models parsed →
              DataModel.name model ≠ "" ∧ DataModel.fields model ≠ []) ∧
    (∀ endpoint, endpoint ∈ SystemDesign.endpoints parsed →
                 APIEndpoint.path endpoint ≠ "" ∧ APIEndpoint.description endpoint ≠ "" ∧
                 APIEndpoint.method endpoint ∈ ["GET"; "POST"; "PUT"; "DELETE"; "PATCH"]).
Proof.
  unfold validate_system_design. cbv zeta.
  pose proof (guardrail_input (raw_of result) ClsSystemDesign) as Hin.
  destruct (safe_parse_json _ _ _) as [[|] [m|j|msg]]; try done;
    try (split; [discriminate|by intros (? & [=] & _)]).
  destruct Hin as [Hc Hwf]. destruct m as [x|x|x|x|x]; try discriminate Hc.
  cbn [well_formed] in Hwf.
  destruct (SystemDesign.models x) as [|m0 ms] eqn:Em.
  { split; [discriminate|]. intros (p & [= <-] & _ & Hne & _). congruence. }
  destruct (SystemDesign.endpoints x) as [|e0 es] eqn:Ee.
  { split; [discriminate|]. intros (p & [= <-] & _ & _ & Hne & _). congruence. }
  destruct (find model_incomplete (m0 :: ms)) as [bad|] eqn:Ef.
  { split; [discriminate|]. intros (p & [= <-] & _ & _ & _ & Hall & _).
    rewrite Em in Hall. apply find_some in Ef as [Hb Hi].
    apply list_elem_of_In in Hb. destruct (Hall _ Hb) as (H1 & H2).
    unfold model_incomplete in Hi. apply nonempty_ne in H1. rewrite H1 in Hi.
    by destruct (DataModel.fields bad). }
  destruct (find endpoint_incomplete (e0 :: es)) as [bad|] eqn:Eg.
  { split; [discriminate|]. intros (p & [= <-] & _ & _ & _ & _ & Hall).
    rewrite Ee in Hall. apply find_some in Eg as [Hb Hi].
    apply list_elem_of_In in Hb. destruct (Hall _ Hb) as (H1 & H2 & H3).
    assert (H0 : APIEndpoint.method bad ≠ "").
    { eapply in_vocabulary_nonempty; [exact H3|].
      rewrite !elem_of_cons, elem_of_nil. intros [H|[H|[H|[H|[H|[]]]]]]; discriminate. }
    unfold endpoint_incomplete in Hi.
    apply nonempty_ne in H0, H1, H2. by rewrite H0, H1, H2 in Hi. }
  split.
  - intros [= <-]. exists x. split; [done|]. split; [done|]. rewrite Em, Ee.
    split; [done|]. split; [done|]. split.
    + intros model Hm. rewrite find_none_forall in Ef. specialize (Ef _ Hm).
      unfold model_incomplete in Ef. rewrite orb_false_iff, negb_nonempty in Ef.
      destruct Ef as [H1 H2]. split; [done|]. by destruct (DataModel.fields model).
    + intros endpoint He. rewrite find_none_forall in Eg. specialize (Eg _ He).
      unfold endpoint_incomplete in Eg. rewrite !orb_false_iff, !negb_nonempty in Eg.
      destruct Eg as [[H1 H2] H3]. by specialize (Hwf _ He).
  - by intros (p & [= <-] & -> & _).
Qed.

Lemma backend_code_accepted (result : guard_result) (out : string) :
  validate_backend_code json_loads model_dump_json result = (true, out) ↔
  ∃ parsed,
    safe_parse_json json_loads (raw_of result) (Some ClsBackendCode)
    = (true, PModel (MBackendCode parsed)) ∧
    out = model_dump_json (MBackendCode parsed) ∧
    has_file "main" (BackendCode.files parsed) = true ∧
    ∀ file, file ∈ BackendCode.files parsed →
            CodeFile.filename file ≠ "" ∧ CodeFile.content file ≠ "".
Proof.
  unfold validate_backend_code. cbv zeta.
  pose proof (guardrail_input (raw_of result) ClsBackendCode) as Hin.
  destruct (safe_parse_json _ _ _) as [[|] [m|j|msg]]; try done;
    try (split; [discriminate|by intros (? & [=] & _)]).
  destruct Hin as [Hc Hwf]. destruct m as [x|x|x|x|x]; try discriminate Hc.
  destruct (BackendCode.files x) as [|f0 fs] eqn:Es.
  { split; [discriminate|]. intros (p & [= <-] & _ & Hm & _). by rewrite Es in Hm. }
  destruct (has_file "main" (f0 :: fs)) eqn:Hm; cbn [negb].
  2:{ split; [discriminate|]. intros (p & [= <-] & _ & Hm' & _). congruence. }
  destruct (find file_incomplete (f0 :: fs)) as [bad|] eqn:Ef.
  { split; [discriminate|]. intros (p & [= <-] & _ & _ & Hall).
    rewrite Es in Hall. apply find_some in Ef as [Hb Hi].
    apply list_elem_of_In in Hb. destruct (Hall _ Hb) as (H1 & H2).
    unfold file_incomplete in Hi. apply nonempty_ne in H1, H2. by rewrite H1, H2 in Hi. }
  split.
  - intros [= <-]. exists x. split; [done|]. split; [done|]. rewrite Es.
    split; [done|]. intros file Hf. rewrite find_none_forall in Ef.
    specialize (Ef _ Hf). unfold file_incomplete in Ef.
    by rewrite orb_false_iff, !negb_nonempty in Ef.
  - by intros (p & [= <-] & -> & _).
Qed.

Lemma frontend_code_accepted (result : guard_result) (out : string) :
  validate_frontend_code json_loads model_dump_json result = (true, out) ↔
  ∃ parsed,
    safe_parse_json json_loads (raw_of result) (Some ClsFrontendCode)
    = (true, PModel (MFrontendCode parsed)) ∧
    out = model_dump_json (MFrontendCode parsed) ∧
    has_file "index" (FrontendCode.files parsed) = true ∧
    ∀ file, file ∈ FrontendCode.files parsed →
            CodeFile.filename file ≠ "" ∧ CodeFile.content file ≠ "".
Proof.
  unfold validate_frontend_code. cbv zeta.
  pose proof (guardrail_input (raw_of result) ClsFrontendCode) as Hin.
  destruct (safe_parse_json _ _ _) as [[|] [m|j|msg]]; try done;
    try (split; [discriminate|by intros (? & [=] & _)]).
  destruct Hin as [Hc Hwf]. destruct m as [x|x|x|x|x]; try discriminate Hc.
  destruct (FrontendCode.files x) as [|f0 fs] eqn:Es.
  { split; [discriminate|]. intros (p & [= <-] & _ & Hm & _). by rewrite Es in Hm. }
  destruct (has_file "index" (f0 :: fs)) eqn:Hm; cbn [negb].
  2:{ split; [discriminate|]. intros (p & [= <-] & _ & Hm' & _). congruence. }
  destruct (find file_incomplete (f0 :: fs)) as [bad|] eqn:Ef.
  { split; [discriminate|]. intros (p & [= <-] & _ & _ & Hall).
    rewrite Es in Hall. apply find_some in Ef as [Hb Hi].
    apply list_elem_of_In in Hb. destruct (Hall _ Hb) as (H1 & H2).
    unfold file_incomplete in Hi. apply nonempty_ne in H1, H2. by rewrite H1, H2 in Hi. }
  split.
  - intros [= <-]. exists x. split; [done|]. split; [done|]. rewrite Es.
    split; [done|]. intros file Hf. rewrite find_none_forall in Ef.
    specialize (Ef _ Hf). unfold file_incomplete in Ef.
    by rewrite orb_false_iff, !negb_nonempty in Ef.
  - by intros (p & [= <-] & -> & _).
Qed.

End GuardrailFacts.

Lemma status_nonempty (tc : TestCase.t) :
  TestCase.status tc ∈ ["pass"; "fail"; "skip"; "skipp"] →
  Py.nonempty (TestCase.status tc) = true.
Proof.
  rewrite !elem_of_cons, elem_of_nil. intros [->|[->|[->|[->|[]]]]]; reflexivity.
Qed.

Lemma agent_never_invalid (tc : TestCase.t) :
  TestCase.responsible_agent tc ∈
    ["product_owner"; "architect"; "backend_engineer"; "frontend_engineer"; ""] →
  agent_invalid tc = false.
Proof.
  intros H. unfold agent_invalid. apply mem_In in H. rewrite H. cbn [negb].
  apply andb_false_r.
Qed.

Lemma agent_is_a_stage (a : string) :
  a ∈ ["product_owner"; "architect"; "backend_engineer"; "frontend_engineer"; ""] →
  a ≠ "" → a ∈ valid_agents.
Proof.
  unfold valid_agents, AGENT_PRODUCT_OWNER, AGENT_ARCHITECT, AGENT_BACKEND_ENGINEER,
    AGENT_FRONTEND_ENGINEER.
  rewrite !elem_of_cons, !elem_of_nil. intros [H|[H|[H|[H|[H|[]]]]]] Hne; auto 10.
Qed.

Lemma status_is_fail_eq (tc : TestCase.t) :
  status_is_fail tc = true ↔ TestCase.status tc = "fail".
Proof. unfold status_is_fail. apply String.eqb_eq. Qed.

Section TestReportGuardrail.
Variable json_loads : string → option json.
Variable model_dump_json : model → string.

Lemma test_report_accepted (result : guard_result) (out : string) :
  validate_test_report json_loads model_dump_json result = (true, out) ↔
  ∃ parsed,
    safe_parse_json json_loads (raw_of result) (Some ClsTestReport)
    = (true, PModel (MTestReport parsed)) ∧
    out = model_dump_json (MTestReport parsed) ∧
    TestReport.test_cases parsed ≠ [] ∧
    (∀ tc, tc ∈ TestReport.test_cases parsed →
           TestCase.id tc ≠ "" ∧ TestCase.description tc ≠ "" ∧
           (TestCase.status tc = "fail" → TestCase.responsible_agent tc ∈ valid_agents)) ∧
    (TestReport.overall_status parsed = "pass" →
     ∀ tc, tc ∈ TestReport.test_cases parsed → TestCase.status tc ≠ "fail").
Proof.
  unfold validate_test_report. cbv zeta.
  pose proof (guardrail_input json_loads (raw_of result) ClsTestReport) as Hin.
  destruct (safe_parse_json _ _ _) as [[|] [m|j|msg]]; try done;
    try (split; [discriminate|by intros (? & [=] & _)]).
  destruct Hin as [Hc Hwf]. destruct m as [x|x|x|x|x]; try discriminate Hc.
  cbn [well_formed] in Hwf. destruct Hwf as [Ho Hwf].
  destruct (TestReport.test_cases x) as [|t0 ts] eqn:Es.
  { split; [discriminate|]. intros (p & [= <-] & _ & Hne & _). congruence. }
  rewrite <- Es in *.
  destruct (find case_incomplete _) as [bad|] eqn:Ef.
  { split; [discriminate|]. intros (p & [= <-] & _ & _ & Hall & _).
    apply find_some in Ef as [Hb Hi]. apply list_elem_of_In in Hb.
    destruct (Hall _ Hb) as (H1 & H2 & _). destruct (Hwf _ Hb) as [Hs _].
    unfold case_incomplete in Hi. apply nonempty_ne in H1, H2.
    by rewrite H1, H2, (status_nonempty _ Hs) in Hi. }
  rewrite find_none_forall in Ef.
  destruct (List.filter failed_without_agent _) as [|b0 bs] eqn:Eg.
  2:{ split; [discriminate|]. intros (p & [= <-] & _ & _ & Hall & _).
      assert (Hb : b0 ∈ List.filter failed_without_agent (TestReport.test_cases x))
        by (rewrite Eg; by left).
      apply list_elem_of_In, filter_In in Hb as [Hb Hf]. apply list_elem_of_In in Hb.
      unfold failed_without_agent in Hf. apply andb_true_iff in Hf as [Hf1 Hf2].
      apply status_is_fail_eq in Hf1. destruct (Hall _ Hb) as (_ & _ & Ha).
      specialize (Ha Hf1). destruct (TestCase.responsible_agent b0); [|done].
      unfold valid_agents in Ha. rewrite !elem_of_cons, elem_of_nil in Ha.
      destruct Ha as [H|[H|[H|[H|[]]]]]; discriminate. }
  rewrite filter_nil_forall in Eg.
  destruct (find agent_invalid _) as [bad|] eqn:Eh.
  { exfalso. apply find_some in Eh as [Hb Hi]. apply list_elem_of_In in Hb.
    destruct (Hwf _ Hb) as [_ Ha]. by rewrite (agent_never_invalid _ Ha) in Hi. }
  assert (Hcases : ∀ tc, tc ∈ TestReport.test_cases x →
            TestCase.id tc ≠ "" ∧ TestCase.description tc ≠ "" ∧
            (TestCase.status tc = "fail" → TestCase.responsible_agent tc ∈ valid_agents)).
  { intros tc Htc. specialize (Ef _ Htc). unfold case_incomplete in Ef.
    rewrite !orb_false_iff, !negb_nonempty in Ef. destruct Ef as [[H1 H2] _].
    split; [done|]. split; [done|]. intros Hfail.
    destruct (Hwf _ Htc) as [_ Ha]. apply agent_is_a_stage; [done|].
    specialize (Eg _ Htc). unfold failed_without_agent in Eg.
    apply status_is_fail_eq in Hfail. rewrite Hfail in Eg. cbn [andb] in Eg.
    by apply negb_nonempty. }
  destruct (String.eqb_spec (TestReport.overall_status x) "pass") as [Hp|Hp];
    cbn [andb].
  - destruct (List.filter status_is_fail _) as [|f0 fs] eqn:Ei.
    + rewrite filter_nil_forall in Ei. split.
      * intros [= <-]. exists x. split; [done|]. split; [done|].
        split; [by rewrite Es|]. split; [done|]. intros _ tc Htc Hfail.
        apply status_is_fail_eq in Hfail. by rewrite (Ei _ Htc) in Hfail.
      * by intros (p & [= <-] & -> & _).
    + split; [discriminate|]. intros (p & [= <-] & _ & _ & _ & Hcons).
      assert (Hb : f0 ∈ List.filter status_is_fail (TestReport.test_cases x))
        by (rewrite Ei; by left).
      apply list_elem_of_In, filter_In in Hb as [Hb Hf]. apply list_elem_of_In in Hb.
      apply status_is_fail_eq in Hf. by destruct (Hcons Hp _ Hb).
  - split.
    + intros [= <-]. exists x. split; [done|]. split; [done|].
      split; [by rewrite Es|]. split; [done|]. intros Hp'. by destruct Hp.
    + by intros (p & [= <-] & -> & _).
Qed.

End TestReportGuardrail.

Lemma missing_fields_is_not_invalid_agent (x : string) (tc : TestCase.t) :
  "Test case " +:+ x +:+ " is missing required fields (id, description, status)."
  ≠ invalid_agent_message tc.
Proof.
  unfold invalid_agent_message. intros H.
  apply (f_equal (λ s, rev (Py.chars s))) in H.
  rewrite !chars_app, !rev_app_distr in H.
  set (a := rev (Py.chars x)) in H. set (b := rev (Py.chars (TestCase.id tc))) in H.
  set (c := rev (Py.chars (TestCase.responsible_agent tc))) in H.
  vm_compute in H. discriminate H.
Qed.

Lemma lower_vocabulary (v : string) (l : list string) :
  v ∈ l → Forall (λ w, Py.lower w = w) l → Py.lower v = v.
Proof. intros H Hall. rewrite Forall_forall in Hall. by apply Hall. Qed.

Lemma is_failed_validated (tc : TestCase.t) :
  TestCase.status tc ∈ ["pass"; "fail"; "skip"; "skipp"] →
  is_failed tc = status_is_fail tc.
Proof.
  unfold is_failed, status_is_fail.
  rewrite !elem_of_cons, elem_of_nil. intros [->|[->|[->|[->|[]]]]]; reflexivity.
Qed.

Section GuardrailTheorems.
Variable json_loads : string → option json.
Variable model_dump_json : model → string.

(** X11.  [validate_backend_code] and [validate_frontend_code] accept a
    result exactly when the ladder returns code with a file whose name
    holds [main], respectively [index], in any case of the letters, and
    every file has a name and a content that are not empty. *)
Theorem code_guardrails (result : guard_result) (out : string) :
  (validate_backend_code json_loads model_dump_json result = (true, out) ↔
   ∃ parsed,
     safe_parse_json json_loads (raw_of result) (Some ClsBackendCode)
     = (true, PModel (MBackendCode parsed)) ∧
     out = model_dump_json (MBackendCode parsed) ∧
     has_file "main" (BackendCode.files parsed) = true ∧
     ∀ file, file ∈ BackendCode.files parsed →
             CodeFile.filename file ≠ "" ∧ CodeFile.content file ≠ "") ∧
  (validate_frontend_code json_loads model_dump_json result = (true, out) ↔
   ∃ parsed,
     safe_parse_json json_loads (raw_of result) (Some ClsFrontendCode)
     = (true, PModel (MFrontendCode parsed)) ∧
     out = model_dump_json (MFrontendCode parsed) ∧
     has_file "index" (FrontendCode.files parsed) = true ∧
     ∀ file, file ∈ FrontendCode.files parsed →
             CodeFile.filename file ≠ "" ∧ CodeFile.content file ≠ "").
Proof. split; [apply backend_code_accepted|apply frontend_code_accepted]. Qed.

(** X12.  [validate_test_report] accepts a result exactly when the ladder
    returns a report with at least one test case, every case has an id and
    a description, every case whose status is fail names one of the four
    stages as responsible, and a report whose overall status is pass has
    no case whose status is fail. *)
Theorem test_report_guardrail (result : guard_result) (out : string) :
  validate_test_report json_loads model_dump_json result = (true, out) ↔
  ∃ parsed,
    safe_parse_json json_loads (raw_of result) (Some ClsTestReport)
    = (true, PModel (MTestReport parsed)) ∧
    out = model_dump_json (MTestReport parsed) ∧
    TestReport.test_cases parsed ≠ [] ∧
    (∀ tc, tc ∈ TestReport.test_cases parsed →
           TestCase.id tc ≠ "" ∧ TestCase.description tc ≠ "" ∧
           (TestCase.status tc = "fail" → TestCase.responsible_agent tc ∈ valid_agents)) ∧
    (TestReport.overall_status parsed = "pass" →
     ∀ tc, tc ∈ TestReport.test_cases parsed → TestCase.status tc ≠ "fail").
Proof. apply test_report_accepted. Qed.

(** X13.  No guardrail ever answers with a validation error: reading the
    fields of what the ladder returns for the class of the guardrail
    cannot fail.  And [validate_test_report] never answers that a test
    case has an invalid responsible agent: the validator of the field has
    mapped every other value to the empty string before the check runs. *)
Theorem guardrails_dead_branches (result : guard_result) :
  Forall (λ verdict, fst verdict = false →
                     Py.startswith (snd verdict) "Validation error" = false)
    [validate_user_stories json_loads model_dump_json result;
     validate_system_design json_loads model_dump_json result;
     validate_backend_code json_loads model_dump_json result;
     validate_frontend_code json_loads model_dump_json result;
     validate_test_report json_loads model_dump_json result] ∧
  ∀ tc, validate_test_report json_loads model_dump_json result
        ≠ (false, invalid_agent_message tc).
Proof.
  split.
  - repeat constructor.
    + unfold validate_user_stories. cbv zeta.
      pose proof (guardrail_input json_loads (raw_of result) ClsUserStoriesOutput) as Hin.
      destruct (safe_parse_json _ _ _) as [[|] [m|j|msg]]; try done.
      destruct Hin as [Hc _]. destruct m as [x|x|x|x|x]; try discriminate Hc.
      destruct (UserStoriesOutput.stories x); [done|].
      by destruct (find _ _).
    + unfold validate_system_design. cbv zeta.
      pose proof (guardrail_input json_loads (raw_of result) ClsSystemDesign) as Hin.
      destruct (safe_parse_json _ _ _) as [[|] [m|j|msg]]; try done.
      destruct Hin as [Hc _]. destruct m as [x|x|x|x|x]; try discriminate Hc.
      destruct (SystemDesign.models x); [done|].
      destruct (SystemDesign.endpoints x); [done|].
      destruct (find model_incomplete _); [done|]. by destruct (find _ _).
    + unfold validate_backend_code. cbv zeta.
      pose proof (guardrail_input json_loads (raw_of result) ClsBackendCode) as Hin.
      destruct (safe_parse_json _ _ _) as [[|] [m|j|msg]]; try done.
      destruct Hin as [Hc _]. destruct m as [x|x|x|x|x]; try discriminate Hc.
      destruct (BackendCode.files x); [done|].
      destruct (negb _); [done|]. by destruct (find _ _).
    + unfold validate_frontend_code. cbv zeta.
      pose proof (guardrail_input json_loads (raw_of result) ClsFrontendCode) as Hin.
      destruct (safe_parse_json _ _ _) as [[|] [m|j|msg]]; try done.
      destruct Hin as [Hc _]. destruct m as [x|x|x|x|x]; try discriminate Hc.
      destruct (FrontendCode.files x); [done|].
      destruct (negb _); [done|]. by destruct (find _ _).
    + unfold validate_test_report. cbv zeta.
      pose proof (guardrail_input json_loads (raw_of result) ClsTestReport) as Hin.
      destruct (safe_parse_json _ _ _) as [[|] [m|j|msg]]; try done.
      destruct Hin as [Hc _]. destruct m as [x|x|x|x|x]; try discriminate Hc.
      destruct (TestReport.test_cases x); [done|].
      destruct (find case_incomplete _); [done|].
      destruct (List.filter failed_without_agent _); [|done].
      destruct (find agent_invalid _); [done|].
      by destruct (_ && _).
  - intros tc. unfold validate_test_report. cbv zeta.
    pose proof (guardrail_input json_loads (raw_of result) ClsTestReport) as Hin.
    destruct (safe_parse_json _ _ _) as [[|] [m|j|msg]]; try done.
    destruct Hin as [Hc Hwf]. destruct m as [x|x|x|x|x]; try discriminate Hc.
    cbn [well_formed] in Hwf. destruct Hwf as [_ Hwf].
    destruct (TestReport.test_cases x) as [|t0 ts] eqn:Es; [done|].
    rewrite <- Es in *.
    destruct (find case_incomplete _).
    { intros H. apply (f_equal snd) in H. cbn [snd] in H.
      by apply missing_fields_is_not_invalid_agent in H. }
    destruct (List.filter failed_without_agent _); [|done].
    destruct (find agent_invalid _) as [bad|] eqn:Eh.
    { exfalso. apply find_some in Eh as [Hb Hi]. apply list_elem_of_In in Hb.
      destruct (Hwf _ Hb) as [_ Ha]. by rewrite (agent_never_invalid _ Ha) in Hi. }
    by destruct (_ && _).
Qed.

(** X14.  On a report that [validate_test_report] accepts, the QA check of
    the run loop passes exactly when the overall status is pass; and when
    some case failed, the fallback decision on the stored report is to
    continue, with a list of agents to re-run that is not empty and holds
    the responsible agent of every failed case. *)
Theorem accepted_report_is_planned (result : guard_result) (out : string)
    (parsed : TestReport.t) (self : ContextManager) :
  validate_test_report json_loads model_dump_json result = (true, out) →
  safe_parse_json json_loads (raw_of result) (Some ClsTestReport)
  = (true, PModel (MTestReport parsed)) →
  test_report self = Some parsed →
  _check_qa_passed (mkResult true (Some parsed) (raw_of result) None)
  = Ret (String.eqb (TestReport.overall_status parsed) "pass") ∧
  ((∃ tc, tc ∈ TestReport.test_cases parsed ∧ TestCase.status tc = "fail") →
   ∃ d, _get_fallback_decision self = Ret d ∧
        should_continue d = JBool true ∧ agents_to_rerun d ≠ [] ∧
        ∀ tc, tc ∈ TestReport.test_cases parsed → TestCase.status tc = "fail" →
              TestCase.responsible_agent tc ∈ agents_to_rerun d).
Proof.
  intros Hacc Hparse Hrep.
  apply test_report_accepted in Hacc as (p & Hp & _ & Hne & Hcases & Hcons).
  rewrite Hparse in Hp. injection Hp as <-.
  pose proof (ladder_result json_loads (raw_of result) (Some ClsTestReport)) as Hl.
  rewrite Hparse in Hl. destruct Hl as [_ [Ho Hwf]].
  assert (Hlow : Py.lower (TestReport.overall_status parsed)
                 = TestReport.overall_status parsed).
  { revert Ho. rewrite !elem_of_cons, elem_of_nil.
    intros [->|[->|[->|[]]]]; reflexivity. }
  assert (Hfailed : ∀ tc, tc ∈ TestReport.test_cases parsed →
            is_failed tc = true ↔ TestCase.status tc = "fail").
  { intros tc Htc. destruct (Hwf _ Htc) as [Hs _].
    rewrite (is_failed_validated _ Hs). apply status_is_fail_eq. }
  assert (Hcheck : String.eqb (Py.lower (TestReport.overall_status parsed)) "pass"
                   && negb (existsb is_failed (TestReport.test_cases parsed))
                   = String.eqb (TestReport.overall_status parsed) "pass").
  { rewrite Hlow. destruct (String.eqb_spec (TestReport.overall_status parsed) "pass")
      as [Hpass|Hpass]; [|done]. cbn [andb]. apply negb_true_iff.
    apply not_true_is_false. intros (tc & Htc & Hf)%existsb_exists.
    apply list_elem_of_In in Htc. apply (Hfailed _ Htc) in Hf.
    by apply (Hcons Hpass tc Htc). }
  split.
  { unfold _check_qa_passed. cbn [success data negb].
    rewrite Hlow. destruct (String.eqb_spec (TestReport.overall_status parsed) "pass")
      as [Hpass|Hpass]; cbn [negb]; [|done].
    destruct (existsb is_failed _) eqn:Ee; [|done]. exfalso.
    apply existsb_exists in Ee as (tc & Htc & Hf). apply list_elem_of_In in Htc.
    apply (Hfailed _ Htc) in Hf. by apply (Hcons Hpass tc Htc). }
  intros (tc0 & Htc0 & Hf0).
  rewrite (fallback_decision_stored self parsed Hrep). cbv zeta. rewrite Hcheck.
  destruct (String.eqb_spec (TestReport.overall_status parsed) "pass") as [Hpass|Hpass].
  { by destruct (Hcons Hpass tc0 Htc0). }
  assert (Hown : ∀ tc, tc ∈ TestReport.test_cases parsed → TestCase.status tc = "fail" →
            TestCase.responsible_agent tc ∈ _get_agents_with_issues_from_report self ∧
            TestCase.responsible_agent tc ∈ valid_agents).
  { intros tc Htc Hf. destruct (Hcases tc Htc) as (_ & _ & Ha). specialize (Ha Hf).
    split; [|done]. apply (elem_of_agents_with_issues self parsed _ Hrep). right.
    exists tc. split; [done|]. split; [by apply Hfailed|]. split; [done|].
    intros He. rewrite He in Ha. unfold valid_agents in Ha.
    rewrite !elem_of_cons, elem_of_nil in Ha.
    destruct Ha as [H|[H|[H|[H|[]]]]]; discriminate. }
  assert (Hnonempty : _get_agents_with_issues_from_report self ≠ ∅).
  { intros He. destruct (Hown tc0 Htc0 Hf0) as [Hin _]. rewrite He in Hin.
    by apply not_elem_of_empty in Hin. }
  rewrite (bool_decide_eq_true_2 _ Hnonempty).
  eexists. split; [reflexivity|]. cbn [should_continue agents_to_rerun].
  split; [done|].
  assert (Hall : ∀ tc, tc ∈ TestReport.test_cases parsed → TestCase.status tc = "fail" →
            TestCase.responsible_agent tc
            ∈ _add_agent_dependencies
                (elements (_get_agents_with_issues_from_report self))).
  { intros tc Htc Hf. destruct (Hown tc Htc Hf) as [Hin Hv].
    apply elem_of_add_agent_dependencies. split; [exact Hv|]. left.
    by apply elem_of_elements. }
  split; [|exact Hall].
  intros He. specialize (Hall tc0 Htc0 Hf0). rewrite He in Hall.
  by apply elem_of_nil in Hall.
Qed.

End GuardrailTheorems.

Lemma accepted_report_is_planned_witness :
  ∃ d, _get_fallback_decision (Ex.context_with Ex7.failing_report) = Ret d ∧
       should_continue d = JBool true ∧
       agents_to_rerun d = ["backend_engineer"; "frontend_engineer"].
Proof.
  destruct (accepted_report_is_planned Json.loads (λ _, "")
              (WithRaw Ex7.failing_report_raw) "" Ex7.failing_report
              (Ex.context_with Ex7.failing_report)) as [_ H];
    [vm_compute; reflexivity..|].
  destruct H as (d & Hd & Hs & _).
  { exists (TestCase.mk "TC001" "Create a task" "fail" "no route" "backend_engineer").
    split; [by left|reflexivity]. }
  exists d. split; [done|]. split; [done|].
  vm_compute in Hd. by injection Hd as <-.
Defined.

(* ================================================================== *)
(** * The agents with issues, read from the output of the QA stage *)
(* ================================================================== *)

(** X15.  After the context has taken the output of the QA stage,
    [_get_agents_with_issues] on the output and
    [_get_agents_with_issues_from_report] on the context agree when the
    output succeeded with a report.  They part on the edges: a successful
    output without data raises in the first and gives no agent in the
    second; on a failed output the first gives no agent, while the second
    still reads the report of the iteration before. *)
Theorem agents_with_issues_after_update (self : ContextManager)
    (qa_output : StageResult TestReport.t) :
  (∀ rep, success qa_output = true → data qa_output = Some rep →
     _get_agents_with_issues qa_output
     = Ret (_get_agents_with_issues_from_report (update_test_report self qa_output)) ∧
     ∀ a, a ∈ _get_agents_with_issues_from_report (update_test_report self qa_output) ↔
          (∃ issues, (a, issues) ∈ TestReport.issues_by_agent rep ∧ issues ≠ []) ∨
          (∃ tc, tc ∈ TestReport.test_cases rep ∧ is_failed tc = true ∧
                 TestCase.responsible_agent tc = a ∧ a ≠ "")) ∧
  (success qa_output = true → data qa_output = None →
     _get_agents_with_issues qa_output = Raise AttributeError ∧
     _get_agents_with_issues_from_report (update_test_report self qa_output) = ∅) ∧
  (success qa_output = false →
     _get_agents_with_issues qa_output = Ret ∅ ∧
     _get_agents_with_issues_from_report (update_test_report self qa_output)
     = _get_agents_with_issues_from_report self).
Proof.
  unfold _get_agents_with_issues, update_test_report.
  split; [|split].
  - intros rep Hs Hd. rewrite Hs. cbn [negb]. split.
    + rewrite Hd. unfold _get_agents_with_issues_from_report. by cbn [test_report].
    + intros a. apply elem_of_agents_with_issues. cbn [test_report]. exact Hd.
  - intros Hs Hd. rewrite Hs, Hd. cbn [negb].
    unfold _get_agents_with_issues_from_report. by cbn [test_report].
  - intros Hs. by rewrite Hs.
Qed.

(* ================================================================== *)
(** * The QA feedback of a re-run *)
(* ================================================================== *)

Lemma join_nonempty (sep p : string) (ps : list string) :
  p ≠ "" → Py.join sep (p :: ps) ≠ "".
Proof.
  intros Hp. destruct p as [|c p]; [done|].
  destruct ps; cbn; discriminate.
Qed.

(** X16.  The QA feedback for an agent is empty exactly when no report is
    stored, or the stored report lists no issue under the agent's name,
    has no failed test case whose responsible agent is the agent, and has
    no recommendation: the recommendations of a report go to every agent
    that re-runs, whoever is responsible. *)
Theorem qa_feedback_is_empty (self : ContextManager) (agent_name : string) :
  _format_qa_feedback self agent_name = "" ↔
  match test_report self with
  | None => True
  | Some tr =>
      issues_of agent_name (TestReport.issues_by_agent tr) = [] ∧
      (∀ tc, tc ∈ TestReport.test_cases tr → is_failed tc = true →
             TestCase.responsible_agent tc ≠ agent_name) ∧
      TestReport.recommendations tr = []
  end.
Proof.
  unfold _format_qa_feedback. destruct (test_report self) as [tr|]; [|done].
  cbv zeta.
  destruct (issues_of agent_name _) as [|i0 iss]; cbn [app].
  2:{ split; [|by intros [[=] _]]. intros H. by apply join_nonempty in H. }
  destruct (List.filter _ (TestReport.test_cases tr)) as [|f0 fs] eqn:Ef; cbn [app].
  2:{ split.
      - intros H. by apply join_nonempty in H.
      - intros (_ & Hall & _). exfalso.
        assert (Hin : f0 ∈ List.filter
                  (λ tc, is_failed tc && String.eqb (TestCase.responsible_agent tc) agent_name)
                  (TestReport.test_cases tr)) by (rewrite Ef; by left).
        apply list_elem_of_In, filter_In in Hin as [Hin Hf].
        apply andb_true_iff in Hf as [Hf He]. apply String.eqb_eq in He.
        apply list_elem_of_In in Hin. by apply (Hall _ Hin Hf). }
  rewrite filter_nil_forall in Ef.
  unfold format_recommendations.
  destruct (TestReport.recommendations tr) as [|r0 rs]; cbn [app].
  - split; [|done]. intros _. split; [done|]. split; [|done].
    intros tc Htc Hf He. specialize (Ef _ Htc). rewrite Hf in Ef. cbn [andb] in Ef.
    apply String.eqb_neq in Ef. done.
  - split; [|by intros (_ & _ & [=])]. intros H. by apply join_nonempty in H.
Qed.

(* ================================================================== *)
(** * The name of the project directory *)
(* ================================================================== *)

Lemma lstrip_suffix (isspace : N → bool) (l : list N) :
  ∃ p, l = p ++ lstrip isspace l.
Proof.
  induction l as [|a l [p IH]]; [by exists []|]. cbn [lstrip].
  destruct (isspace a); [|by exists []].
  exists (a :: p). cbn [app]. by rewrite <- IH.
Qed.

(** What [strip] keeps is a stretch of the string. *)
Lemma strip_middle (isspace : N → bool) (l : list N) :
  ∃ p q, l = p ++ strip isspace l ++ q.
Proof.
  unfold strip. destruct (lstrip_suffix isspace l) as [p Hp].
  destruct (lstrip_suffix isspace (rev (lstrip isspace l))) as [q Hq].
  exists p, (rev q). rewrite <- rev_app_distr, <- Hq, rev_involutive. exact Hp.
Qed.

Lemma ascii_lower_name_char (c : N) :
  ascii_alnum c = true ∨ c = 45%N ∨ c = 95%N → name_char (ascii_lower c) = true.
Proof.
  unfold ascii_alnum, ascii_lower, name_char.
  intros [H|[->| ->]]; [|reflexivity..].
  destruct (N.leb_spec 65 c), (N.leb_spec c 90); cbn [andb];
    repeat match goal with
           | |- context [(?a <=? ?b)%N] => destruct (N.leb_spec a b); try lia
           | H : context [(?a <=? ?b)%N] |- _ => destruct (N.leb_spec a b); try lia
           end; cbn in *; try done.
Qed.

(** X17.  The name made from the prompt for the project directory is the
    lower case of a stem that holds letters and digits, hyphens and
    underscores only, each of them an underscore or a character of the cut
    of the prompt, and that is no longer than the cut.  For a prompt in
    ASCII the name itself holds digits, small letters, hyphens and
    underscores only and is no longer than the cut; beyond ASCII the lower
    case can add characters to the stem. *)
Theorem safe_name_is_path_safe (isalnum isspace : N → bool) (lower : list N → list N)
    (n : nat) (vibe_prompt : list N) :
  (∃ stem,
     safe_name isalnum isspace lower n vibe_prompt = lower stem ∧
     Forall (λ c, isalnum c = true ∨ c = 45%N ∨ c = 95%N) stem ∧
     Forall (λ c, c = 95%N ∨ c ∈ firstn n vibe_prompt) stem ∧
     (length stem ≤ min n (length vibe_prompt))%nat) ∧
  (Forall (λ c, (c < 128)%N) vibe_prompt →
   (∀ c, (c < 128)%N → isalnum c = ascii_alnum c) →
   (∀ s, Forall (λ c, (c < 128)%N) s → lower s = map ascii_lower s) →
   Forall (λ c, name_char c = true) (safe_name isalnum isspace lower n vibe_prompt) ∧
   (length (safe_name isalnum isspace lower n vibe_prompt)
    ≤ min n (length vibe_prompt))%nat).
Proof.
  unfold safe_name. cbv zeta.
  set (cut := map (safe_char isalnum) (firstn n vibe_prompt)).
  set (stem := replace_space (strip isspace cut)).
  destruct (strip_middle isspace cut) as (p & q & Hcut).
  assert (Hin : ∀ c, c ∈ strip isspace cut → c ∈ cut).
  { intros c Hc. rewrite Hcut, !elem_of_app. auto. }
  assert (Hlen : (length stem ≤ min n (length vibe_prompt))%nat).
  { subst stem. unfold replace_space. rewrite length_map.
    apply (f_equal length) in Hcut. rewrite !length_app in Hcut.
    subst cut. rewrite length_map, length_firstn in Hcut. lia. }
  assert (Hstem : Forall (λ c, (isalnum c = true ∨ c = 45%N ∨ c = 95%N) ∧
                               (c = 95%N ∨ c ∈ firstn n vibe_prompt)) stem).
  { apply Forall_forall. intros d (c0 & -> & Hc0)%list_elem_of_fmap.
    apply Hin in Hc0. apply list_elem_of_fmap in Hc0 as (c & -> & Hc).
    unfold safe_char. destruct (isalnum c) eqn:Ea; cbn [orb].
    - destruct (N.eqb_spec c 32) as [->|Hne]; [by split; [right; right|left]|].
      split; [by left|by right].
    - cbn [existsb]. destruct (N.eqb_spec c 32) as [->|H32]; cbn [orb].
      { cbn. by split; [right; right|left]. }
      destruct (N.eqb_spec c 45) as [->|H45]; cbn [orb].
      { cbn. by split; [right; left|right]. }
      destruct (N.eqb_spec c 95) as [->|H95]; cbn [orb].
      { cbn. by split; [right; right|left]. }
      cbn. by split; [right; right|left]. }
  split.
  - exists stem. split; [done|]. split; [|split; [|exact Hlen]].
    + eapply Forall_impl; [exact Hstem|]. by intros c [H _].
    + eapply Forall_impl; [exact Hstem|]. by intros c [_ H].
  - intros Hascii Halnum Hlower.
    assert (Hsmall : Forall (λ c, (c < 128)%N) stem).
    { eapply Forall_impl; [exact Hstem|]. intros c [_ [->|Hc]]; [lia|].
      rewrite Forall_forall in Hascii. apply Hascii.
      rewrite <- (firstn_skipn n vibe_prompt). apply elem_of_app. by left. }
    rewrite (Hlower stem Hsmall). split; [|by rewrite length_map].
    apply Forall_forall. intros d (c & -> & Hc)%list_elem_of_fmap.
    rewrite Forall_forall in Hstem, Hsmall.
    destruct (Hstem c Hc) as [Ha _]. apply ascii_lower_name_char.
    rewrite <- (Halnum c (Hsmall c Hc)). exact Ha.
Qed.

Lemma safe_name_is_path_safe_witness :
  safe_name Ex9.isalnum Ex9.isspace Ex9.lower 40 Ex9.prompt
  = code_points "my_to-do_app__v2_" ∧
  Forall (λ c, name_char c = true)
    (safe_name Ex9.isalnum Ex9.isspace Ex9.lower 40 Ex9.prompt).
Proof.
  split; [vm_compute; reflexivity|].
  apply (proj2 (safe_name_is_path_safe Ex9.isalnum Ex9.isspace Ex9.lower 40 Ex9.prompt)).
  - vm_compute. repeat constructor.
  - intros c Hc. unfold Ex9.isalnum, ascii_alnum.
    destruct (N.eqb_spec c 304) as [->|_]; [lia|]. by rewrite orb_false_r.
  - intros s Hs. unfold Ex9.lower. induction Hs as [|c s Hc Hs IH]; [done|].
    cbn [map concat]. rewrite IH. unfold ascii_lower.
    destruct (N.eqb_spec c 304) as [->|_]; [lia|].
    by destruct ((65 <=? c) && (c <=? 90))%N.
Defined.

(** Beyond ASCII the name can outgrow the cut it is made from: the lower
    case of U+0130 is two characters, the second of them no letter. *)
Lemma safe_name_outgrows_the_cut :
  safe_name Ex9.isalnum Ex9.isspace Ex9.lower 1 [304%N] = [105%N; 775%N].
Proof. reflexivity. Qed.

(* ================================================================== *)
(** * Running a task, with retries *)
(* ================================================================== *)

Lemma retries_before (k : nat) :
  length (List.filter (Nat.ltb 0) (seq 0 k)) = (k - 1)%nat.
Proof.
  destruct k as [|k]; [done|]. cbn [seq List.filter Nat.ltb Nat.leb].
  replace (S k - 1)%nat with (length (seq 1 k)) by (rewrite length_seq; lia).
  f_equal. apply forallb_filter_id. apply forallb_forall.
  intros j [Hj _]%in_seq. apply Nat.ltb_lt. lia.
Qed.

Section ExecutionFacts.
Variable json_loads : string → option json.
Variable clock : nat → string.
Variable world : nat → attempt.
Variable schema_class : option model_class.
Variable max_retries : Z.

Lemma extract_output_success (o : TaskOutput) :
  success (_extract_output json_loads o schema_class) = true →
  is_Some (data (_extract_output json_loads o schema_class)) ∧
  error (_extract_output json_loads o schema_class) = None ∧
  raw (_extract_output json_loads o schema_class) = to_raw o.
Proof.
  unfold _extract_output. cbv zeta.
  destruct (pydantic o); [by eauto|].
  destruct (json_dict o) as [j|]; [destruct (truthy j); [by eauto|]|];
    destruct (safe_parse_json _ _ _) as [[|] p]; cbn; by eauto.
Qed.

Lemma extract_output_failure (o : TaskOutput) :
  success (_extract_output json_loads o schema_class) = false →
  raw (_extract_output json_loads o schema_class) = to_raw o ∧
  ∃ p, safe_parse_json json_loads (to_raw o) schema_class = (false, p) ∧
       error (_extract_output json_loads o schema_class) = Some (message_of p).
Proof.
  unfold _extract_output. cbv zeta.
  destruct (pydantic o); [done|].
  destruct (json_dict o) as [j|]; [destruct (truthy j); [done|]|];
    destruct (safe_parse_json _ _ _) as [[|] p]; cbn; try done; by eauto.
Qed.

Lemma log_prefix (l : list string) (message : string) :
  l `prefix_of` _log clock l message.
Proof. unfold _log. by apply prefix_app_r. Qed.

Lemma log_length (l : list string) (message : string) :
  length (_log clock l message) = S (length l).
Proof. unfold _log. rewrite length_app. cbn. lia. Qed.

Lemma attempts_app (todo1 todo2 : list nat) (st : attempt_state) :
  attempts json_loads clock world schema_class max_retries (todo1 ++ todo2) st
  = match attempts json_loads clock world schema_class max_retries todo1 st with
    | inl result => inl result
    | inr st' => attempts json_loads clock world schema_class max_retries todo2 st'
    end.
Proof.
  revert st. induction todo1 as [|k todo1 IH]; intros st; [done|].
  cbn [app attempts]. destruct (world k) as [o|msg o]; [|apply IH].
  destruct (success _); [done|apply IH].
Qed.

(** The state after attempts none of which is extracted. *)
Lemma attempts_failing (n : nat) (todo : list nat) (st : attempt_state) :
  (∀ k, k ∈ todo → extracted json_loads world schema_class k = false ∧ k < n) →
  ∃ st', attempts json_loads clock world schema_class max_retries todo st = inr st' ∧
         length (entries st')
         = (length (entries st) + length todo + length (List.filter (Nat.ltb 0) todo))%nat ∧
         entries st `prefix_of` entries st' ∧
         (raw_kept json_loads world schema_class n st →
          raw_kept json_loads world schema_class n st').
Proof.
  revert st. induction todo as [|k todo IH]; intros st Hall.
  { exists st. cbn. split; [done|]. split; [lia|]. done. }
  assert (Hk : extracted json_loads world schema_class k = false ∧ k < n)
    by (apply Hall; by left).
  assert (Hrest : ∀ j, j ∈ todo →
            extracted json_loads world schema_class j = false ∧ j < n)
    by (intros j Hj; apply Hall; by right).
  destruct Hk as [Hk Hlt]. unfold extracted in Hk. cbn [attempts].
  set (log := if (0 <? k)%nat then _log clock (entries st) _ else entries st).
  assert (Hlog : entries st `prefix_of` log ∧
                 length log = (length (entries st) + if (0 <? k)%nat then 1 else 0)%nat).
  { subst log. destruct (0 <? k)%nat.
    - split; [apply log_prefix|]. rewrite log_length. lia.
    - split; [done|lia]. }
  destruct Hlog as [Hp Hl].
  destruct (world k) as [o|msg o] eqn:Ew.
  - rewrite Hk. destruct (extract_output_failure o Hk) as (Hraw & p & Hparse & Herr).
    edestruct (IH (mkAttemptState (error (_extract_output json_loads o schema_class))
                     (raw (_extract_output json_loads o schema_class))
                     (_log clock log
                        ("    Extraction failed: "
                         +:+ str_of_error (error (_extract_output json_loads o schema_class))))))
      as (st' & Hst & Hlen & Hpre & Hinv); [exact Hrest|].
    exists st'. split; [exact Hst|]. cbn [entries] in Hlen, Hpre.
    pose proof (log_length log
                ("    Extraction failed: "
                 +:+ str_of_error (error (_extract_output json_loads o schema_class)))) as H2.
    split; [|split].
    + rewrite Hlen, H2, Hl. cbn [length List.filter].
      destruct (0 <? k)%nat; cbn [length]; lia.
    + etrans; [exact Hp|]. etrans; [apply log_prefix|exact Hpre].
    + intros _. apply Hinv. right. left. exists p. cbn [last_raw]. by rewrite Hraw.
  - edestruct (IH (mkAttemptState (Some msg)
                     (match o with Some o => to_raw o | None => last_raw st end)
                     (_log clock log
                        ("    Attempt " +:+ Py.str_of_Z (Z.of_nat k + 1)
                         +:+ " failed: " +:+ msg))))
      as (st' & Hst & Hlen & Hpre & Hinv); [exact Hrest|].
    exists st'. split; [exact Hst|]. cbn [entries] in Hlen, Hpre.
    pose proof (log_length log
                ("    Attempt " +:+ Py.str_of_Z (Z.of_nat k + 1) +:+ " failed: " +:+ msg)) as H2.
    split; [|split].
    + rewrite Hlen, H2, Hl. cbn [length List.filter].
      destruct (0 <? k)%nat; cbn [length]; lia.
    + etrans; [exact Hp|]. etrans; [apply log_prefix|exact Hpre].
    + intros Hst0. apply Hinv. destruct o as [o|]; [|exact Hst0].
      right. right. by exists k, msg, o.
Qed.

(** What the loop ends in: the extracted output of an attempt, or the state
    after attempts none of which is extracted. *)
Lemma attempts_spec (todo : list nat) (st : attempt_state) :
  match attempts json_loads clock world schema_class max_retries todo st with
  | inl (r, log) =>
      entries st `prefix_of` log ∧
      ∃ k o, k ∈ todo ∧ world k = Returned o ∧
             r = _extract_output json_loads o schema_class ∧ success r = true
  | inr st' =>
      entries st `prefix_of` entries st' ∧
      ∀ k, k ∈ todo → extracted json_loads world schema_class k = false
  end.
Proof.
  revert st. induction todo as [|k todo IH]; intros st.
  { cbn. split; [done|]. intros k Hk. by apply elem_of_nil in Hk. }
  cbn [attempts].
  set (log := if (0 <? k)%nat then _log clock (entries st) _ else entries st).
  assert (Hp : entries st `prefix_of` log).
  { subst log. destruct (0 <? k)%nat; [apply log_prefix|done]. }
  destruct (world k) as [o|msg o] eqn:Ew.
  - destruct (success (_extract_output json_loads o schema_class)) eqn:Es.
    + split.
      * destruct (0 <? k)%nat; [|done]. etrans; [exact Hp|apply log_prefix].
      * exists k, o. split; [by left|done].
    + match goal with |- context [attempts _ _ _ _ _ _ ?s] => specialize (IH s) end.
      destruct (attempts _ _ _ _ _ _ _) as [[r l]|st'].
      * destruct IH as [Hpre (j & o' & Hj & Hrest)]. cbn [entries] in Hpre. split.
        -- etrans; [exact Hp|]. etrans; [apply log_prefix|exact Hpre].
        -- exists j, o'. split; [by right|done].
      * destruct IH as [Hpre Hall]. cbn [entries] in Hpre. split.
        -- etrans; [exact Hp|]. etrans; [apply log_prefix|exact Hpre].
        -- intros j [->|Hj]%elem_of_cons; [|by apply Hall].
           unfold extracted. by rewrite Ew.
  - match goal with |- context [attempts _ _ _ _ _ _ ?s] => specialize (IH s) end.
    destruct (attempts _ _ _ _ _ _ _) as [[r l]|st'].
    + destruct IH as [Hpre (j & o' & Hj & Hrest)]. cbn [entries] in Hpre. split.
      * etrans; [exact Hp|]. etrans; [apply log_prefix|exact Hpre].
      * exists j, o'. split; [by right|done].
    + destruct IH as [Hpre Hall]. cbn [entries] in Hpre. split.
      * etrans; [exact Hp|]. etrans; [apply log_prefix|exact Hpre].
      * intros j [->|Hj]%elem_of_cons; [|by apply Hall].
        unfold extracted. by rewrite Ew.
Qed.

End ExecutionFacts.

Section ExecutionTheorems.
Variable json_loads : string → option json.
Variable clock : nat → string.

(** X18.  The first attempt whose output is extracted gives the result of
    [_execute_task_with_recovery], whatever the attempts after it would
    do: they are not made.  When it is attempt [k], counted from 0, the
    log has gained nothing for [k = 0] and [2 k + 1] entries otherwise: one
    for every attempt that failed, one for every retry, one for the
    success on a retry. *)
Theorem first_extracted_attempt_is_returned (world : nat → attempt)
    (schema_class : option model_class) (max_retries : option Z)
    (execution_log : list string) (k : nat) (task_output : TaskOutput) :
  (Z.of_nat k ≤ default MAX_RETRIES max_retries)%Z →
  world k = Returned task_output →
  success (_extract_output json_loads task_output schema_class) = true →
  (∀ j, j < k → extracted json_loads world schema_class j = false) →
  fst (_execute_task_with_recovery json_loads clock world schema_class max_retries
         execution_log)
  = _extract_output json_loads task_output schema_class ∧
  length (snd (_execute_task_with_recovery json_loads clock world schema_class
                 max_retries execution_log))
  = (length execution_log + if (k =? 0)%nat then 0 else 2 * k + 1)%nat ∧
  execution_log
    `prefix_of` snd (_execute_task_with_recovery json_loads clock world schema_class
                       max_retries execution_log).
Proof.
  intros Hk Hw Hs Hfail. unfold _execute_task_with_recovery.
  change (match max_retries with Some n => n | None => MAX_RETRIES end)
    with (default MAX_RETRIES max_retries).
  set (n := default MAX_RETRIES max_retries) in *. cbv zeta.
  assert (Hseq : seq 0 (Z.to_nat (n + 1))
                 = seq 0 k ++ k :: seq (S k) (Z.to_nat (n + 1) - S k)).
  { replace (Z.to_nat (n + 1)) with (k + S (Z.to_nat (n + 1) - S k))%nat at 1 by lia.
    rewrite seq_app. reflexivity. }
  rewrite Hseq, attempts_app.
  destruct (attempts_failing json_loads clock world schema_class n k (seq 0 k)
              (mkAttemptState None "" execution_log))
    as (st' & -> & Hlen & Hpre & _).
  { intros j Hj. apply list_elem_of_In, in_seq in Hj. split; [apply Hfail|]; lia. }
  cbn [entries] in Hlen, Hpre. rewrite length_seq, retries_before in Hlen.
  cbn [attempts]. rewrite Hw, Hs. cbn [fst snd].
  split; [done|].
  destruct k as [|k]; cbn [Nat.ltb Nat.leb Nat.eqb].
  - split; [lia|done].
  - split.
    + rewrite !log_length. lia.
    + etrans; [exact Hpre|]. etrans; apply log_prefix.
Qed.

(** X19.  When no attempt is extracted: with no attempt to make the result
    is the failure with no raw text and [None] as the last error, and the
    log is as it was; when the last attempt returned, the result is the
    failure with the raw text and the error of that attempt, for the final
    recovery parses the text the extraction has just failed on; so a final
    recovery that succeeds has parsed the output of a task whose attempt
    raised. *)
Theorem exhausted_attempts (world : nat → attempt)
    (schema_class : option model_class) (max_retries : option Z)
    (execution_log : list string) :
  (∀ j, j < Z.to_nat (default MAX_RETRIES max_retries + 1) →
        extracted json_loads world schema_class j = false) →
  ((default MAX_RETRIES max_retries + 1 ≤ 0)%Z →
   _execute_task_with_recovery json_loads clock world schema_class max_retries
     execution_log
   = (mkResult false None ""
        (Some ("Failed after " +:+ Py.str_of_Z (default MAX_RETRIES max_retries + 1)
               +:+ " attempts. Last error: None")),
      execution_log)) ∧
  (∀ o, (0 ≤ default MAX_RETRIES max_retries)%Z →
     world (Z.to_nat (default MAX_RETRIES max_retries)) = Returned o →
     fst (_execute_task_with_recovery json_loads clock world schema_class max_retries
            execution_log)
     = mkResult false None (to_raw o)
         (Some ("Failed after " +:+ Py.str_of_Z (default MAX_RETRIES max_retries + 1)
                +:+ " attempts. Last error: "
                +:+ str_of_error (error (_extract_output json_loads o schema_class))))) ∧
  (success (fst (_execute_task_with_recovery json_loads clock world schema_class
                   max_retries execution_log)) = true →
   ∃ j msg o p,
     j < Z.to_nat (default MAX_RETRIES max_retries + 1) ∧
     world j = Raised msg (Some o) ∧
     safe_parse_json json_loads (to_raw o) schema_class = (true, p) ∧
     fst (_execute_task_with_recovery json_loads clock world schema_class max_retries
            execution_log)
     = mkResult true (Some (data_of_parsed p)) (to_raw o) None).
Proof.
  intros Hfail. unfold _execute_task_with_recovery.
  change (match max_retries with Some n => n | None => MAX_RETRIES end)
    with (default MAX_RETRIES max_retries).
  set (n := default MAX_RETRIES max_retries) in *. cbv zeta.
  split; [|split].
  - intros Hn. replace (Z.to_nat (n + 1)) with 0%nat by lia. reflexivity.
  - intros o Hn Hw.
    replace (Z.to_nat (n + 1)) with (S (Z.to_nat n)) by lia.
    rewrite seq_S, attempts_app. cbn [Nat.add].
    destruct (attempts_failing json_loads clock world schema_class n (Z.to_nat n)
                (seq 0 (Z.to_nat n)) (mkAttemptState None "" execution_log))
      as (st' & -> & _).
    { intros j Hj. apply list_elem_of_In, in_seq in Hj.
      split; [apply Hfail|]; lia. }
    assert (He : extracted json_loads world schema_class (Z.to_nat n) = false)
      by (apply Hfail; lia).
    unfold extracted in He. rewrite Hw in He.
    cbn [attempts]. rewrite Hw, He.
    destruct (extract_output_failure json_loads schema_class o He)
      as (Hraw & p & Hparse & Herr).
    cbn [last_raw last_error entries]. rewrite Hraw, Hparse.
    by destruct (Py.nonempty (to_raw o)).
  - destruct (attempts_failing json_loads clock world schema_class n (Z.to_nat (n + 1))
                (seq 0 (Z.to_nat (n + 1))) (mkAttemptState None "" execution_log))
      as (st' & -> & _ & _ & Hinv).
    { intros j Hj. apply list_elem_of_In, in_seq in Hj.
      split; [apply Hfail|]; lia. }
    specialize (Hinv (or_introl eq_refl)).
    destruct (Py.nonempty (last_raw st')) eqn:Ene; [|done].
    destruct (safe_parse_json json_loads (last_raw st') schema_class) as [[|] p] eqn:Ep;
      [|done].
    intros _. destruct Hinv as [H|[(p' & H)|(j & msg & o & Hj & Hw & Hraw)]].
    + by rewrite H in Ene.
    + congruence.
    + exists j, msg, o, p. rewrite <- Hraw. done.
Qed.

(** X20.  Whatever the attempts end in, [_execute_task_with_recovery] only
    adds to the execution log; a result that succeeded holds data and no
    error, and a result that failed holds no data and the error that
    starts with the number of attempts. *)
Theorem execution_result_shape (world : nat → attempt)
    (schema_class : option model_class) (max_retries : option Z)
    (execution_log : list string) :
  execution_log
    `prefix_of` snd (_execute_task_with_recovery json_loads clock world schema_class
                       max_retries execution_log) ∧
  if success (fst (_execute_task_with_recovery json_loads clock world schema_class
                     max_retries execution_log))
  then is_Some (data (fst (_execute_task_with_recovery json_loads clock world
                             schema_class max_retries execution_log))) ∧
       error (fst (_execute_task_with_recovery json_loads clock world schema_class
                     max_retries execution_log)) = None
  else data (fst (_execute_task_with_recovery json_loads clock world schema_class
                    max_retries execution_log)) = None ∧
       ∃ last_error,
         error (fst (_execute_task_with_recovery json_loads clock world schema_class
                       max_retries execution_log))
         = Some ("Failed after " +:+ Py.str_of_Z (default MAX_RETRIES max_retries + 1)
                 +:+ " attempts. Last error: " +:+ last_error).
Proof.
  unfold _execute_task_with_recovery.
  change (match max_retries with Some n => n | None => MAX_RETRIES end)
    with (default MAX_RETRIES max_retries).
  set (n := default MAX_RETRIES max_retries) in *. cbv zeta.
  pose proof (attempts_spec json_loads clock world schema_class n
                (seq 0 (Z.to_nat (n + 1))) (mkAttemptState None "" execution_log)) as H.
  destruct (attempts _ _ _ _ _ _ _) as [[r l]|st'].
  - destruct H as [Hpre (k & o & _ & _ & -> & Hs)]. cbn [fst snd entries] in *.
    split; [done|]. rewrite Hs.
    by destruct (extract_output_success json_loads schema_class o Hs) as (? & ? & _).
  - destruct H as [Hpre _]. cbn [entries] in Hpre.
    destruct (Py.nonempty (last_raw st')).
    + destruct (safe_parse_json _ _ _) as [[|] p]; cbn [fst snd success data error].
      * split; [|by eauto].
        etrans; [exact Hpre|]. etrans; apply log_prefix.
      * split; [|by eauto]. etrans; [exact Hpre|]. apply log_prefix.
    + cbn [fst snd success data error]. split; [done|by eauto].
Qed.

End ExecutionTheorems.

Lemma first_extracted_attempt_is_returned_witness :
  success (fst (_execute_task_with_recovery Json.loads Ex8.wall_clock Ex8.world_retry
                  None None [])) = true ∧
  length (snd (_execute_task_with_recovery Json.loads Ex8.wall_clock Ex8.world_retry
                 None None [])) = 3.
Proof.
  destruct (first_extracted_attempt_is_returned Json.loads Ex8.wall_clock
              Ex8.world_retry None None [] 1 Ex8.answer) as (H1 & H2 & _).
  - by vm_compute.
  - reflexivity.
  - vm_compute. reflexivity.
  - intros j Hj. assert (j = 0) as -> by lia. reflexivity.
  - rewrite H1, H2. split; vm_compute; reflexivity.
Defined.

Lemma exhausted_attempts_witness :
  ∃ j msg, Ex8.world_raising j = Raised msg (Some Ex8.answer) ∧
           raw (fst (_execute_task_with_recovery Json.loads Ex8.wall_clock
                       Ex8.world_raising None None [])) = to_raw Ex8.answer.
Proof.
  destruct (exhausted_attempts Json.loads Ex8.wall_clock Ex8.world_raising None None [])
    as (_ & _ & H).
  - intros j Hj. unfold extracted. unfold Ex8.world_raising.
    by destruct j as [|[|j]].
  - destruct H as (j & msg & o & p & Hj & Hw & Hp & Hr); [vm_compute; reflexivity|].
    exists j, msg. unfold Ex8.world_raising in *.
    destruct j as [|[|j]]; try discriminate Hw.
    injection Hw as <- <-. split; [reflexivity|]. by rewrite Hr.
Defined.
